(** * isnapshot: incremental snapshots by copying changed files and
      symlinking unchanged ones (src/isnapshot.c)

    The program is embedded as functions in a small state monad.  The
    operating system and the C library are an interface ([OS]): every
    system call the program makes is a method of that interface, and the
    monad records each call, with its arguments and its outcome, in a
    trace.  The messages of [err] and [info] and the option [verbose]
    that selects them are left out; the options that [main] parses are
    the configuration, and [main] is embedded from its test on the number
    of arguments on.

    Where the C code has no defined behaviour the embedding has no
    result: [copy_file] after an [open] that failed (its label [done]
    closes [out] and frees [buffer], which were never assigned) and
    [rmkdir] when [dirname] returned its static string (which it then
    frees).  [locate_previous] hands [strptime] a [struct tm] that it
    never initialised; what that structure holds before the call is a
    component of the interface.

    The statements of the first part hold for every implementation of
    the interface; the second part ([SimFS]) is an executable file system
    on which the program is run on concrete trees.  The last part holds
    further properties of [join_path], [rmkdir], [copy_file],
    [copy_time], [process_file] and [main]. *)

From Stdlib Require Import ZArith String Ascii List Bool Lia.
From Stdlib Require Import Init.Byte.
From stdpp Require Import base option list strings gmap.

Open Scope string_scope.
Open Scope list_scope.
Open Scope Z_scope.

(** ** sys/stat.h *)

(** File type and permission bits of [st_mode], with their Linux values. *)
Definition S_IFMT   : Z := 0xF000.
Definition S_IFSOCK : Z := 0xC000.
Definition S_IFLNK  : Z := 0xA000.
Definition S_IFREG  : Z := 0x8000.
Definition S_IFBLK  : Z := 0x6000.
Definition S_IFDIR  : Z := 0x4000.
Definition S_IFCHR  : Z := 0x2000.
Definition S_IFIFO  : Z := 0x1000.
Definition S_ISUID  : Z := 0x800.
Definition S_ISGID  : Z := 0x400.
Definition S_IRWXU  : Z := 0x1C0.

Definition S_ISDIR  (m : Z) : bool := Z.land m S_IFMT =? S_IFDIR.
Definition S_ISREG  (m : Z) : bool := Z.land m S_IFMT =? S_IFREG.
Definition S_ISLNK  (m : Z) : bool := Z.land m S_IFMT =? S_IFLNK.
Definition S_ISBLK  (m : Z) : bool := Z.land m S_IFMT =? S_IFBLK.
Definition S_ISCHR  (m : Z) : bool := Z.land m S_IFMT =? S_IFCHR.
Definition S_ISFIFO (m : Z) : bool := Z.land m S_IFMT =? S_IFIFO.
Definition S_ISSOCK (m : Z) : bool := Z.land m S_IFMT =? S_IFSOCK.

(** The fields of [struct stat] the program reads. *)
Record stat : Type := mkstat {
  st_mode    : Z;
  st_uid     : Z;
  st_gid     : Z;
  st_rdev    : Z;
  st_size    : Z;
  st_blksize : Z;
  st_atime   : Z;
  st_mtime   : Z
}.

Definition set_st_mode (s : stat) (m : Z) : stat :=
  {| st_mode := m; st_uid := st_uid s; st_gid := st_gid s;
     st_rdev := st_rdev s; st_size := st_size s;
     st_blksize := st_blksize s; st_atime := st_atime s;
     st_mtime := st_mtime s |}.

(** [m & ~bits] on the unsigned [mode_t]: for a mode in range the
    complement taken in Z gives the same bits. *)
Definition clear_bits (m bits : Z) : Z := Z.land m (Z.lnot bits).

(** ** The environment *)

(** One entry of the trace: a call, its arguments and what it returned.
    A [bool] outcome is [true] when the call succeeded (returned 0). *)
Inductive event : Type :=
| ELstat    (path : string) (r : option stat)
| EStat     (path : string) (r : option stat)
| EUtime    (path : string) (actime modtime : Z) (ok : bool)
| EChown    (path : string) (uid gid : Z) (ok : bool)
| ELchown   (path : string) (uid gid : Z) (ok : bool)
| EChmod    (path : string) (mode : Z) (ok : bool)
| EOpenRd   (path : string) (fd : option Z)
| EOpenWr   (path : string) (mode : Z) (fd : option Z)
| EMalloc   (size : Z) (ok : bool)
| ERead     (fd count : Z) (r : option (list byte))
| EWrite    (fd : Z) (data : list byte) (r : Z)
| EClose    (fd : Z)
| EReadlink (path : string) (bufsiz : Z) (r : option string)
| ESymlink  (target dest : string) (ok : bool)
| EMkdir    (path : string) (mode : Z) (ok : bool)
| EMkfifo   (path : string) (mode : Z) (ok : bool)
| EMknod    (path : string) (mode rdev : Z) (ok : bool)
| EOpendir  (path : string) (r : option (list string))
| EClosedir (path : string)
| EUmask    (mask old : Z).

(** The system calls and library functions of isnapshot.c over a world
    [W].  [os_opendir] returns the stream of names that the successive
    [readdir] calls yield, "." and ".." included, in the order of the
    file system.  [os_read] returns [None] for -1, [Some []] at end of
    file and the bytes read otherwise.  [os_strptime] is given the
    [struct tm] as it is before the call and returns it as the call
    leaves it, with the unparsed rest of the name.  [stack_tm d_name] is
    what the automatic variable [t] of [locate_previous] holds in the
    iteration that reads [d_name] (a directory stream yields each name
    once): the program never initialises it.  [dirname_static path]
    tells whether [dirname] returns a pointer to static storage for
    this path instead of a pointer into its argument.  [sizeof_ptr] is
    [sizeof(char* )] and [PATH_MAX] the constant of that name. *)
Class OS (W : Type) : Type := {
  tm : Type;
  os_lstat    : string -> W -> option stat;
  os_stat     : string -> W -> option stat;
  os_utime    : string -> Z -> Z -> W -> bool * W;
  os_chown    : string -> Z -> Z -> W -> bool * W;
  os_lchown   : string -> Z -> Z -> W -> bool * W;
  os_chmod    : string -> Z -> W -> bool * W;
  os_open_rd  : string -> W -> option Z * W;
  os_open_wr  : string -> Z -> W -> option Z * W;
  os_malloc   : Z -> W -> bool * W;
  os_read     : Z -> Z -> W -> option (list byte) * W;
  os_write    : Z -> list byte -> W -> Z * W;
  os_close    : Z -> W -> W;
  os_readlink : string -> Z -> W -> option string;
  os_symlink  : string -> string -> W -> bool * W;
  os_mkdir    : string -> Z -> W -> bool * W;
  os_mkfifo   : string -> Z -> W -> bool * W;
  os_mknod    : string -> Z -> Z -> W -> bool * W;
  os_opendir  : string -> W -> option (list string);
  os_umask    : Z -> W -> Z * W;
  dirname     : string -> string;
  dirname_static : string -> bool;
  fnmatch     : string -> string -> Z -> Z;
  os_strptime : string -> string -> tm -> option (tm * string);
  stack_tm    : string -> tm;
  mktime      : tm -> Z;
  sizeof_ptr  : Z;
  PATH_MAX    : Z
}.

(** [strptime(entry->d_name, date_format, &t)] as [locate_previous]
    calls it, on the [struct tm t] that it declares in the loop body and
    does not initialise: the call starts from what the stack holds, and
    a field that the format does not set keeps that content. *)
Definition strptime {W : Type} {os : OS W} (d_name format : string)
    : option (tm * string) :=
  os_strptime d_name format (stack_tm d_name).

(** The options set by [main] from the command line. *)
Record config : Type := mkconfig {
  force_copy      : bool;
  count_bytes     : bool;
  date_format     : string;
  exclude_pattern : option string
}.

Definition default_config : config :=
  {| force_copy := false; count_bytes := false;
     date_format := "%m-%d-%y-%H-%M-%S"; exclude_pattern := None |}.

(** ** Pure helpers *)

(** [ignore_dir]: the name is "." or "..". *)
Definition ignore_dir (name : string) : bool :=
  match name with
  | String "."%char EmptyString => true
  | String "."%char (String "."%char EmptyString) => true
  | _ => false
  end.

Fixpoint ends_with_slash (s : string) : bool :=
  match s with
  | EmptyString => false
  | String c EmptyString => Ascii.eqb c "/"%char
  | String _ rest => ends_with_slash rest
  end.

(** [while ( *filename == '/') filename++] *)
Fixpoint skip_slashes (s : string) : string :=
  match s with
  | String "/"%char rest => skip_slashes rest
  | _ => s
  end.

(** [join_path].  Both arguments are non-null at every call site and the
    allocation is taken to succeed.  For an empty [path] the C code reads
    the byte before the string; here an empty path gets the separator. *)
Definition join_path (path filename : string) : string :=
  (if ends_with_slash path then path else path +:+ "/") +:+
  skip_slashes filename.

(** ** Program state and monad *)

Section Program.

Context {W : Type} {os : OS W}.
Variable cfg : config.

(** The world, the two byte counters (of type [off_t], taken not to
    overflow) and the trace of calls so far. *)
Record state : Type := mkstate {
  world        : W;
  total_bytes  : Z;
  bytes_copied : Z;
  trace        : list event
}.

(** A computation returns [None] when it has no defined result: the
    model ran out of fuel, or the C code reads a variable that was never
    assigned or frees what [malloc] did not return. *)
Definition M (A : Type) : Type := state -> option (A * state).

Definition ret {A : Type} (a : A) : M A := fun s => Some (a, s).

Definition bind {A B : Type} (m : M A) (k : A -> M B) : M B :=
  fun s => match m s with
           | Some (a, s') => k a s'
           | None => None
           end.

Definition out_of_fuel {A : Type} : M A := fun _ => None.

(** Undefined behaviour of the C code. *)
Definition undefined {A : Type} : M A := fun _ => None.

Notation "x <- m ;; k" := (bind m (fun x => k))
  (at level 90, m at next level, right associativity).
Notation "m ;;; k" := (bind m (fun _ => k))
  (at level 90, right associativity).

(** A call that changes the world, and one that only reads it. *)
Definition call {A : Type} (f : W -> A * W) (ev : A -> event) : M A :=
  fun s => let '(a, w) := f (world s) in
           Some (a, {| world := w; total_bytes := total_bytes s;
                       bytes_copied := bytes_copied s;
                       trace := trace s ++ [ev a] |}).

Definition query {A : Type} (f : W -> A) (ev : A -> event) : M A :=
  call (fun w => (f w, w)) ev.

Definition add_total (n : Z) : M unit :=
  fun s => Some (tt, {| world := world s; total_bytes := total_bytes s + n;
                        bytes_copied := bytes_copied s; trace := trace s |}).

Definition add_copied (n : Z) : M unit :=
  fun s => Some (tt, {| world := world s; total_bytes := total_bytes s;
                        bytes_copied := bytes_copied s + n;
                        trace := trace s |}).

Definition sys_lstat p := query (os_lstat p) (ELstat p).
Definition sys_stat p := query (os_stat p) (EStat p).
Definition sys_utime p a m := call (os_utime p a m) (EUtime p a m).
Definition sys_chown p u g := call (os_chown p u g) (EChown p u g).
Definition sys_lchown p u g := call (os_lchown p u g) (ELchown p u g).
Definition sys_chmod p m := call (os_chmod p m) (EChmod p m).
Definition sys_open_rd p := call (os_open_rd p) (EOpenRd p).
Definition sys_open_wr p m := call (os_open_wr p m) (EOpenWr p m).
Definition sys_malloc n := call (os_malloc n) (EMalloc n).
Definition sys_read fd n := call (os_read fd n) (ERead fd n).
Definition sys_write fd d := call (os_write fd d) (EWrite fd d).
Definition sys_close fd :=
  call (fun w => (tt, os_close fd w)) (fun _ => EClose fd).
Definition sys_readlink p n := query (os_readlink p n) (EReadlink p n).
Definition sys_symlink t d := call (os_symlink t d) (ESymlink t d).
Definition sys_mkdir p m := call (os_mkdir p m) (EMkdir p m).
Definition sys_mkfifo p m := call (os_mkfifo p m) (EMkfifo p m).
Definition sys_mknod p m r := call (os_mknod p m r) (EMknod p m r).
Definition sys_opendir p := query (os_opendir p) (EOpendir p).
Definition sys_closedir p :=
  query (fun _ => tt) (fun _ => EClosedir p).
Definition sys_umask m := call (os_umask m) (EUmask m).

(** ** rmkdir *)

(** Recursive [mkdir]: 0 on success, -1 on failure.  The recursion on
    [dirname] ends when [stat] of a parent succeeds.  Every path through
    the function ends at the label [done] with [free(parent)], where
    [parent] is what [dirname] returned: a pointer into the copy that
    [strdup] made, or static storage, which must not be freed. *)
Fixpoint rmkdir (fuel : nat) (path : string) (mode : Z) : M Z :=
  match fuel with
  | O => out_of_fuel
  | S n =>
    let parent := dirname path in
    ps <- sys_stat parent ;;
    pr <- match ps with
          | None => rmkdir n parent mode
          | Some _ => ret 0
          end ;;
    r <- (if pr <? 0 then ret (-1)
          else
            s <- sys_stat path ;;
            match s with
            | Some sb =>
              if S_ISDIR (st_mode sb) then ret 0
              else ok <- sys_mkdir path mode ;; ret (if ok then 0 else -1)
            | None => ok <- sys_mkdir path mode ;; ret (if ok then 0 else -1)
            end) ;;
    if dirname_static path then undefined else ret r
  end.

(** ** locate_previous *)

(** The body of the [readdir] loop: [result] and [latest] are the
    variables of those names. *)
Fixpoint locate_loop (root : string) (entries : list string)
    (result : option string) (latest : Z) : option string * Z :=
  match entries with
  | [] => (result, latest)
  | d_name :: rest =>
    if ignore_dir d_name then locate_loop root rest result latest
    else
      match strptime d_name (date_format cfg) with
      | None => locate_loop root rest result latest
      | Some (t, res) =>
        match res with
        | String _ _ => locate_loop root rest result latest
        | EmptyString =>
          let current := mktime t in
          if current >? latest
          then locate_loop root rest (Some (join_path root d_name)) current
          else locate_loop root rest result latest
        end
      end
  end.

Definition locate_previous (root : string) : M (option string) :=
  dir <- sys_opendir root ;;
  match dir with
  | None => ret None
  | Some entries =>
    let result := fst (locate_loop root entries None 0) in
    sys_closedir root ;;; ret result
  end.

(** ** copy_time *)

(** [copy_time] writes through its [struct stat* ] argument, so the
    structure as it is left is returned with the result. *)
Definition copy_time (file : string) (s : stat) : M (bool * stat) :=
  let result := true in
  t <- sys_utime file (st_atime s) (st_mtime s) ;;
  let result := if t then result else false in
  o <- sys_chown file (st_uid s) (st_gid s) ;;
  let s := if o then s
           else set_st_mode s (clear_bits (st_mode s) (Z.lor S_ISUID S_ISGID)) in
  let result := if o then result else false in
  c <- sys_chmod file (st_mode s) ;;
  let result := if c then result else false in
  ret (result, s).

(** ** copy_file *)

(** The [while] loop of [copy_file]; [true] unless a write was short.
    A read that fails ends the loop like the end of the file does. *)
Fixpoint copy_loop (fuel : nat) (fin fout : Z) : M bool :=
  match fuel with
  | O => out_of_fuel
  | S n =>
    r <- sys_read fin sizeof_ptr ;;
    match r with
    | Some (b :: bs) =>
      let data := b :: bs in
      w <- sys_write fout data ;;
      if w =? Z.of_nat (length data) then copy_loop n fin fout
      else ret false
    | _ => ret true
    end
  end.

(** When an [open] fails the C code jumps to [done], past the
    initialisation of [out] or of [buffer], and there it calls
    [close(in)], [close(out)] and [free(buffer)]: after a failed [open]
    of the source it reads [out], which was never assigned, and after a
    failed [open] of the destination it frees [buffer], which was never
    assigned.  Neither run has a defined result.  When [malloc] fails,
    [buffer] is null and [free] does nothing. *)
Definition copy_file (fuel : nat) (source dest : string) (s : stat) : M bool :=
  i <- sys_open_rd source ;;
  match i with
  | None => sys_close (-1) ;;; undefined
  | Some fin =>
    o <- sys_open_wr dest (st_mode s) ;;
    match o with
    | None => sys_close fin ;;; sys_close (-1) ;;; undefined
    | Some fout =>
      buffer <- sys_malloc (st_blksize s) ;;
      result <- (if buffer then copy_loop fuel fin fout else ret false) ;;
      sys_close fin ;;; sys_close fout ;;; ret result
    end
  end.

(** ** symlink_file *)

Definition symlink_file (source dest : string) : M bool :=
  s <- sys_lstat source ;;
  match s with
  | None => ret false
  | Some sb =>
    if S_ISLNK (st_mode sb) then
      r <- sys_readlink source PATH_MAX ;;
      match r with
      | None => ret false
      | Some buffer => sys_symlink buffer dest
      end
    else sys_symlink source dest
  end.

(** ** process_file *)

(** [exclude_pattern && !fnmatch(exclude_pattern,source,0)] *)
Definition excluded (source : string) : bool :=
  match exclude_pattern cfg with
  | Some pattern => fnmatch pattern source 0 =? 0
  | None => false
  end.

(** The loop [while ((entry = readdir(dir)) && result)] over the names
    that [readdir] still has to yield; [rec] is the recursive call of
    [process_file] on a child. *)
Fixpoint walk (rec : string -> M bool) (source : string)
    (entries : list string) (result : bool) : M bool :=
  match entries with
  | [] => ret result
  | d_name :: rest =>
    if result then
      if ignore_dir d_name then walk rec source rest result
      else
        r <- rec (join_path source d_name) ;;
        walk rec source rest r
    else ret result
  end.

(** The branch [S_ISDIR].  The assignment [source_stat.st_mode |= S_IRWXU]
    updates the structure that the later [chmod] and [copy_time] read. *)
Definition process_dir (fuel : nat) (rec : string -> M bool)
    (source dest : string) (source_stat : stat) : M bool :=
  saved_umask <- sys_umask 0 ;;
  let source_stat :=
    set_st_mode source_stat (Z.lor (st_mode source_stat) S_IRWXU) in
  let mode := st_mode source_stat in
  r <- rmkdir fuel dest mode ;;
  if r <? 0 then sys_umask saved_umask ;;; ret false
  else
    sys_umask saved_umask ;;;
    dir <- sys_opendir source ;;
    result <- match dir with
              | None => ret false
              | Some entries =>
                r <- walk rec source entries true ;;
                sys_closedir source ;;; ret r
              end ;;
    if result then
      c <- sys_chmod dest (clear_bits (st_mode source_stat) saved_umask) ;;
      if c then t <- copy_time dest source_stat ;; ret (fst t)
      else ret false
    else ret false.

(** [copy_file(...) && copy_time(...)], then the count of copied bytes. *)
Definition fresh_copy (fuel : nat) (source dest : string)
    (source_stat : stat) : M bool :=
  c <- copy_file fuel source dest source_stat ;;
  result <- (if c then t <- copy_time dest source_stat ;; ret (fst t)
             else ret false) ;;
  (if count_bytes cfg then add_copied (st_size source_stat) else ret tt) ;;;
  ret result.

(** The branch [S_ISREG]. *)
Definition process_reg (fuel : nat) (source dest : string)
    (prev_dest : option string) (source_stat : stat) : M bool :=
  (if count_bytes cfg then add_total (st_size source_stat) else ret tt) ;;;
  match prev_dest with
  | None => fresh_copy fuel source dest source_stat
  | Some pd =>
    if force_copy cfg then fresh_copy fuel source dest source_stat
    else
      ps <- sys_stat pd ;;
      match ps with
      | None => fresh_copy fuel source dest source_stat
      | Some prev_stat =>
        if negb (st_mtime source_stat =? st_mtime prev_stat)
        then fresh_copy fuel source dest source_stat
        else symlink_file pd dest
      end
  end.

(** The branch of block and character devices, sockets, fifos and
    symbolic links. *)
Definition process_special (source dest : string) (source_stat : stat)
    : M bool :=
  if S_ISFIFO (st_mode source_stat) then
    sys_mkfifo dest (st_mode source_stat)
  else if S_ISLNK (st_mode source_stat) then
    r <- sys_readlink source PATH_MAX ;;
    match r with
    | None => ret false
    | Some buffer =>
      l <- sys_symlink buffer dest ;;
      if l then sys_lchown dest (st_uid source_stat) (st_gid source_stat)
      else ret false
    end
  else sys_mknod dest (st_mode source_stat) (st_rdev source_stat).

Fixpoint process_file (fuel : nat) (source root : string)
    (prev_root : option string) : M bool :=
  match fuel with
  | O => out_of_fuel
  | S n =>
    st <- sys_lstat source ;;
    match st with
    | None => ret false
    | Some source_stat =>
      if excluded source then ret true
      else
        let dest := join_path root source in
        let prev_dest :=
          match prev_root with
          | Some p => Some (join_path p source)
          | None => None
          end in
        let m := st_mode source_stat in
        if S_ISDIR m then
          process_dir n (fun child => process_file n child root prev_root)
                      source dest source_stat
        else if S_ISREG m then
          process_reg n source dest prev_dest source_stat
        else if S_ISBLK m || S_ISCHR m || S_ISSOCK m || S_ISFIFO m
                || S_ISLNK m then
          process_special source dest source_stat
        else ret false
    end
  end.

End Program.

Arguments state W : clear implicits.
Arguments M W A : clear implicits.

(** ** main *)

Section Main.

Context {W : Type} {os : OS W}.
Variable cfg : config.

(** The loop of [main] over the sources: the result becomes 1 at the
    first source that fails, and the loop is left. *)
Fixpoint each_source (fuel : nat) (sources : list string) (dest : string)
    (previous : option string) : M W Z :=
  match sources with
  | [] => ret 0
  | source :: rest =>
    bind (process_file cfg fuel source dest previous) (fun ok =>
    if ok then each_source fuel rest dest previous else ret 1)
  end.

(** [main] from the test on the number of arguments on.  [args] are the
    arguments that follow the options ([argv[optind]] to [argv[argc-1]]):
    the sources, then the backup root.  [stamp] is the string that
    [current_time(date_format)] returns.  The report of the byte counts
    is a message and is left out. *)
Definition main (fuel : nat) (stamp : string) (args : list string)
    : M W Z :=
  if (length args <? 2)%nat then ret 1
  else
    let root := List.last args "" in
    bind (locate_previous cfg root) (fun previous =>
    let dest := join_path root stamp in
    bind (sys_stat dest) (fun sb =>
    match sb with
    | Some _ => ret 1
    | None =>
      bind (rmkdir fuel dest 0x1ED) (fun r =>
      if r <? 0 then ret 1
      else each_source fuel (removelast args) dest previous)
    end)).

End Main.

(** ** An executable file system

    [SimFS] implements the interface on a finite map from path names to
    inodes, so that the program can be run on concrete trees.  Paths and
    link targets are keys of the map as they are written (as for
    absolute, normalised paths); a directory lists the keys whose
    [dirname] it is.  Ownership follows the POSIX rule: only the
    superuser gives a file away, and only the owner or the superuser
    changes its times or its mode.

    The file system checks no read, write or search permission: it
    answers as Linux answers a process that the permission bits do not
    stop (one that holds CAP_DAC_OVERRIDE).  It does not change the
    times of a directory when an entry is made in it, a new entry gets
    the group of the process whatever its directory, a read of an open
    regular file never fails and a write is never short.  The
    statements about [rmkdir], [copy_file] and [main] on this file
    system are therefore about the runs that returned the result they
    name, and compare inodes up to their times. *)
Module SimFS.

Record inode : Type := mkinode {
  i_mode   : Z;
  i_uid    : Z;
  i_gid    : Z;
  i_rdev   : Z;
  i_atime  : Z;
  i_mtime  : Z;
  i_data   : list byte;
  i_target : string
}.

(** An open descriptor: the file, the offset and whether it was opened
    for writing. *)
Record filedesc : Type := mkfd {
  fd_path   : string;
  fd_offset : nat;
  fd_write  : bool
}.

Record simworld : Type := mkworld {
  files   : gmap string inode;
  fds     : gmap Z filedesc;
  next_fd : Z;
  mask    : Z;
  euid    : Z;
  egid    : Z;
  clock   : Z
}.

Definition with_files (w : simworld) (f : gmap string inode) : simworld :=
  {| files := f; fds := fds w; next_fd := next_fd w; mask := mask w;
     euid := euid w; egid := egid w; clock := clock w |}.

Definition with_fds (w : simworld) (d : gmap Z filedesc) (n : Z) : simworld :=
  {| files := files w; fds := d; next_fd := n; mask := mask w;
     euid := euid w; egid := egid w; clock := clock w |}.

Definition with_mask (w : simworld) (m : Z) : simworld :=
  {| files := files w; fds := fds w; next_fd := next_fd w; mask := m;
     euid := euid w; egid := egid w; clock := clock w |}.

Definition set_times (i : inode) (a m : Z) : inode :=
  {| i_mode := i_mode i; i_uid := i_uid i; i_gid := i_gid i;
     i_rdev := i_rdev i; i_atime := a; i_mtime := m;
     i_data := i_data i; i_target := i_target i |}.

Definition set_owner (i : inode) (u g : Z) : inode :=
  {| i_mode := i_mode i; i_uid := u; i_gid := g;
     i_rdev := i_rdev i; i_atime := i_atime i; i_mtime := i_mtime i;
     i_data := i_data i; i_target := i_target i |}.

Definition set_mode (i : inode) (m : Z) : inode :=
  {| i_mode := m; i_uid := i_uid i; i_gid := i_gid i;
     i_rdev := i_rdev i; i_atime := i_atime i; i_mtime := i_mtime i;
     i_data := i_data i; i_target := i_target i |}.

Definition set_data (i : inode) (d : list byte) (m : Z) : inode :=
  {| i_mode := i_mode i; i_uid := i_uid i; i_gid := i_gid i;
     i_rdev := i_rdev i; i_atime := i_atime i; i_mtime := m;
     i_data := d; i_target := i_target i |}.

Definition BLKSIZE : Z := 4096.
Definition ALLPERMS : Z := 0xFFF.
Definition SYMLOOP_MAX : nat := 40.

Definition stat_of (i : inode) : stat :=
  {| st_mode := i_mode i; st_uid := i_uid i; st_gid := i_gid i;
     st_rdev := i_rdev i;
     st_size := if S_ISLNK (i_mode i)
                then Z.of_nat (String.length (i_target i))
                else Z.of_nat (length (i_data i));
     st_blksize := BLKSIZE;
     st_atime := i_atime i; st_mtime := i_mtime i |}.

(** Follow symbolic links, at most [n] of them. *)
Fixpoint resolve (n : nat) (fs : gmap string inode) (p : string)
    : option string :=
  match fs !! p with
  | None => None
  | Some i =>
    if S_ISLNK (i_mode i) then
      match n with
      | O => None
      | S n' => resolve n' fs (i_target i)
      end
    else Some p
  end.

Definition lookup_follow (fs : gmap string inode) (p : string)
    : option (string * inode) :=
  match resolve SYMLOOP_MAX fs p with
  | Some q => match fs !! q with
              | Some i => Some (q, i)
              | None => None
              end
  | None => None
  end.

Definition is_dir (fs : gmap string inode) (p : string) : bool :=
  match lookup_follow fs p with
  | Some (_, i) => S_ISDIR (i_mode i)
  | None => false
  end.

(** *** libgen.h *)

Fixpoint drop_slashes (l : list ascii) : list ascii :=
  match l with
  | "/"%char :: l' => drop_slashes l'
  | _ => l
  end.

Fixpoint drop_to_slash (l : list ascii) : list ascii :=
  match l with
  | [] => []
  | "/"%char :: _ => l
  | _ :: l' => drop_to_slash l'
  end.

Fixpoint take_to_slash (l : list ascii) : list ascii :=
  match l with
  | [] => []
  | "/"%char :: _ => []
  | c :: l' => c :: take_to_slash l'
  end.

(** [dirname], on the reversed path. *)
Definition sim_dirname (p : string) : string :=
  let r := rev (list_ascii_of_string p) in
  match r with
  | [] => "."
  | _ =>
    match drop_slashes r with
    | [] => "/"
    | r1 =>
      match drop_to_slash r1 with
      | [] => "."
      | r2 =>
        match drop_slashes r2 with
        | [] => "/"
        | r3 => string_of_list_ascii (rev r3)
        end
      end
    end
  end.

(** glibc's [dirname] returns its argument, cut in place, when a slash
    is left after the trailing ones are dropped, and the static string
    "." otherwise: these are the paths for which [sim_dirname] answers
    "." . *)
Definition sim_dirname_static (p : string) : bool :=
  let r := rev (list_ascii_of_string p) in
  match r with
  | [] => true
  | _ =>
    match drop_slashes r with
    | [] => false
    | r1 =>
      match drop_to_slash r1 with
      | [] => true
      | _ => false
      end
    end
  end.

Definition sim_basename (p : string) : string :=
  let r := drop_slashes (rev (list_ascii_of_string p)) in
  string_of_list_ascii (rev (take_to_slash r)).

(** *** stat, directories *)

Definition sim_lstat (p : string) (w : simworld) : option stat :=
  stat_of <$> files w !! p.

Definition sim_stat (p : string) (w : simworld) : option stat :=
  (fun qi => stat_of (snd qi)) <$> lookup_follow (files w) p.

Definition children (fs : gmap string inode) (dir : string) : list string :=
  map sim_basename
    (filter (fun k => bool_decide (k <> dir /\ sim_dirname k = dir))
            (map fst (map_to_list fs))).

Definition sim_opendir (p : string) (w : simworld) : option (list string) :=
  match lookup_follow (files w) p with
  | Some (q, i) =>
    if S_ISDIR (i_mode i) then Some ("." :: ".." :: children (files w) q)
    else None
  | None => None
  end.

(** A new name can be created where nothing exists and the parent is a
    directory. *)
Definition can_create (fs : gmap string inode) (p : string) : bool :=
  bool_decide (fs !! p = None) && is_dir fs (sim_dirname p).

Definition new_inode (w : simworld) (type perm rdev : Z) (target : string)
    : inode :=
  {| i_mode := Z.lor type (Z.land (clear_bits perm (mask w)) ALLPERMS);
     i_uid := euid w; i_gid := egid w; i_rdev := rdev;
     i_atime := clock w; i_mtime := clock w;
     i_data := []; i_target := target |}.

Definition create (w : simworld) (p : string) (i : inode) : bool * simworld :=
  if can_create (files w) p
  then (true, with_files w (<[p := i]> (files w)))
  else (false, w).

(** Of the mode given to [mkdir] Linux keeps the permission bits and
    the sticky bit (01777), not the set-user-id and set-group-id bits. *)
Definition sim_mkdir (p : string) (mode : Z) (w : simworld) :=
  create w p (new_inode w S_IFDIR (Z.land mode 0x3FF) 0 "").

Definition sim_mkfifo (p : string) (mode : Z) (w : simworld) :=
  create w p (new_inode w S_IFIFO mode 0 "").

(** The link itself has all permission bits, whatever the mask; a
    target of [PATH_MAX] bytes or more is refused. *)
Definition sim_symlink (target p : string) (w : simworld) :=
  if (String.length target <? 4096)%nat then
    create w p
      {| i_mode := Z.lor S_IFLNK 0x1FF; i_uid := euid w; i_gid := egid w;
         i_rdev := 0; i_atime := clock w; i_mtime := clock w;
         i_data := []; i_target := target |}
  else (false, w).

(** Device nodes need the superuser; a directory or a link is not made
    by [mknod]. *)
Definition sim_mknod (p : string) (mode rdev : Z) (w : simworld) :=
  let type := Z.land mode S_IFMT in
  if (type =? S_IFDIR) || (type =? S_IFLNK) then (false, w)
  else if ((type =? S_IFCHR) || (type =? S_IFBLK)) && negb (euid w =? 0)
  then (false, w)
  else create w p (new_inode w (if type =? 0 then S_IFREG else type)
                             mode rdev "").

Definition sim_readlink (p : string) (bufsiz : Z) (w : simworld)
    : option string :=
  match files w !! p with
  | Some i =>
    if S_ISLNK (i_mode i)
    then Some (substring 0 (Z.to_nat bufsiz) (i_target i))
    else None
  | None => None
  end.

(** *** Ownership, times and mode *)

Definition owner_or_root (w : simworld) (i : inode) : bool :=
  (euid w =? 0) || (i_uid i =? euid w).

Definition may_chown (w : simworld) (i : inode) (u g : Z) : bool :=
  (euid w =? 0) ||
  ((i_uid i =? euid w) && (u =? i_uid i) &&
   ((g =? i_gid i) || (g =? egid w))).

Definition update (w : simworld) (q : string) (i : inode) : simworld :=
  with_files w (<[q := i]> (files w)).

Definition sim_utime (p : string) (a m : Z) (w : simworld) : bool * simworld :=
  match lookup_follow (files w) p with
  | Some (q, i) =>
    if owner_or_root w i then (true, update w q (set_times i a m))
    else (false, w)
  | None => (false, w)
  end.

Definition sim_chown (p : string) (u g : Z) (w : simworld) : bool * simworld :=
  match lookup_follow (files w) p with
  | Some (q, i) =>
    if may_chown w i u g then (true, update w q (set_owner i u g))
    else (false, w)
  | None => (false, w)
  end.

Definition sim_lchown (p : string) (u g : Z) (w : simworld) : bool * simworld :=
  match files w !! p with
  | Some i =>
    if may_chown w i u g then (true, update w p (set_owner i u g))
    else (false, w)
  | None => (false, w)
  end.

Definition sim_chmod (p : string) (mode : Z) (w : simworld) : bool * simworld :=
  match lookup_follow (files w) p with
  | Some (q, i) =>
    if owner_or_root w i
    then (true, update w q
                  (set_mode i (Z.lor (Z.land (i_mode i) S_IFMT)
                                     (Z.land mode ALLPERMS))))
    else (false, w)
  | None => (false, w)
  end.

Definition sim_umask (m : Z) (w : simworld) : Z * simworld :=
  (mask w, with_mask w (Z.land m 0x1FF)).

(** *** Descriptors *)

Definition open_at (w : simworld) (q : string) (wr : bool)
    : option Z * simworld :=
  (Some (next_fd w),
   with_fds w (<[next_fd w := mkfd q 0 wr]> (fds w)) (next_fd w + 1)).

(** [open(source, O_RDONLY)]: a directory opens too; it is [read] that
    fails on it. *)
Definition sim_open_rd (p : string) (w : simworld) : option Z * simworld :=
  match lookup_follow (files w) p with
  | Some (q, i) => open_at w q false
  | None => (None, w)
  end.

(** [open(dest, O_WRONLY|O_CREAT, mode)] *)
Definition sim_open_wr (p : string) (mode : Z) (w : simworld)
    : option Z * simworld :=
  match lookup_follow (files w) p with
  | Some (q, i) =>
    if S_ISDIR (i_mode i) then (None, w) else open_at w q true
  | None =>
    if can_create (files w) p
    then open_at (update w p (new_inode w S_IFREG mode 0 "")) p true
    else (None, w)
  end.

Definition sim_read (fd count : Z) (w : simworld)
    : option (list byte) * simworld :=
  match fds w !! fd with
  | Some d =>
    match files w !! fd_path d with
    | Some i =>
      if fd_write d || S_ISDIR (i_mode i) then (None, w)
      else
        let data := take (Z.to_nat count) (drop (fd_offset d) (i_data i)) in
        (Some data,
         with_fds w (<[fd := mkfd (fd_path d)
                               (fd_offset d + length data)%nat false]> (fds w))
                  (next_fd w))
    | None => (None, w)
    end
  | None => (None, w)
  end.

Definition sim_write (fd : Z) (data : list byte) (w : simworld)
    : Z * simworld :=
  match fds w !! fd with
  | Some d =>
    match files w !! fd_path d with
    | Some i =>
      if fd_write d then
        let old := i_data i in
        let new := take (fd_offset d) old ++ data ++
                   drop (fd_offset d + length data)%nat old in
        (Z.of_nat (length data),
         with_fds (update w (fd_path d) (set_data i new (clock w)))
                  (<[fd := mkfd (fd_path d)
                               (fd_offset d + length data)%nat true]> (fds w))
                  (next_fd w))
      else (-1, w)
    | None => (-1, w)
    end
  | None => (-1, w)
  end.

Definition sim_close (fd : Z) (w : simworld) : simworld :=
  with_fds w (delete fd (fds w)) (next_fd w).

(** *** fnmatch.h: literals, [?] and [*] (flags 0) *)

Fixpoint glob (pat s : list ascii) : bool :=
  match pat with
  | [] => match s with [] => true | _ => false end
  | "*"%char :: pat' =>
    (fix star (s : list ascii) : bool :=
       glob pat' s || match s with
                      | [] => false
                      | _ :: s' => star s'
                      end) s
  | "?"%char :: pat' =>
    match s with
    | [] => false
    | _ :: s' => glob pat' s'
    end
  | c :: pat' =>
    match s with
    | [] => false
    | d :: s' => Ascii.eqb c d && glob pat' s'
    end
  end.

Definition sim_fnmatch (pattern s : string) (flags : Z) : Z :=
  if glob (list_ascii_of_string pattern) (list_ascii_of_string s)
  then 0 else 1.

(** *** time.h: the numeric conversions of the default format, in UTC *)

Record sim_tm : Type := mktm {
  tm_sec   : Z;
  tm_min   : Z;
  tm_hour  : Z;
  tm_mday  : Z;
  tm_mon   : Z;
  tm_year  : Z;
  tm_isdst : Z
}.

Definition digit (c : ascii) : option Z :=
  let n := Z.of_nat (nat_of_ascii c) in
  if (48 <=? n) && (n <=? 57) then Some (n - 48) else None.

(** One or two decimal digits. *)
Definition read_num (s : list ascii) : option (Z * list ascii) :=
  match s with
  | c :: s' =>
    match digit c with
    | Some a =>
      match s' with
      | c' :: s'' =>
        match digit c' with
        | Some b => Some (10 * a + b, s'')
        | None => Some (a, s')
        end
      | [] => Some (a, s')
      end
    | None => None
    end
  | [] => None
  end.

Definition in_range (lo n hi : Z) : bool := (lo <=? n) && (n <=? hi).

Definition set_field (c : ascii) (n : Z) (t : sim_tm) : option sim_tm :=
  match c with
  | "m"%char => if in_range 1 n 12 then
      Some (mktm (tm_sec t) (tm_min t) (tm_hour t) (tm_mday t) (n - 1)
                 (tm_year t) (tm_isdst t)) else None
  | "d"%char => if in_range 1 n 31 then
      Some (mktm (tm_sec t) (tm_min t) (tm_hour t) n (tm_mon t)
                 (tm_year t) (tm_isdst t)) else None
  | "y"%char => if in_range 0 n 99 then
      Some (mktm (tm_sec t) (tm_min t) (tm_hour t) (tm_mday t) (tm_mon t)
                 (if n <? 69 then n + 100 else n) (tm_isdst t)) else None
  | "H"%char => if in_range 0 n 23 then
      Some (mktm (tm_sec t) (tm_min t) n (tm_mday t) (tm_mon t)
                 (tm_year t) (tm_isdst t)) else None
  | "M"%char => if in_range 0 n 59 then
      Some (mktm (tm_sec t) n (tm_hour t) (tm_mday t) (tm_mon t)
                 (tm_year t) (tm_isdst t)) else None
  | "S"%char => if in_range 0 n 61 then
      Some (mktm n (tm_min t) (tm_hour t) (tm_mday t) (tm_mon t)
                 (tm_year t) (tm_isdst t)) else None
  | _ => None
  end.

Fixpoint parse_time (fmt s : list ascii) (t : sim_tm)
    : option (sim_tm * list ascii) :=
  match fmt with
  | [] => Some (t, s)
  | "%"%char :: c :: fmt' =>
    match read_num s with
    | Some (n, s') =>
      match set_field c n t with
      | Some t' => parse_time fmt' s' t'
      | None => None
      end
    | None => None
    end
  | c :: fmt' =>
    match s with
    | d :: s' => if Ascii.eqb c d then parse_time fmt' s' t else None
    | [] => None
    end
  end.

(** [strptime] writes the fields that the format names into the
    structure it is given and leaves the others, [tm_isdst] among them,
    as they are. *)
Definition sim_strptime (s format : string) (t0 : sim_tm)
    : option (sim_tm * string) :=
  match parse_time (list_ascii_of_string format) (list_ascii_of_string s)
                   t0 with
  | Some (t, rest) => Some (t, string_of_list_ascii rest)
  | None => None
  end.

(** Days since 1970-01-01 of a civil date. *)
Definition days_from_civil (y m d : Z) : Z :=
  let y' := if m <=? 2 then y - 1 else y in
  let era := y' / 400 in
  let yoe := y' - era * 400 in
  let doy := (153 * (if m >? 2 then m - 3 else m + 9) + 2) / 5 + d - 1 in
  let doe := yoe * 365 + yoe / 4 - yoe / 100 + doy in
  era * 146097 + doe - 719468.

(** [mktime] reads [tm_isdst]: when it is positive the time is taken to
    be given in daylight saving time, and in a zone that has none glibc
    takes an hour off. *)
Definition sim_mktime (t : sim_tm) : Z :=
  days_from_civil (tm_year t + 1900) (tm_mon t + 1) (tm_mday t) * 86400
  + tm_hour t * 3600 + tm_min t * 60 + tm_sec t
  - (if 0 <? tm_isdst t then 3600 else 0).

(** A stack that holds zeros wherever [t] is placed. *)
Definition clear_stack (d_name : string) : sim_tm := mktm 0 0 0 0 0 0 0.

(** The environment with the stack contents [stack]. *)
Definition sim_os_on (stack : string -> sim_tm) : OS simworld := {|
  tm := sim_tm;
  os_lstat := sim_lstat;
  os_stat := sim_stat;
  os_utime := sim_utime;
  os_chown := sim_chown;
  os_lchown := sim_lchown;
  os_chmod := sim_chmod;
  os_open_rd := sim_open_rd;
  os_open_wr := sim_open_wr;
  os_malloc := fun _ w => (true, w);
  os_read := sim_read;
  os_write := sim_write;
  os_close := sim_close;
  os_readlink := sim_readlink;
  os_symlink := sim_symlink;
  os_mkdir := sim_mkdir;
  os_mkfifo := sim_mkfifo;
  os_mknod := sim_mknod;
  os_opendir := sim_opendir;
  os_umask := sim_umask;
  dirname := sim_dirname;
  dirname_static := sim_dirname_static;
  fnmatch := sim_fnmatch;
  os_strptime := sim_strptime;
  stack_tm := stack;
  mktime := sim_mktime;
  sizeof_ptr := 8;
  PATH_MAX := 4096
|}.

#[export] Instance sim_os : OS simworld := sim_os_on clear_stack.

(** The state in which a run starts. *)
Definition init (w : simworld) : state simworld :=
  {| world := w; total_bytes := 0; bytes_copied := 0; trace := [] |}.

(** *** What a run may change

    [same_kind]: the type bits and the link target of an inode are kept.
    [ext fs fs']: every name of [fs] is in [fs'] with an inode of the same
    kind, and no new name is a symbolic link.  [one_level fs p]: if [p]
    is a symbolic link, its target is short enough for [readlink], exists
    and is not a symbolic link.  [safe_step]: names and kinds are kept and
    every name that was at most one level deep still is. *)

Definition same_kind (i i' : inode) : Prop :=
  Z.land (i_mode i') S_IFMT = Z.land (i_mode i) S_IFMT /\
  i_target i' = i_target i.

Definition ext (fs fs' : gmap string inode) : Prop :=
  (forall p i, fs !! p = Some i ->
               exists i', fs' !! p = Some i' /\ same_kind i i') /\
  (forall p i', fs !! p = None -> fs' !! p = Some i' ->
                S_ISLNK (i_mode i') = false).

Definition one_level (fs : gmap string inode) (p : string) : Prop :=
  forall i, fs !! p = Some i -> S_ISLNK (i_mode i) = true ->
    (String.length (i_target i) < 4096)%nat /\
    exists j, fs !! i_target i = Some j /\ S_ISLNK (i_mode j) = false.

Definition keeps (fs fs' : gmap string inode) : Prop :=
  forall p i, fs !! p = Some i ->
              exists i', fs' !! p = Some i' /\ same_kind i i'.

Definition safe_step (fs fs' : gmap string inode) : Prop :=
  keeps fs fs' /\ forall q, one_level fs q -> one_level fs' q.

Definition sext (s s' : state simworld) : Prop :=
  ext (files (world s)) (files (world s')).

Definition skeeps (s s' : state simworld) : Prop :=
  keeps (files (world s)) (files (world s')).

(** The number of symbolic links met from [p], at most [n]. *)
Fixpoint link_depth (n : nat) (fs : gmap string inode) (p : string) : nat :=
  match n with
  | O => O
  | S n' =>
    match fs !! p with
    | Some i =>
      if S_ISLNK (i_mode i) then S (link_depth n' fs (i_target i)) else O
    | None => O
    end
  end.

(** Consecutive runs on one source: each snapshot root of [roots] in
    turn, with the root of the run before as the previous snapshot (the
    one [main] gets from [locate_previous] when the roots are named in
    the order of their dates). *)
Fixpoint generations (cfg : config) (fuel : nat) (source : string)
    (prev : option string) (roots : list string) (st : state simworld)
    : option (state simworld) :=
  match roots with
  | [] => Some st
  | root :: rest =>
    match process_file cfg fuel source root prev st with
    | Some (_, st') => generations cfg fuel source (Some root) rest st'
    | None => None
    end
  end.

(** *** A small tree

    The user 1000 runs the program with mask 022.  [/ro] is a directory
    without write permission, [/lnk] a link that belongs to the
    superuser and [/mylnk] one that belongs to the user; in [/mix] the
    file [a] belongs to the superuser and [b] to the user.  [/backup]
    holds three empty snapshot roots; [/old] holds one snapshot named for
    the epoch and [/snaps] a later one as well, next to a directory that
    is not a snapshot. *)

Definition dir_inode (owner perm : Z) : inode :=
  mkinode (Z.lor S_IFDIR perm) owner owner 0 50 50 [] "".

Definition reg_inode (owner perm mtime : Z) (data : list byte) : inode :=
  mkinode (Z.lor S_IFREG perm) owner owner 0 mtime mtime data "".

Definition lnk_inode (owner : Z) (target : string) : inode :=
  mkinode (Z.lor S_IFLNK 0x1FF) owner owner 0 60 60 [] target.

Definition demo : simworld :=
  {| files := list_to_map
       [("/", dir_inode 0 0x1ED);
        ("/a.txt", reg_inode 1000 0x1A4 100 ["X"%byte]);
        ("/ro", dir_inode 1000 0x16D);
        ("/lnk", lnk_inode 0 "a.txt");
        ("/mylnk", lnk_inode 1000 "a.txt");
        ("/mix", dir_inode 1000 0x1ED);
        ("/mix/a", reg_inode 0 0x1A4 100 ["X"%byte]);
        ("/mix/b", reg_inode 1000 0x1A4 100 ["Y"%byte]);
        ("/backup", dir_inode 1000 0x1ED);
        ("/backup/T1", dir_inode 1000 0x1ED);
        ("/backup/T2", dir_inode 1000 0x1ED);
        ("/backup/T3", dir_inode 1000 0x1ED);
        ("/old", dir_inode 1000 0x1ED);
        ("/old/01-01-70-00-00-00", dir_inode 1000 0x1ED);
        ("/snaps", dir_inode 1000 0x1ED);
        ("/snaps/01-01-70-00-00-00", dir_inode 1000 0x1ED);
        ("/snaps/11-02-26-13-42-05", dir_inode 1000 0x1ED);
        ("/snaps/notes", dir_inode 1000 0x1ED)];
     fds := ∅; next_fd := 3; mask := 0x12;
     euid := 1000; egid := 1000; clock := 1000 |}.

(** What a run returned, the calls it made and the counters at its end. *)
Definition outcome {A : Type} (r : option (A * state simworld))
    : option (A * list event * Z * Z) :=
  match r with
  | Some (a, s) => Some (a, trace s, total_bytes s, bytes_copied s)
  | None => None
  end.

(** The mode of a path after a run. *)
Definition mode_after {A : Type} (r : option (A * state simworld))
    (p : string) : option Z :=
  match r with
  | Some (_, s) => i_mode <$> files (world s) !! p
  | None => None
  end.

(** The state in which a run ended, or [d] when it ran out of fuel. *)
Definition final_state {A : Type} (r : option (A * state simworld))
    (d : state simworld) : state simworld :=
  match r with
  | Some (_, s) => s
  | None => d
  end.

(** Byte counting enabled; the pattern [/mi*] excluded. *)
Definition counting : config :=
  {| force_copy := false; count_bytes := true;
     date_format := "%m-%d-%y-%H-%M-%S"; exclude_pattern := None |}.

Definition excluding : config :=
  {| force_copy := false; count_bytes := false;
     date_format := "%m-%d-%y-%H-%M-%S"; exclude_pattern := Some "/mi*" |}.

(** Two backup roots: [/hour] with two snapshots, 42 minutes and 5
    seconds apart, and [/dawn] with one snapshot, half an hour after the
    epoch. *)
Definition demo_hour : simworld :=
  with_files demo
    (<["/hour" := dir_inode 1000 0x1ED]>
       (<["/hour/11-02-26-13-00-00" := dir_inode 1000 0x1ED]>
          (<["/hour/11-02-26-13-42-05" := dir_inode 1000 0x1ED]>
             (<["/dawn" := dir_inode 1000 0x1ED]>
                (<["/dawn/01-01-70-00-30-00" := dir_inode 1000 0x1ED]>
                   (files demo)))))).

(** A stack on which [tm_isdst] holds 1 where [t] is placed in the
    iteration that reads the first snapshot of each of these roots, and
    zeros elsewhere. *)
Definition dst_stack (d_name : string) : sim_tm :=
  if String.eqb d_name "11-02-26-13-42-05"
     || String.eqb d_name "01-01-70-00-30-00"
  then mktm 0 0 0 0 0 0 1
  else mktm 0 0 0 0 0 0 0.

(** [same_but_times i i']: [i'] is [i] but for the two times. *)
Definition same_but_times (i i' : inode) : Prop :=
  i_mode i' = i_mode i /\ i_uid i' = i_uid i /\ i_gid i' = i_gid i /\
  i_rdev i' = i_rdev i /\ i_data i' = i_data i /\ i_target i' = i_target i.

(** The small tree with a fifo that belongs to the user. *)
Definition fifo_inode (owner perm : Z) : inode :=
  mkinode (Z.lor S_IFIFO perm) owner owner 0 70 70 [] "".

Definition demo_fifo : simworld :=
  with_files demo (<["/pipe" := fifo_inode 1000 0x1A4]> (files demo)).

(** The path and the ancestors that [dirname] gives, [n] names in all,
    the path first. *)
Fixpoint ancestors (n : nat) (p : string) : list string :=
  match n with
  | O => []
  | S k => p :: ancestors k (sim_dirname p)
  end.

(** [same_process w w']: the mask, the identity of the process and the
    clock of [w'] are those of [w]. *)
Definition same_process (w w' : simworld) : Prop :=
  mask w' = mask w /\ euid w' = euid w /\ egid w' = egid w /\
  clock w' = clock w.

End SimFS.

(** * Properties that hold for every environment *)

Section Properties.

Context {W : Type} {os : OS W}.
Variable cfg : config.

(** ** Vocabulary of the statements *)

(** The state after one more recorded call. *)
Definition record_call (s : state W) (w : W) (e : event) : state W :=
  {| world := w; total_bytes := total_bytes s;
     bytes_copied := bytes_copied s; trace := trace s ++ [e] |}.

Definition prev_dest_of (prev_root : option string) (source : string)
    : option string :=
  match prev_root with
  | Some p => Some (join_path p source)
  | None => None
  end.

Definition is_special (m : Z) : bool :=
  S_ISBLK m || S_ISCHR m || S_ISSOCK m || S_ISFIFO m || S_ISLNK m.

(** [grows s s' tr]: from [s] to [s'] the counters are unchanged and the
    trace gained the events [tr]. *)
Definition grows (s s' : state W) (tr : list event) : Prop :=
  total_bytes s' = total_bytes s /\
  bytes_copied s' = bytes_copied s /\
  trace s' = trace s ++ tr.

(** What the copying loop may record: reads of [sizeof_ptr] bytes from
    the input and writes to the output. *)
Definition loop_event (fin fout : Z) (e : event) : Prop :=
  match e with
  | ERead fd count _ => fd = fin /\ count = sizeof_ptr
  | EWrite fd _ _ => fd = fout
  | _ => False
  end.

(** The condition of a fresh copy, in the words of the specification:
    no previous root, or a full backup is forced, or the counterpart
    cannot be stat'd, or its modification time differs. *)
Definition needs_copy (prev_dest : option string) (sb : stat) (w : W)
    : bool :=
  match prev_dest with
  | None => true
  | Some pd =>
    force_copy cfg ||
    match os_stat pd w with
    | None => true
    | Some ps => negb (st_mtime sb =? st_mtime ps)
    end
  end.

(** The target [symlink_file] gives to the new link: the counterpart, or
    what [readlink] returns for it when it is a link itself. *)
Definition link_target (source : string) (w : W) : option string :=
  match os_lstat source w with
  | None => None
  | Some sb =>
    if S_ISLNK (st_mode sb) then os_readlink source PATH_MAX w
    else Some source
  end.

(** The calls [symlink_file] can make. *)
Definition link_event (source dest : string) (e : event) : Prop :=
  match e with
  | ELstat p _ => p = source
  | EReadlink p n _ => p = source /\ n = PATH_MAX
  | ESymlink _ d _ => d = dest
  | _ => False
  end.

(** The directory branch up to the loop: the mask is cleared, the
    destination directory is made, the mask is restored and the source is
    opened.  The result is the stream of names and the saved mask, or
    [None] when the directory could not be made or opened. *)
Definition enter_dir (fuel : nat) (source dest : string) (sb : stat)
    : M W (option (list string * Z)) :=
  bind (sys_umask 0) (fun saved_umask =>
  bind (rmkdir fuel dest (Z.lor (st_mode sb) S_IRWXU)) (fun r =>
  bind (sys_umask saved_umask) (fun _ =>
  if r <? 0 then ret None
  else
    bind (sys_opendir source) (fun dir =>
    match dir with
    | None => ret None
    | Some entries => ret (Some (entries, saved_umask))
    end)))).

(** The directory branch after a loop that succeeded: [chmod], then
    [copy_time], both with the structure that holds the mode with
    [S_IRWXU] added. *)
Definition leave_dir (dest : string) (sb : stat) (saved_umask : Z)
    : M W bool :=
  let sb' := set_st_mode sb (Z.lor (st_mode sb) S_IRWXU) in
  bind (sys_chmod dest (clear_bits (st_mode sb') saved_umask)) (fun c =>
  if c then bind (copy_time dest sb') (fun t => ret (fst t))
  else ret false).

(** The instant of a candidate: the name is not "." or "..", [strptime]
    parses it against the date format and leaves nothing unparsed. *)
Definition instant_of (d_name : string) : option Z :=
  if ignore_dir d_name then None
  else
    match strptime d_name (date_format cfg) with
    | Some (t, EmptyString) => Some (mktime t)
    | _ => None
    end.

(** The state in which the copy or the link of a regular file starts:
    [lstat] of the source is recorded, then [stat] of the counterpart
    when there is one and no full backup is forced, and the size is in
    the total when bytes are counted. *)
Definition reg_start (st : state W) (source : string) (pd : option string)
    (sb : stat) : state W :=
  {| world := world st;
     total_bytes :=
       total_bytes st + (if count_bytes cfg then st_size sb else 0);
     bytes_copied := bytes_copied st;
     trace := trace st ++
       ELstat source (Some sb) ::
       match pd with
       | Some p =>
         if force_copy cfg then [] else [EStat p (os_stat p (world st))]
       | None => []
       end |}.

(** [bytes_copied += source_stat.st_size] when bytes are counted. *)
Definition count_copied (sb : stat) (s : state W) : state W :=
  {| world := world s; total_bytes := total_bytes s;
     bytes_copied :=
       bytes_copied s + (if count_bytes cfg then st_size sb else 0);
     trace := trace s |}.

(** The state after the calls with which [symlink_file] looks at the
    counterpart: [lstat], and [readlink] when it is a link. *)
Definition link_looked (s : state W) (p : string) : state W :=
  let s1 := record_call s (world s) (ELstat p (os_lstat p (world s))) in
  match os_lstat p (world s) with
  | Some sb =>
    if S_ISLNK (st_mode sb)
    then record_call s1 (world s)
           (EReadlink p PATH_MAX (os_readlink p PATH_MAX (world s)))
    else s1
  | None => s1
  end.

(** Every size that [lstat] reports is non-negative. *)
Definition sizes_nonneg : Prop :=
  forall p w sb, os_lstat p w = Some sb -> 0 <= st_size sb.

(** [counted s s']: from [s] to [s'] the total grew by [t] and the
    copied bytes by [c]; both are zero without byte counting, and
    [0 <= c <= t] when no size is negative. *)
Definition counted (s s' : state W) : Prop :=
  exists t c,
    total_bytes s' = total_bytes s + t /\
    bytes_copied s' = bytes_copied s + c /\
    (count_bytes cfg = false -> t = 0 /\ c = 0) /\
    (sizes_nonneg -> 0 <= c <= t).

(** The calls [main] makes before it creates anything. *)
Definition lookup_event (e : event) : Prop :=
  match e with
  | EOpendir _ _ | EClosedir _ | EStat _ _ => True
  | _ => False
  end.

Lemma call_run {A : Type} (f : W -> A * W) (ev : A -> event) (s : state W) :
  call f ev s = Some (fst (f (world s)),
                      record_call s (snd (f (world s))) (ev (fst (f (world s))))).
Proof. unfold call, record_call. destruct (f (world s)); reflexivity. Qed.

Lemma query_run {A : Type} (f : W -> A) (ev : A -> event) (s : state W) :
  query f ev s = Some (f (world s), record_call s (world s) (ev (f (world s)))).
Proof. unfold query. rewrite call_run. reflexivity. Qed.

Lemma bind_run {A B : Type} (m : M W A) (k : A -> M W B) (s s' : state W) (a : A) :
  m s = Some (a, s') -> bind m k s = k a s'.
Proof. intros H. unfold bind. rewrite H. reflexivity. Qed.

(** Bits 10 and 11 are [S_ISGID] and [S_ISUID]. *)
Lemma clear_bits_suid_sgid (m n : Z) :
  0 <= n ->
  Z.testbit (clear_bits m (Z.lor S_ISUID S_ISGID)) n =
  Z.testbit m n && negb ((n =? 10) || (n =? 11)).
Proof.
  intros Hn. unfold clear_bits.
  rewrite Z.land_spec, Z.lnot_spec, Z.lor_spec by assumption.
  change S_ISUID with (2 ^ 11). change S_ISGID with (2 ^ 10).
  rewrite !Z.pow2_bits_eqb by lia.
  rewrite (Z.eqb_sym 11 n), (Z.eqb_sym 10 n), orb_comm. reflexivity.
Qed.

(** The run of [copy_time] written out: three calls, each on the world
    the previous one left. *)
Lemma copy_time_run (file : string) (s : stat) (st : state W) :
  let r1 := os_utime file (st_atime s) (st_mtime s) (world st) in
  let r2 := os_chown file (st_uid s) (st_gid s) (snd r1) in
  let s' := if fst r2 then s
            else set_st_mode s (clear_bits (st_mode s) (Z.lor S_ISUID S_ISGID)) in
  let r3 := os_chmod file (st_mode s') (snd r2) in
  copy_time file s st =
  Some ((fst r1 && fst r2 && fst r3, s'),
        {| world := snd r3; total_bytes := total_bytes st;
           bytes_copied := bytes_copied st;
           trace := trace st ++
             [EUtime file (st_atime s) (st_mtime s) (fst r1);
              EChown file (st_uid s) (st_gid s) (fst r2);
              EChmod file (st_mode s') (fst r3)] |}).
Proof.
  intros r1 r2 s' r3. unfold copy_time, sys_utime, sys_chown, sys_chmod.
  erewrite bind_run by apply call_run.
  erewrite bind_run by apply call_run.
  erewrite bind_run by apply call_run.
  unfold ret, record_call. cbn [world total_bytes bytes_copied trace].
  fold r1. fold r2. fold s'. fold r3.
  rewrite <- !app_assoc. cbn [app].
  destruct (fst r1), (fst r2), (fst r3); reflexivity.
Qed.

(** C4.  [copy_time] makes exactly three calls, in this order: [utime],
    [chown] on the world [utime] left, [chmod] on the world [chown] left,
    whatever the earlier ones returned; its result is [false] exactly
    when one of the three failed; and when [chown] failed, the mode given
    to [chmod] is the mode of the source without its set-user-id and
    set-group-id bits (bits 11 and 10), every other bit as it was. *)
Theorem copy_time_attempts_all_steps (file : string) (s : stat)
    (st : state W) :
  let r1 := os_utime file (st_atime s) (st_mtime s) (world st) in
  let r2 := os_chown file (st_uid s) (st_gid s) (snd r1) in
  let mode := if fst r2 then st_mode s
              else clear_bits (st_mode s) (Z.lor S_ISUID S_ISGID) in
  let r3 := os_chmod file mode (snd r2) in
  exists (s' : stat) (st' : state W),
    copy_time file s st = Some ((fst r1 && fst r2 && fst r3, s'), st') /\
    world st' = snd r3 /\
    trace st' = trace st ++
      [EUtime file (st_atime s) (st_mtime s) (fst r1);
       EChown file (st_uid s) (st_gid s) (fst r2);
       EChmod file mode (fst r3)] /\
    (fst r1 && fst r2 && fst r3 = false <->
     fst r1 = false \/ fst r2 = false \/ fst r3 = false) /\
    (fst r2 = false ->
     Z.testbit mode 10 = false /\
     Z.testbit mode 11 = false /\
     forall n, 0 <= n -> n <> 10 -> n <> 11 ->
               Z.testbit mode n = Z.testbit (st_mode s) n).
Proof.
  intros r1 r2 mode r3.
  pose proof (copy_time_run file s st) as Hrun. cbv zeta in Hrun.
  assert (Hmode : st_mode (if fst r2 then s
                           else set_st_mode s
                                  (clear_bits (st_mode s)
                                     (Z.lor S_ISUID S_ISGID))) = mode).
  { subst mode. destruct (fst r2); reflexivity. }
  fold r1 in Hrun. fold r2 in Hrun. rewrite Hmode in Hrun. fold r3 in Hrun.
  eexists _, _. split; [exact Hrun|].
  split; [reflexivity|]. split; [reflexivity|]. split.
  { destruct (fst r1), (fst r2), (fst r3); cbn; intuition congruence. }
  intros Ho. subst mode. rewrite Ho.
  split; [|split].
  - rewrite clear_bits_suid_sgid by lia. apply andb_false_r.
  - rewrite clear_bits_suid_sgid by lia. apply andb_false_r.
  - intros n Hn H10 H11. rewrite clear_bits_suid_sgid by assumption.
    replace (n =? 10) with false by (symmetry; apply Z.eqb_neq; assumption).
    replace (n =? 11) with false by (symmetry; apply Z.eqb_neq; assumption).
    apply andb_true_r.
Qed.

(** ** Entry into [process_file] *)

(** After a successful [lstat] the function dispatches on the exclusion
    pattern and on the type of the entry. *)
Lemma process_file_entry (fuel : nat) (source root : string)
    (prev_root : option string) (st : state W) (sb : stat) :
  os_lstat source (world st) = Some sb ->
  let st1 := record_call st (world st) (ELstat source (Some sb)) in
  let dest := join_path root source in
  process_file cfg (S fuel) source root prev_root st =
  if excluded cfg source then Some (true, st1)
  else if S_ISDIR (st_mode sb) then
    process_dir fuel (fun child => process_file cfg fuel child root prev_root)
                source dest sb st1
  else if S_ISREG (st_mode sb) then
    process_reg cfg fuel source dest (prev_dest_of prev_root source) sb st1
  else if is_special (st_mode sb) then process_special source dest sb st1
  else Some (false, st1).
Proof.
  intros Hl st1 dest. cbn [process_file]. unfold sys_lstat.
  erewrite bind_run by apply query_run. rewrite Hl. fold st1.
  destruct (excluded cfg source); [reflexivity|].
  destruct (S_ISDIR (st_mode sb)); [reflexivity|].
  destruct (S_ISREG (st_mode sb)); [reflexivity|].
  unfold is_special.
  destruct (S_ISBLK (st_mode sb) || S_ISCHR (st_mode sb) ||
            S_ISSOCK (st_mode sb) || S_ISFIFO (st_mode sb) ||
            S_ISLNK (st_mode sb)); reflexivity.
Qed.

Lemma process_file_lstat_fails (fuel : nat) (source root : string)
    (prev_root : option string) (st : state W) :
  os_lstat source (world st) = None ->
  process_file cfg (S fuel) source root prev_root st =
  Some (false, record_call st (world st) (ELstat source None)).
Proof.
  intros Hl. cbn [process_file]. unfold sys_lstat.
  erewrite bind_run by apply query_run. rewrite Hl. reflexivity.
Qed.

(** The file type bits tell the types apart. *)
Lemma S_ISLNK_not_dir_reg_fifo (m : Z) :
  S_ISLNK m = true ->
  S_ISDIR m = false /\ S_ISREG m = false /\ S_ISFIFO m = false.
Proof.
  unfold S_ISLNK, S_ISDIR, S_ISREG, S_ISFIFO. intros H.
  apply Z.eqb_eq in H. rewrite H. repeat split.
Qed.

(** C7.  An entry that [lstat] finds and whose path matches the exclusion
    pattern is a success; the only call made is that [lstat], so nothing
    is created for it and, when it is a directory, it is never opened and
    none of its descendants is looked at; the world and the counters are
    as before. *)
Theorem excluded_entry_is_skipped (fuel : nat) (source root : string)
    (prev_root : option string) (st : state W) (sb : stat)
    (pattern : string) :
  exclude_pattern cfg = Some pattern ->
  fnmatch pattern source 0 = 0 ->
  os_lstat source (world st) = Some sb ->
  process_file cfg (S fuel) source root prev_root st =
  Some (true, {| world := world st; total_bytes := total_bytes st;
                 bytes_copied := bytes_copied st;
                 trace := trace st ++ [ELstat source (Some sb)] |}).
Proof.
  intros Hpat Hmatch Hl.
  rewrite (process_file_entry fuel source root prev_root st sb Hl).
  unfold excluded. rewrite Hpat, Hmatch. reflexivity.
Qed.

(** C8, as the code has it.  For a source entry that is a symbolic link
    whose target can be read and for which the link can be created at the
    destination, the calls are [readlink] on the source, [symlink] with
    the string that [readlink] returned, unchanged, and [lchown] on the
    new link; the result of the entry is the outcome of that [lchown]. *)
Theorem symlink_entry_result_is_lchown (fuel : nat) (source root : string)
    (prev_root : option string) (st : state W) (sb : stat)
    (target : string) (w1 : W) :
  os_lstat source (world st) = Some sb ->
  S_ISLNK (st_mode sb) = true ->
  excluded cfg source = false ->
  os_readlink source PATH_MAX (world st) = Some target ->
  os_symlink target (join_path root source) (world st) = (true, w1) ->
  let dest := join_path root source in
  let r := os_lchown dest (st_uid sb) (st_gid sb) w1 in
  process_file cfg (S fuel) source root prev_root st =
  Some (fst r,
        {| world := snd r; total_bytes := total_bytes st;
           bytes_copied := bytes_copied st;
           trace := trace st ++
             [ELstat source (Some sb);
              EReadlink source PATH_MAX (Some target);
              ESymlink target dest true;
              ELchown dest (st_uid sb) (st_gid sb) (fst r)] |}).
Proof.
  intros Hl Hlnk Hex Hrl Hsl dest r. subst dest r.
  rewrite (process_file_entry fuel source root prev_root st sb Hl).
  rewrite Hex.
  destruct (S_ISLNK_not_dir_reg_fifo _ Hlnk) as (Hd & Hr & Hf).
  rewrite Hd, Hr. unfold is_special. rewrite Hlnk, !orb_true_r.
  unfold process_special. rewrite Hf, Hlnk.
  unfold sys_readlink, sys_symlink, sys_lchown.
  erewrite bind_run by apply query_run.
  cbn [record_call world]. rewrite Hrl.
  erewrite bind_run by apply call_run.
  cbn [record_call world]. rewrite Hsl. cbn [fst snd].
  rewrite call_run. unfold record_call.
  cbn [world total_bytes bytes_copied trace].
  rewrite <- !app_assoc. reflexivity.
Qed.

(** ** Counters and traces along a run *)

Lemma bind_inv {A B : Type} (m : M W A) (k : A -> M W B) (s s2 : state W)
    (b : B) :
  bind m k s = Some (b, s2) ->
  exists a s1, m s = Some (a, s1) /\ k a s1 = Some (b, s2).
Proof.
  unfold bind. destruct (m s) as [[a s1]|]; [|discriminate].
  intros H. exists a, s1. split; [reflexivity|assumption].
Qed.

(** [rmkdir] returns only past its [free(parent)]. *)
Lemma rmkdir_done (path : string) (m : M W Z) (s s' : state W) (r : Z) :
  bind m (fun x => if dirname_static path then undefined else ret x) s =
    Some (r, s') ->
  dirname_static path = false /\ m s = Some (r, s').
Proof.
  intros H. apply bind_inv in H as (x & s1 & Hm & H).
  destruct (dirname_static path); [discriminate|].
  injection H as <- <-. auto.
Qed.

Lemma grows_refl (s : state W) : grows s s [].
Proof. unfold grows. rewrite app_nil_r. auto. Qed.

Lemma grows_trans (s1 s2 s3 : state W) (tr1 tr2 : list event) :
  grows s1 s2 tr1 -> grows s2 s3 tr2 -> grows s1 s3 (tr1 ++ tr2).
Proof.
  unfold grows. intros (Ht1 & Hb1 & Hr1) (Ht2 & Hb2 & Hr2).
  rewrite Ht2, Hb2, Hr2, Hr1, app_assoc. auto.
Qed.

Lemma grows_call {A : Type} (f : W -> A * W) (ev : A -> event)
    (s s' : state W) (a : A) :
  call f ev s = Some (a, s') -> grows s s' [ev a].
Proof.
  rewrite call_run. intros H. injection H as <- <-.
  unfold grows, record_call. cbn. auto.
Qed.

Lemma grows_query {A : Type} (f : W -> A) (ev : A -> event)
    (s s' : state W) (a : A) :
  query f ev s = Some (a, s') -> grows s s' [ev a].
Proof. apply grows_call. Qed.

Lemma grows_close (fd : Z) (s s' : state W) (u : unit) :
  sys_close fd s = Some (u, s') -> grows s s' [EClose fd].
Proof. unfold sys_close. intros H. apply grows_call in H. exact H. Qed.

Lemma copy_loop_grows (fuel : nat) (fin fout : Z) (s s' : state W)
    (r : bool) :
  copy_loop fuel fin fout s = Some (r, s') ->
  exists tr, grows s s' tr /\ Forall (loop_event fin fout) tr.
Proof.
  revert s. induction fuel as [|n IH]; intros s H; [discriminate|].
  cbn [copy_loop] in H. apply bind_inv in H as (rd & s1 & Hrd & H).
  pose proof (grows_call _ _ _ _ _ Hrd) as G1.
  assert (E1 : loop_event fin fout (ERead fin sizeof_ptr rd))
    by (cbn; auto).
  destruct rd as [[|b bs]|].
  - injection H as <- <-. eexists. split; [exact G1|]. constructor; auto.
  - apply bind_inv in H as (wr & s2 & Hwr & H).
    pose proof (grows_call _ _ _ _ _ Hwr) as G2.
    assert (E2 : loop_event fin fout (EWrite fout (b :: bs) wr))
      by (cbn; auto).
    destruct (wr =? Z.of_nat (length (b :: bs))).
    + apply IH in H as (tr & G3 & F3).
      eexists. split.
      * eapply grows_trans; [exact G1|]. eapply grows_trans; eassumption.
      * constructor; [exact E1|]. constructor; assumption.
    + injection H as <- <-. eexists. split.
      * eapply grows_trans; eassumption.
      * constructor; [exact E1|]. constructor; [exact E2|constructor].
  - injection H as <- <-. eexists. split; [exact G1|]. constructor; auto.
Qed.

(** [copy_file] starts by opening the source; when both files open, the
    buffer is requested with [st_blksize] bytes and the loop follows. *)
Lemma copy_file_grows (fuel : nat) (source dest : string) (sb : stat)
    (s s' : state W) (r : bool) :
  copy_file fuel source dest sb s = Some (r, s') ->
  exists fd tr, grows s s' (EOpenRd source fd :: tr).
Proof.
  unfold copy_file. intros H.
  apply bind_inv in H as (i & s1 & Hi & H).
  apply grows_call in Hi. exists i.
  destruct i as [fin|].
  - apply bind_inv in H as (o & s2 & Ho & H). apply grows_call in Ho.
    destruct o as [fout|].
    + apply bind_inv in H as (b & s3 & Hb & H). apply grows_call in Hb.
      apply bind_inv in H as (res & s4 & Hres & H).
      assert (G4 : exists tr, grows s3 s4 tr).
      { destruct b.
        - apply copy_loop_grows in Hres as (tr & G & _). eauto.
        - injection Hres as <- <-. eexists. apply grows_refl. }
      destruct G4 as (tr4 & G4).
      apply bind_inv in H as (u1 & s5 & H5 & H). apply grows_close in H5.
      apply bind_inv in H as (u2 & s6 & H6 & H). apply grows_close in H6.
      injection H as <- <-. eexists.
      change (EOpenRd source (Some fin) :: ?t)
        with ([EOpenRd source (Some fin)] ++ t).
      eapply grows_trans; [exact Hi|].
      eapply grows_trans; [exact Ho|].
      eapply grows_trans; [exact Hb|].
      eapply grows_trans; [exact G4|].
      eapply grows_trans; [exact H5|exact H6].
    + apply bind_inv in H as (u1 & s5 & H5 & H).
      apply bind_inv in H as (u2 & s6 & H6 & H). discriminate.
  - apply bind_inv in H as (u1 & s5 & H5 & H). discriminate.
Qed.

Lemma copy_time_grows (file : string) (sb : stat) (s s' : state W)
    (r : bool) (sb' : stat) :
  copy_time file sb s = Some ((r, sb'), s') ->
  exists t o c,
    r = t && o && c /\
    grows s s' [EUtime file (st_atime sb) (st_mtime sb) t;
                EChown file (st_uid sb) (st_gid sb) o;
                EChmod file (st_mode sb') c] /\
    (o = true -> sb' = sb).
Proof.
  pose proof (copy_time_run file sb s) as Hrun. cbv zeta in Hrun.
  rewrite Hrun. intros H. injection H as <- <- <-.
  eexists _, _, _. split; [reflexivity|]. split.
  - unfold grows. cbn. auto.
  - intros Ho. rewrite Ho. reflexivity.
Qed.

(** ** Regular files: copy or link *)

Lemma symlink_file_run (source dest : string) (s : state W) :
  symlink_file source dest s =
  let s1 := record_call s (world s)
              (ELstat source (os_lstat source (world s))) in
  match os_lstat source (world s) with
  | None => Some (false, s1)
  | Some sb =>
    if S_ISLNK (st_mode sb) then
      let s2 := record_call s1 (world s)
                  (EReadlink source PATH_MAX
                     (os_readlink source PATH_MAX (world s))) in
      match os_readlink source PATH_MAX (world s) with
      | None => Some (false, s2)
      | Some buffer =>
        let r := os_symlink buffer dest (world s) in
        Some (fst r, record_call s2 (snd r) (ESymlink buffer dest (fst r)))
      end
    else
      let r := os_symlink source dest (world s) in
      Some (fst r, record_call s1 (snd r) (ESymlink source dest (fst r)))
  end.
Proof.
  unfold symlink_file, sys_lstat, sys_readlink, sys_symlink.
  erewrite bind_run by apply query_run.
  destruct (os_lstat source (world s)) as [sb|]; [|reflexivity].
  destruct (S_ISLNK (st_mode sb)).
  - erewrite bind_run by apply query_run. cbn [record_call world].
    destruct (os_readlink source PATH_MAX (world s)); [|reflexivity].
    rewrite call_run. reflexivity.
  - rewrite call_run. reflexivity.
Qed.

Lemma symlink_file_spec (source dest : string) (s s' : state W) (r : bool) :
  symlink_file source dest s = Some (r, s') ->
  exists tr,
    grows s s' tr /\ Forall (link_event source dest) tr /\
    (r = true ->
     exists target, link_target source (world s) = Some target /\
                    In (ESymlink target dest true) tr).
Proof.
  rewrite symlink_file_run. cbv zeta. unfold link_target.
  destruct (os_lstat source (world s)) as [sb|].
  - destruct (S_ISLNK (st_mode sb)).
    + destruct (os_readlink source PATH_MAX (world s)) as [buffer|].
      * intros H. injection H as <- <-.
        exists [ELstat source (Some sb);
                EReadlink source PATH_MAX (Some buffer);
                ESymlink buffer dest (fst (os_symlink buffer dest (world s)))].
        split; [|split].
        -- unfold grows, record_call. cbn. rewrite <- !app_assoc. auto.
        -- repeat constructor.
        -- intros Hr. exists buffer. split; [reflexivity|].
           rewrite Hr. cbn. auto.
      * intros H. injection H as <- <-.
        exists [ELstat source (Some sb); EReadlink source PATH_MAX None].
        split; [|split].
        -- unfold grows, record_call. cbn. rewrite <- !app_assoc. auto.
        -- repeat constructor.
        -- discriminate.
    + intros H. injection H as <- <-.
      exists [ELstat source (Some sb);
              ESymlink source dest (fst (os_symlink source dest (world s)))].
      split; [|split].
      * unfold grows, record_call. cbn. rewrite <- !app_assoc. auto.
      * repeat constructor.
      * intros Hr. exists source. split; [reflexivity|].
        rewrite Hr. cbn. auto.
  - intros H. injection H as <- <-.
    exists [ELstat source None]. split; [|split].
    + unfold grows, record_call. cbn. auto.
    + repeat constructor.
    + discriminate.
Qed.

Lemma fresh_copy_spec (fuel : nat) (source dest : string) (sb : stat)
    (s s' : state W) (r : bool) :
  fresh_copy cfg fuel source dest sb s = Some (r, s') ->
  total_bytes s' = total_bytes s /\
  bytes_copied s' =
    bytes_copied s + (if count_bytes cfg then st_size sb else 0) /\
  exists fd tr,
    trace s' = trace s ++ EOpenRd source fd :: tr /\
    (r = true ->
     exists front,
       EOpenRd source fd :: tr =
       front ++ [EUtime dest (st_atime sb) (st_mtime sb) true;
                 EChown dest (st_uid sb) (st_gid sb) true;
                 EChmod dest (st_mode sb) true]).
Proof.
  unfold fresh_copy. intros H.
  apply bind_inv in H as (c & s1 & Hc & H).
  apply copy_file_grows in Hc as (fd & tr1 & (Ht1 & Hb1 & Hr1)).
  apply bind_inv in H as (res & s2 & Hres & H).
  apply bind_inv in H as (u & s3 & Hu & H).
  injection H as <- <-.
  assert (Hcnt : total_bytes s3 = total_bytes s2 /\
                 bytes_copied s3 = bytes_copied s2 +
                   (if count_bytes cfg then st_size sb else 0) /\
                 trace s3 = trace s2).
  { destruct (count_bytes cfg).
    - unfold add_copied in Hu. injection Hu as _ <-. cbn. auto.
    - injection Hu as _ <-. rewrite Z.add_0_r. auto. }
  destruct Hcnt as (Ht3 & Hb3 & Hr3).
  destruct c.
  - apply bind_inv in Hres as ([r' sb'] & s2' & Hct & Hres).
    injection Hres as <- <-. cbn [fst].
    apply copy_time_grows in Hct as (t & o & ch & Hr' & (Ht2 & Hb2 & Hr2) & Ho).
    split; [congruence|]. split; [congruence|].
    exists fd. eexists. split.
    + rewrite Hr3, Hr2, Hr1, <- app_assoc. cbn [app]. reflexivity.
    + intros E. subst r'. symmetry in E.
      apply andb_true_eq in E as [E Ech].
      apply andb_true_eq in E as [Et Eo].
      rewrite <- Et, <- Eo, <- Ech.
      rewrite (Ho (eq_sym Eo)).
      exists (EOpenRd source fd :: tr1). reflexivity.
  - injection Hres as <- <-.
    split; [congruence|]. split; [congruence|].
    exists fd, tr1. split; [congruence|]. discriminate.
Qed.

Lemma S_ISREG_not_dir (m : Z) : S_ISREG m = true -> S_ISDIR m = false.
Proof.
  unfold S_ISREG, S_ISDIR. intros H. apply Z.eqb_eq in H. rewrite H.
  reflexivity.
Qed.

Lemma link_event_not_open (p dest source : string) (tr : list event) :
  Forall (link_event p dest) tr ->
  forall fd, ~ In (EOpenRd source fd) tr.
Proof.
  intros F fd Hin. rewrite Forall_forall in F.
  apply list_elem_of_In in Hin. apply F in Hin. exact Hin.
Qed.

(** The branch of regular files, from the state [s] in which it starts. *)
Lemma process_reg_spec (fuel : nat) (source dest : string)
    (pd : option string) (sb : stat) (s s' : state W) (r : bool) :
  process_reg cfg fuel source dest pd sb s = Some (r, s') ->
  let counted := if count_bytes cfg then st_size sb else 0 in
  total_bytes s' = total_bytes s + counted /\
  exists tr, trace s' = trace s ++ tr /\
    ((exists fd, In (EOpenRd source fd) tr) <->
     needs_copy pd sb (world s) = true) /\
    (needs_copy pd sb (world s) = true ->
     bytes_copied s' = bytes_copied s + counted /\
     (r = true ->
      exists front,
        tr = front ++ [EUtime dest (st_atime sb) (st_mtime sb) true;
                       EChown dest (st_uid sb) (st_gid sb) true;
                       EChmod dest (st_mode sb) true])) /\
    (needs_copy pd sb (world s) = false ->
     bytes_copied s' = bytes_copied s /\
     exists p ps,
       pd = Some p /\ os_stat p (world s) = Some ps /\
       st_mtime ps = st_mtime sb /\
       (r = true ->
        exists target, link_target p (world s) = Some target /\
                       In (ESymlink target dest true) tr)).
Proof.
  intros H counted. unfold process_reg in H.
  apply bind_inv in H as (u & s1 & Hu & H).
  assert (Hs1 : world s1 = world s /\ trace s1 = trace s /\
                bytes_copied s1 = bytes_copied s /\
                total_bytes s1 = total_bytes s + counted).
  { subst counted. destruct (count_bytes cfg).
    - unfold add_total in Hu. injection Hu as _ <-. cbn. auto.
    - injection Hu as _ <-. rewrite Z.add_0_r. auto. }
  destruct Hs1 as (Hw1 & Hr1 & Hb1 & Ht1).
  (* the two ways the branch can end *)
  assert (Copy : forall (s2 : state W) (evs : list event),
    world s2 = world s -> trace s2 = trace s ++ evs ->
    bytes_copied s2 = bytes_copied s ->
    total_bytes s2 = total_bytes s + counted ->
    fresh_copy cfg fuel source dest sb s2 = Some (r, s') ->
    total_bytes s' = total_bytes s + counted /\
    exists tr, trace s' = trace s ++ tr /\
      (exists fd, In (EOpenRd source fd) tr) /\
      bytes_copied s' = bytes_copied s + counted /\
      (r = true ->
       exists front,
         tr = front ++ [EUtime dest (st_atime sb) (st_mtime sb) true;
                        EChown dest (st_uid sb) (st_gid sb) true;
                        EChmod dest (st_mode sb) true])).
  { intros s2 evs Hw2 Hr2 Hb2 Ht2 Hf.
    apply fresh_copy_spec in Hf as (Ht & Hb & fd & tr & Htr & Hok).
    split; [congruence|].
    exists (evs ++ EOpenRd source fd :: tr). split.
    { rewrite Htr, Hr2, <- app_assoc. reflexivity. }
    split.
    { exists fd. apply in_or_app. right. left. reflexivity. }
    split; [subst counted; congruence|].
    intros Hr. destruct (Hok Hr) as (front & Hfront).
    exists (evs ++ front). rewrite Hfront, app_assoc. reflexivity. }
  destruct pd as [p|].
  - destruct (force_copy cfg) eqn:Hforce.
    + destruct (Copy s1 [] Hw1 ltac:(rewrite app_nil_r; exact Hr1) Hb1 Ht1 H)
        as (Ht & tr & Htr & Hopen & Hb & Hok).
      split; [exact Ht|]. exists tr. split; [exact Htr|].
      unfold needs_copy. rewrite Hforce. cbn [orb].
      split; [tauto|]. split; [auto|discriminate].
    + apply bind_inv in H as (ps & s2 & Hps & H).
      unfold sys_stat in Hps. rewrite query_run in Hps.
      injection Hps as <- <-.
      remember (record_call s1 (world s1) (EStat p (os_stat p (world s1))))
        as s2 eqn:Es2.
      assert (Hw2 : world s2 = world s) by (subst s2; exact Hw1).
      assert (Hr2 : trace s2 =
                    trace s ++ [EStat p (os_stat p (world s))]).
      { subst s2. cbn. rewrite Hr1, Hw1. reflexivity. }
      assert (Hb2 : bytes_copied s2 = bytes_copied s)
        by (subst s2; exact Hb1).
      assert (Ht2 : total_bytes s2 = total_bytes s + counted)
        by (subst s2; exact Ht1).
      clear Es2. rewrite Hw1 in H.
      unfold needs_copy. rewrite Hforce. cbn [orb].
      destruct (os_stat p (world s)) as [ps|] eqn:Hstat.
      * destruct (st_mtime sb =? st_mtime ps) eqn:Hmt; cbn [negb] in *.
        -- apply symlink_file_spec in H as (ltr & (Ht & Hb & Hr) & F & Hok).
           split; [congruence|].
           exists ([EStat p (Some ps)] ++ ltr). split.
           { rewrite Hr, Hr2, <- app_assoc. reflexivity. }
           split.
           { split; [|discriminate]. intros [fd Hin]. exfalso.
             cbn in Hin. destruct Hin as [Hin|Hin]; [discriminate|].
             exact (link_event_not_open _ _ _ _ F fd Hin). }
           split; [discriminate|]. intros _.
           split; [congruence|].
           exists p, ps. split; [reflexivity|]. split; [exact Hstat|].
           split; [apply Z.eqb_eq in Hmt; auto|].
           intros Hrt. destruct (Hok Hrt) as (target & Hlt & Hin).
           exists target. rewrite Hw2 in Hlt. split; [exact Hlt|].
           right. exact Hin.
        -- destruct (Copy s2 _ Hw2 Hr2 Hb2 Ht2 H)
             as (Ht & tr & Htr & Hopen & Hb & Hok).
           split; [exact Ht|]. exists tr. split; [exact Htr|].
           split; [tauto|]. split; [auto|discriminate].
      * destruct (Copy s2 _ Hw2 Hr2 Hb2 Ht2 H)
          as (Ht & tr & Htr & Hopen & Hb & Hok).
        split; [exact Ht|]. exists tr. split; [exact Htr|].
        split; [tauto|]. split; [auto|discriminate].
  - destruct (Copy s1 [] Hw1 ltac:(rewrite app_nil_r; exact Hr1) Hb1 Ht1 H)
      as (Ht & tr & Htr & Hopen & Hb & Hok).
    split; [exact Ht|]. exists tr. split; [exact Htr|].
    unfold needs_copy. split; [tauto|]. split; [auto|discriminate].
Qed.

(** [symlink_file] written out: after it has looked at the counterpart
    it makes one call, [symlink] with the target of [link_target], and
    its result is the outcome of that call; without a target it fails. *)
Lemma symlink_file_total (p dest : string) (s : state W) :
  symlink_file p dest s =
  match link_target p (world s) with
  | Some target =>
    let made := os_symlink target dest (world s) in
    Some (fst made,
          record_call (link_looked s p) (snd made)
            (ESymlink target dest (fst made)))
  | None => Some (false, link_looked s p)
  end.
Proof.
  rewrite symlink_file_run. unfold link_target, link_looked. cbv zeta.
  destruct (os_lstat p (world s)) as [sb|]; [|reflexivity].
  destruct (S_ISLNK (st_mode sb)); [|reflexivity].
  destruct (os_readlink p PATH_MAX (world s)); reflexivity.
Qed.

(** The branch of regular files up to the copy or the link. *)
Lemma process_reg_start (fuel : nat) (source dest : string)
    (pd : option string) (sb : stat) (st : state W) :
  let s0 := record_call st (world st) (ELstat source (Some sb)) in
  let start := reg_start st source pd sb in
  process_reg cfg fuel source dest pd sb s0 =
  if needs_copy pd sb (world st)
  then fresh_copy cfg fuel source dest sb start
  else match pd with
       | Some p => symlink_file p dest start
       | None => None
       end.
Proof.
  cbv zeta. unfold process_reg, reg_start, needs_copy.
  assert (Hadd : forall k : M W bool,
            bind (if count_bytes cfg then add_total (st_size sb) else ret tt)
                 (fun _ => k)
                 (record_call st (world st) (ELstat source (Some sb))) =
            k {| world := world st;
                 total_bytes :=
                   total_bytes st +
                   (if count_bytes cfg then st_size sb else 0);
                 bytes_copied := bytes_copied st;
                 trace := trace st ++ [ELstat source (Some sb)] |}).
  { intros k. unfold bind, record_call. destruct (count_bytes cfg).
    - reflexivity.
    - unfold ret. rewrite Z.add_0_r. reflexivity. }
  rewrite Hadd. clear Hadd.
  change (trace st ++ ELstat source (Some sb) :: ?l)
    with (trace st ++ [ELstat source (Some sb)] ++ l).
  destruct pd as [p|]; [|rewrite app_nil_r; reflexivity].
  destruct (force_copy cfg); [rewrite app_nil_r; reflexivity|].
  cbn [orb]. unfold sys_stat. erewrite bind_run by apply query_run.
  unfold record_call. cbn [world total_bytes bytes_copied trace].
  rewrite <- app_assoc.
  destruct (os_stat p (world st)) as [ps|]; [|reflexivity].
  destruct (negb (st_mtime sb =? st_mtime ps)); reflexivity.
Qed.

(** [copy_file(...) && copy_time(...)] and the count, written out. *)
Lemma fresh_copy_run (fuel : nat) (source dest : string) (sb : stat)
    (s : state W) :
  fresh_copy cfg fuel source dest sb s =
  match copy_file fuel source dest sb s with
  | Some (true, s2) =>
    match copy_time dest sb s2 with
    | Some ((r, _), s3) => Some (r, count_copied sb s3)
    | None => None
    end
  | Some (false, s2) => Some (false, count_copied sb s2)
  | None => None
  end.
Proof.
  unfold fresh_copy, bind, count_copied.
  destruct (copy_file fuel source dest sb s) as [[[] s2]|]; [| |reflexivity].
  - destruct (copy_time dest sb s2) as [[[r sb'] s3]|]; [|reflexivity].
    cbn [fst]. unfold ret, add_copied. destruct (count_bytes cfg).
    + reflexivity.
    + rewrite Z.add_0_r. destruct s3; reflexivity.
  - unfold ret, add_copied. destruct (count_bytes cfg).
    + reflexivity.
    + rewrite Z.add_0_r. destruct s2; reflexivity.
Qed.

(** C1, as the code has it.  For a regular source file that is not
    excluded the run is one of two, and which one depends only on the
    condition of the claim ([needs_copy]: no previous root, or a full
    backup is forced, or [stat] of the counterpart fails, or the
    modification times differ).  When it holds, the fresh copy is made:
    [copy_file] runs and, when it returned [true], [copy_time] runs on
    the destination and gives the result; the size is added to the
    copied bytes only when bytes are counted.  When it does not hold,
    nothing is opened or copied: after [lstat] (and [readlink] when the
    counterpart is a link) the one call is [symlink] to the counterpart,
    or to what the counterpart links to, at the destination, and its
    outcome is the result; the copied bytes stay.  In both cases
    the size is added to the total only when bytes are counted. *)
Theorem regular_file_copy_or_link (fuel : nat) (source root : string)
    (prev_root : option string) (st : state W) (sb : stat) :
  os_lstat source (world st) = Some sb ->
  S_ISREG (st_mode sb) = true ->
  excluded cfg source = false ->
  let dest := join_path root source in
  let pd := prev_dest_of prev_root source in
  let start := reg_start st source pd sb in
  (needs_copy pd sb (world st) = true ->
   process_file cfg (S fuel) source root prev_root st =
   match copy_file fuel source dest sb start with
   | Some (true, s2) =>
     match copy_time dest sb s2 with
     | Some ((r, _), s3) => Some (r, count_copied sb s3)
     | None => None
     end
   | Some (false, s2) => Some (false, count_copied sb s2)
   | None => None
   end) /\
  (needs_copy pd sb (world st) = false ->
   exists p ps,
     pd = Some p /\ os_stat p (world st) = Some ps /\
     st_mtime ps = st_mtime sb /\
     process_file cfg (S fuel) source root prev_root st =
     match link_target p (world st) with
     | Some target =>
       let made := os_symlink target dest (world st) in
       Some (fst made,
             record_call (link_looked start p) (snd made)
               (ESymlink target dest (fst made)))
     | None => Some (false, link_looked start p)
     end).
Proof.
  intros Hl Hreg Hex dest pd start.
  rewrite (process_file_entry fuel source root prev_root st sb Hl).
  rewrite Hex, (S_ISREG_not_dir _ Hreg), Hreg.
  rewrite process_reg_start. fold dest pd start. split.
  - intros ->. apply fresh_copy_run.
  - intros Hn. rewrite Hn. unfold needs_copy in Hn.
    destruct pd as [p|]; [|discriminate].
    destruct (force_copy cfg); [discriminate|]. cbn [orb] in Hn.
    destruct (os_stat p (world st)) as [ps|] eqn:Hs; [|discriminate].
    exists p, ps. split; [reflexivity|]. split; [exact Hs|].
    split.
    + apply negb_false_iff, Z.eqb_eq in Hn. auto.
    + rewrite symlink_file_total. reflexivity.
Qed.

(** ** Directories *)

Lemma bind_none {A B : Type} (m : M W A) (k : A -> M W B) (s : state W) :
  m s = None -> bind m k s = None.
Proof. intros H. unfold bind. rewrite H. reflexivity. Qed.

Lemma process_dir_split (fuel : nat) (rec : string -> M W bool)
    (source dest : string) (sb : stat) (s : state W) :
  process_dir fuel rec source dest sb s =
  match enter_dir fuel source dest sb s with
  | None => None
  | Some (None, s0) => Some (false, s0)
  | Some (Some (entries, saved_umask), s0) =>
    match walk rec source entries true s0 with
    | None => None
    | Some (result, s1) =>
      let s2 := record_call s1 (world s1) (EClosedir source) in
      if result then leave_dir dest sb saved_umask s2 else Some (false, s2)
    end
  end.
Proof.
  unfold process_dir, enter_dir, leave_dir.
  cbn [st_mode set_st_mode].
  destruct (sys_umask 0 s) as [[saved s1]|] eqn:E1;
    [|rewrite !(bind_none _ _ _ E1); reflexivity].
  rewrite !(bind_run _ _ _ _ _ E1).
  destruct (rmkdir fuel dest (Z.lor (st_mode sb) S_IRWXU) s1)
    as [[r s2]|] eqn:E2;
    [|rewrite !(bind_none _ _ _ E2); reflexivity].
  rewrite !(bind_run _ _ _ _ _ E2).
  destruct (sys_umask saved s2) as [[u s3]|] eqn:E3.
  2:{ destruct (r <? 0); rewrite !(bind_none _ _ _ E3); reflexivity. }
  destruct (r <? 0).
  { rewrite !(bind_run _ _ _ _ _ E3). reflexivity. }
  rewrite !(bind_run _ _ _ _ _ E3).
  destruct (sys_opendir source s3) as [[dir s4]|] eqn:E4;
    [|rewrite !(bind_none _ _ _ E4); reflexivity].
  rewrite !(bind_run _ _ _ _ _ E4).
  destruct dir as [entries|].
  2:{ rewrite (bind_run _ _ _ _ _ (eq_refl : ret false s4 = Some (false, s4))).
      reflexivity. }
  change (ret (Some (entries, saved)) s4)
    with (Some (Some (entries, saved), s4)).
  cbv iota beta.
  destruct (walk rec source entries true s4) as [[result s5]|] eqn:E5.
  2:{ rewrite (bind_none _ _ _ (bind_none _ _ _ E5)). reflexivity. }
  assert (E6 : bind (walk rec source entries true)
                 (fun r0 => bind (sys_closedir source) (fun _ => ret r0)) s4 =
               Some (result, record_call s5 (world s5) (EClosedir source))).
  { rewrite (bind_run _ _ _ _ _ E5). unfold sys_closedir.
    erewrite bind_run by apply query_run. reflexivity. }
  rewrite (bind_run _ _ _ _ _ E6). cbv zeta.
  destruct result; reflexivity.
Qed.

Lemma walk_stopped (rec : string -> M W bool) (source : string)
    (entries : list string) (s : state W) :
  walk rec source entries false s = Some (false, s).
Proof. destruct entries; reflexivity. Qed.

Lemma walk_app (rec : string -> M W bool) (source : string)
    (l1 l2 : list string) (s : state W) :
  walk rec source (l1 ++ l2) true s =
  match walk rec source l1 true s with
  | Some (true, s1) => walk rec source l2 true s1
  | Some (false, s1) => Some (false, s1)
  | None => None
  end.
Proof.
  revert s. induction l1 as [|name l1 IH]; intros s; [reflexivity|].
  cbn [app walk]. destruct (ignore_dir name); [apply IH|].
  unfold bind. destruct (rec (join_path source name) s) as [[[|] s1]|].
  - apply IH.
  - rewrite !walk_stopped. reflexivity.
  - reflexivity.
Qed.

(** The loop stops at the first child that fails: the names after it
    are never looked at and the state is the one the child left. *)
Lemma walk_fails_fast (rec : string -> M W bool) (source : string)
    (before after : list string) (name : string) (s0 s1 s2 : state W) :
  walk rec source before true s0 = Some (true, s1) ->
  ignore_dir name = false ->
  rec (join_path source name) s1 = Some (false, s2) ->
  walk rec source (before ++ name :: after) true s0 = Some (false, s2).
Proof.
  intros Hb Hi Hc. rewrite walk_app, Hb. cbn [walk]. rewrite Hi.
  rewrite (bind_run _ _ _ _ _ Hc). apply walk_stopped.
Qed.

(** A directory whose child fails: the loop ends at that child and the
    directory fails, with [closedir] as the only further call. *)
Lemma directory_fails_with_child (fuel : nat) (source root : string)
    (prev_root : option string) (st s0 s1 s2 : state W) (sb : stat)
    (before after : list string) (name : string) (saved_umask : Z) :
  let rec := fun child => process_file cfg fuel child root prev_root in
  os_lstat source (world st) = Some sb ->
  S_ISDIR (st_mode sb) = true ->
  excluded cfg source = false ->
  enter_dir fuel source (join_path root source) sb
    (record_call st (world st) (ELstat source (Some sb))) =
    Some (Some (before ++ name :: after, saved_umask), s0) ->
  walk rec source before true s0 = Some (true, s1) ->
  ignore_dir name = false ->
  process_file cfg fuel (join_path source name) root prev_root s1 =
    Some (false, s2) ->
  walk rec source (before ++ name :: after) true s0 = Some (false, s2) /\
  process_file cfg (S fuel) source root prev_root st =
    Some (false, {| world := world s2; total_bytes := total_bytes s2;
                    bytes_copied := bytes_copied s2;
                    trace := trace s2 ++ [EClosedir source] |}).
Proof.
  intros rec Hl Hd Hex Hen Hb Hi Hc.
  pose proof (walk_fails_fast rec source before after name s0 s1 s2 Hb Hi Hc)
    as Hw.
  split; [exact Hw|].
  rewrite (process_file_entry fuel source root prev_root st sb Hl).
  rewrite Hex, Hd. rewrite process_dir_split, Hen. fold rec. rewrite Hw.
  reflexivity.
Qed.

(** ** The previous snapshot *)

Lemma instant_of_spec (d_name : string) (t : Z) :
  instant_of d_name = Some t <->
  ignore_dir d_name = false /\
  exists tmv, strptime d_name (date_format cfg) = Some (tmv, "") /\
              mktime tmv = t.
Proof.
  unfold instant_of. destruct (ignore_dir d_name).
  - split; [discriminate|]. intros [H _]. discriminate.
  - destruct (strptime d_name (date_format cfg)) as [[tmv [|c rest]]|].
    + split.
      * intros H. injection H as <-. split; [reflexivity|].
        exists tmv. auto.
      * intros (_ & tmv' & E & <-). injection E as <-. reflexivity.
    + split; [discriminate|]. intros (_ & tmv' & E & _). discriminate.
    + split; [discriminate|]. intros (_ & tmv' & E & _). discriminate.
Qed.

Lemma locate_loop_step (root d_name : string) (rest : list string)
    (result : option string) (latest : Z) :
  locate_loop cfg root (d_name :: rest) result latest =
  match instant_of d_name with
  | Some current =>
    if current >? latest
    then locate_loop cfg root rest (Some (join_path root d_name)) current
    else locate_loop cfg root rest result latest
  | None => locate_loop cfg root rest result latest
  end.
Proof.
  cbn [locate_loop]. unfold instant_of. destruct (ignore_dir d_name);
    [reflexivity|].
  destruct (strptime d_name (date_format cfg)) as [[tmv [|c rest']]|];
    reflexivity.
Qed.

(** The invariant of the loop: [latest] only grows, it bounds every
    candidate seen, and the result is either the one the loop started
    with or the first candidate that reached the final [latest]. *)
Lemma locate_loop_spec (root : string) (entries : list string) :
  forall (result : option string) (latest : Z),
    let out := locate_loop cfg root entries result latest in
    latest <= snd out /\
    (forall name t, In name entries -> instant_of name = Some t ->
                    t <= snd out) /\
    ((fst out = result /\ snd out = latest) \/
     (exists l1 name l2,
        entries = l1 ++ name :: l2 /\
        instant_of name = Some (snd out) /\
        latest < snd out /\
        fst out = Some (join_path root name) /\
        forall n t, In n l1 -> instant_of n = Some t -> t < snd out)).
Proof.
  induction entries as [|d rest IH]; intros result latest.
  - cbn. split; [lia|]. split; [intros ? ? []|]. left. auto.
  - cbv zeta. rewrite locate_loop_step.
    destruct (instant_of d) as [c|] eqn:Ec.
    + destruct (c >? latest) eqn:Hgt.
      * apply Z.gtb_lt in Hgt.
        specialize (IH (Some (join_path root d)) c). cbv zeta in IH.
        destruct IH as (Hle & Hall & Hres).
        split; [lia|]. split.
        { intros name t [<-|Hin] Ht.
          - rewrite Ec in Ht. injection Ht as <-. exact Hle.
          - eapply Hall; eassumption. }
        right. destruct Hres as [[Hr Hl]|(l1 & name & l2 & He & Hi & Hlt & Hr & Hb)].
        -- exists [], d, rest. rewrite Hl.
           split; [reflexivity|]. split; [exact Ec|]. split; [exact Hgt|].
           split; [exact Hr|]. intros ? ? [].
        -- exists (d :: l1), name, l2.
           split; [rewrite He; reflexivity|]. split; [exact Hi|]. split; [lia|].
           split; [exact Hr|].
           intros n t [<-|Hin] Ht.
           ++ rewrite Ec in Ht. injection Ht as <-. exact Hlt.
           ++ eapply Hb; eassumption.
      * assert (Hc : c <= latest).
        { destruct (Z.gtb_spec c latest); [discriminate|lia]. }
        specialize (IH result latest). cbv zeta in IH.
        destruct IH as (Hle & Hall & Hres).
        split; [exact Hle|]. split.
        { intros name t [<-|Hin] Ht.
          - rewrite Ec in Ht. injection Ht as <-. lia.
          - eapply Hall; eassumption. }
        destruct Hres as [Hres|(l1 & name & l2 & He & Hi & Hlt & Hr & Hb)];
          [left; exact Hres|].
        right. exists (d :: l1), name, l2.
        split; [rewrite He; reflexivity|]. split; [exact Hi|]. split; [exact Hlt|].
        split; [exact Hr|].
        intros n t [<-|Hin] Ht.
        -- rewrite Ec in Ht. injection Ht as <-. lia.
        -- eapply Hb; eassumption.
    + specialize (IH result latest). cbv zeta in IH.
      destruct IH as (Hle & Hall & Hres).
      split; [exact Hle|]. split.
      { intros name t [<-|Hin] Ht.
        - rewrite Ec in Ht. discriminate.
        - eapply Hall; eassumption. }
      destruct Hres as [Hres|(l1 & name & l2 & He & Hi & Hlt & Hr & Hb)];
        [left; exact Hres|].
      right. exists (d :: l1), name, l2.
      split; [rewrite He; reflexivity|]. split; [exact Hi|]. split; [exact Hlt|].
      split; [exact Hr|].
      intros n t [<-|Hin] Ht.
      * rewrite Ec in Ht. discriminate.
      * eapply Hb; eassumption.
Qed.

Lemma locate_previous_run (root : string) (st : state W) :
  locate_previous cfg root st =
  match os_opendir root (world st) with
  | None =>
    Some (None, record_call st (world st) (EOpendir root None))
  | Some entries =>
    Some (fst (locate_loop cfg root entries None 0),
          {| world := world st; total_bytes := total_bytes st;
             bytes_copied := bytes_copied st;
             trace := trace st ++ [EOpendir root (Some entries);
                                   EClosedir root] |})
  end.
Proof.
  unfold locate_previous, sys_opendir, sys_closedir.
  erewrite bind_run by apply query_run.
  destruct (os_opendir root (world st)) as [entries|]; [|reflexivity].
  erewrite bind_run by apply query_run.
  unfold ret, record_call. cbn. rewrite <- app_assoc. reflexivity.
Qed.

(** The locator, relative to what the stack holds.  When the backup root
    cannot be opened the locator returns nothing.  Otherwise the
    candidates are the children other than "." and ".." whose whole name
    [strptime] parses against the date format, and the instant of a
    candidate is what [mktime] makes of the parsed fields together with
    the fields that [stack_tm] held and the parse left alone: this is
    the instant of the name only when those fields held nothing that
    [mktime] reads.  The locator returns nothing exactly when no
    candidate has such an instant above zero, and otherwise the path of
    the first child, in the order of enumeration, that has the greatest
    of them. *)
Theorem locate_previous_latest_after_epoch (root : string) (st : state W) :
  match os_opendir root (world st) with
  | None =>
    locate_previous cfg root st =
    Some (None, record_call st (world st) (EOpendir root None))
  | Some entries =>
    exists r st',
      locate_previous cfg root st = Some (r, st') /\
      world st' = world st /\
      match r with
      | None =>
        forall name t, In name entries -> instant_of name = Some t -> t <= 0
      | Some p =>
        exists l1 name l2 tmv,
          entries = l1 ++ name :: l2 /\
          p = join_path root name /\
          ignore_dir name = false /\
          strptime name (date_format cfg) = Some (tmv, "") /\
          0 < mktime tmv /\
          (forall n t, In n l1 -> instant_of n = Some t -> t < mktime tmv) /\
          (forall n t, In n entries -> instant_of n = Some t ->
                       t <= mktime tmv)
      end
  end.
Proof.
  rewrite locate_previous_run.
  destruct (os_opendir root (world st)) as [entries|]; [|reflexivity].
  eexists _, _. split; [reflexivity|]. split; [reflexivity|].
  pose proof (locate_loop_spec root entries None 0) as H. cbv zeta in H.
  destruct H as (Hle & Hall & [[Hr Hl]|(l1 & name & l2 & He & Hi & Hlt & Hr & Hb)]).
  - rewrite Hr. rewrite Hl in Hall. exact Hall.
  - rewrite Hr.
    apply instant_of_spec in Hi as (Hig & tmv & Hp & Hm).
    exists l1, name, l2, tmv. rewrite Hm.
    repeat split; assumption.
Qed.

(** C10.  The running maximum starts at zero and is replaced only by a
    strictly greater instant: whatever the locator returns is a child
    whose name parses, whole, to an instant strictly after the epoch; and
    when every candidate has an instant at or before the epoch, a single
    candidate included, the locator returns nothing. *)
Theorem locate_previous_only_after_epoch (root : string) (st : state W)
    (entries : list string) :
  os_opendir root (world st) = Some entries ->
  exists r st',
    locate_previous cfg root st = Some (r, st') /\
    (forall p, r = Some p ->
       exists name tmv,
         In name entries /\ p = join_path root name /\
         strptime name (date_format cfg) = Some (tmv, "") /\
         0 < mktime tmv) /\
    ((forall name t, In name entries -> instant_of name = Some t -> t <= 0) ->
     r = None).
Proof.
  intros Hop. rewrite locate_previous_run, Hop.
  eexists _, _. split; [reflexivity|].
  pose proof (locate_loop_spec root entries None 0) as H. cbv zeta in H.
  destruct H as (Hle & Hall & [[Hr Hl]|(l1 & name & l2 & He & Hi & Hlt & Hr & Hb)]).
  - rewrite Hr. split; [discriminate|]. reflexivity.
  - rewrite Hr. split.
    + intros p Hp. injection Hp as <-.
      apply instant_of_spec in Hi as (Hig & tmv & Hp & Hm).
      exists name, tmv. rewrite Hm. repeat split; try assumption.
      rewrite He. apply in_or_app. right. left. reflexivity.
    + intros Hnone. exfalso.
      assert (Hin : In name entries).
      { rewrite He. apply in_or_app. right. left. reflexivity. }
      specialize (Hnone name _ Hin Hi). lia.
Qed.

(** The branch of regular files ends in [fresh_copy] or in
    [symlink_file], started in a state with the world of the start. *)
Lemma process_reg_cases (fuel : nat) (source dest : string)
    (pd : option string) (sb : stat) (s s' : state W) (r : bool) :
  process_reg cfg fuel source dest pd sb s = Some (r, s') ->
  exists s2, world s2 = world s /\
    (fresh_copy cfg fuel source dest sb s2 = Some (r, s') \/
     exists p, pd = Some p /\ symlink_file p dest s2 = Some (r, s')).
Proof.
  unfold process_reg. intros H.
  apply bind_inv in H as (u & s1 & Hu & H).
  assert (Hw1 : world s1 = world s).
  { destruct (count_bytes cfg).
    - unfold add_total in Hu. injection Hu as _ <-. reflexivity.
    - injection Hu as _ <-. reflexivity. }
  destruct pd as [p|]; [|exists s1; auto].
  destruct (force_copy cfg); [exists s1; auto|].
  apply bind_inv in H as (ps & s2 & Hps & H).
  unfold sys_stat in Hps. rewrite query_run in Hps. injection Hps as <- <-.
  exists (record_call s1 (world s1) (EStat p (os_stat p (world s1)))).
  split; [exact Hw1|].
  destruct (os_stat p (world s1)) as [ps|]; [|left; exact H].
  destruct (negb (st_mtime sb =? st_mtime ps)); [left; exact H|].
  right. exists p. split; [reflexivity|exact H].
Qed.

(** For a counterpart that is a symbolic link, [symlink_file] reads the
    link once and gives the new link the string that was read. *)
Lemma symlink_file_reads_one_level (source dest : string) (s : state W)
    (sb : stat) (target : string) :
  os_lstat source (world s) = Some sb ->
  S_ISLNK (st_mode sb) = true ->
  os_readlink source PATH_MAX (world s) = Some target ->
  let r := os_symlink target dest (world s) in
  symlink_file source dest s =
  Some (fst r,
        {| world := snd r; total_bytes := total_bytes s;
           bytes_copied := bytes_copied s;
           trace := trace s ++
             [ELstat source (Some sb);
              EReadlink source PATH_MAX (Some target);
              ESymlink target dest (fst r)] |}).
Proof.
  intros Hl Hlnk Hrl r. rewrite symlink_file_run. cbv zeta.
  rewrite Hl, Hlnk, Hrl. unfold record_call. cbn.
  rewrite <- !app_assoc. reflexivity.
Qed.

End Properties.

(** * Runs on the executable file system *)

Import SimFS.

(** ** Names and kinds are kept *)

Lemma same_kind_refl i : same_kind i i.
Proof. split; reflexivity. Qed.

Lemma same_kind_trans i1 i2 i3 :
  same_kind i1 i2 -> same_kind i2 i3 -> same_kind i1 i3.
Proof. intros [A B] [C D]. split; congruence. Qed.

Lemma same_kind_link i i' :
  same_kind i i' -> S_ISLNK (i_mode i') = S_ISLNK (i_mode i).
Proof. intros [A _]. unfold S_ISLNK. rewrite A. reflexivity. Qed.

Lemma ext_refl fs : ext fs fs.
Proof.
  split.
  - intros p i H. exists i. split; [exact H|apply same_kind_refl].
  - intros p i' H1 H2. congruence.
Qed.

Lemma ext_trans fs1 fs2 fs3 : ext fs1 fs2 -> ext fs2 fs3 -> ext fs1 fs3.
Proof.
  intros [A1 B1] [A2 B2]. split.
  - intros p i H. destruct (A1 p i H) as (i2 & H2 & K2).
    destruct (A2 p i2 H2) as (i3 & H3 & K3).
    exists i3. split; [exact H3|eapply same_kind_trans; eassumption].
  - intros p i3 H1 H3. destruct (fs2 !! p) as [i2|] eqn:E2.
    + destruct (A2 p i2 E2) as (i3' & H3' & K3).
      rewrite H3 in H3'. injection H3' as <-.
      rewrite (same_kind_link _ _ K3). eapply B1; eassumption.
    + eapply B2; eassumption.
Qed.

Lemma ext_update (fs : gmap string inode) q i i' :
  fs !! q = Some i -> same_kind i i' -> ext fs (<[q := i']> fs).
Proof.
  intros Hq K. split.
  - intros p j Hp. destruct (decide (q = p)) as [->|Hne].
    + rewrite lookup_insert_eq. exists i'. split; [reflexivity|].
      congruence.
    + rewrite lookup_insert_ne by exact Hne. exists j.
      split; [exact Hp|apply same_kind_refl].
  - intros p j Hp Hj. destruct (decide (q = p)) as [->|Hne].
    + congruence.
    + rewrite lookup_insert_ne in Hj by exact Hne. congruence.
Qed.

Lemma ext_create (fs : gmap string inode) p i :
  fs !! p = None -> S_ISLNK (i_mode i) = false -> ext fs (<[p := i]> fs).
Proof.
  intros Hp Hl. split.
  - intros q j Hq. destruct (decide (p = q)) as [->|Hne]; [congruence|].
    rewrite lookup_insert_ne by exact Hne. exists j.
    split; [exact Hq|apply same_kind_refl].
  - intros q j Hq Hj. destruct (decide (p = q)) as [->|Hne].
    + rewrite lookup_insert_eq in Hj. injection Hj as <-. exact Hl.
    + rewrite lookup_insert_ne in Hj by exact Hne. congruence.
Qed.

Lemma lookup_follow_Some fs p q i :
  lookup_follow fs p = Some (q, i) -> fs !! q = Some i.
Proof.
  unfold lookup_follow. destruct (resolve SYMLOOP_MAX fs p) as [q'|];
    [|discriminate].
  destruct (fs !! q') as [i'|] eqn:E; [|discriminate].
  intros H. injection H as <- <-. exact E.
Qed.

Lemma perm_type_bits (t x : Z) :
  Z.land (Z.lor (Z.land t S_IFMT) (Z.land x ALLPERMS)) S_IFMT =
  Z.land t S_IFMT.
Proof.
  rewrite Z.land_lor_distr_l, <- !Z.land_assoc, Z.land_diag.
  change (Z.land ALLPERMS S_IFMT) with 0.
  rewrite Z.land_0_r, Z.lor_0_r. reflexivity.
Qed.

Lemma new_type_bits (t x : Z) :
  Z.land t S_IFMT = t ->
  Z.land (Z.lor t (Z.land x ALLPERMS)) S_IFMT = t.
Proof.
  intros Ht. rewrite <- Ht at 1. rewrite perm_type_bits. exact Ht.
Qed.

Lemma create_ext w p i :
  S_ISLNK (i_mode i) = false -> ext (files w) (files (snd (create w p i))).
Proof.
  intros Hl. unfold create, can_create.
  destruct (bool_decide (files w !! p = None)) eqn:E; cbn [andb].
  - apply bool_decide_eq_true in E.
    destruct (is_dir (files w) (sim_dirname p)); cbn.
    + apply ext_create; assumption.
    + apply ext_refl.
  - apply ext_refl.
Qed.

Lemma new_inode_not_link w t perm rdev target :
  Z.land t S_IFMT = t -> t <> S_IFLNK ->
  S_ISLNK (i_mode (new_inode w t perm rdev target)) = false.
Proof.
  intros Ht Hne. unfold S_ISLNK, new_inode. cbn [i_mode].
  rewrite new_type_bits by exact Ht. apply Z.eqb_neq. exact Hne.
Qed.

Lemma sim_utime_ext p a m w : ext (files w) (files (snd (sim_utime p a m w))).
Proof.
  unfold sim_utime. destruct (lookup_follow (files w) p) as [[q i]|] eqn:E;
    [|apply ext_refl].
  destruct (owner_or_root w i); [|apply ext_refl]. cbn.
  eapply ext_update; [eapply lookup_follow_Some; exact E|].
  split; reflexivity.
Qed.

Lemma sim_chown_ext p u g w : ext (files w) (files (snd (sim_chown p u g w))).
Proof.
  unfold sim_chown. destruct (lookup_follow (files w) p) as [[q i]|] eqn:E;
    [|apply ext_refl].
  destruct (may_chown w i u g); [|apply ext_refl]. cbn.
  eapply ext_update; [eapply lookup_follow_Some; exact E|].
  split; reflexivity.
Qed.

Lemma sim_chmod_ext p m w : ext (files w) (files (snd (sim_chmod p m w))).
Proof.
  unfold sim_chmod. destruct (lookup_follow (files w) p) as [[q i]|] eqn:E;
    [|apply ext_refl].
  destruct (owner_or_root w i); [|apply ext_refl]. cbn.
  eapply ext_update; [eapply lookup_follow_Some; exact E|].
  split; [|reflexivity]. cbn [i_mode set_mode]. apply perm_type_bits.
Qed.

Lemma sim_open_rd_ext p w : ext (files w) (files (snd (sim_open_rd p w))).
Proof.
  unfold sim_open_rd. destruct (lookup_follow (files w) p) as [[q i]|];
    apply ext_refl.
Qed.

Lemma sim_open_wr_ext p m w : ext (files w) (files (snd (sim_open_wr p m w))).
Proof.
  unfold sim_open_wr. destruct (lookup_follow (files w) p) as [[q i]|].
  - destruct (S_ISDIR (i_mode i)); apply ext_refl.
  - unfold can_create.
    destruct (bool_decide (files w !! p = None)) eqn:E; cbn [andb];
      [|apply ext_refl].
    apply bool_decide_eq_true in E.
    destruct (is_dir (files w) (sim_dirname p)); [|apply ext_refl].
    cbn. apply ext_create; [exact E|].
    apply new_inode_not_link; [reflexivity|discriminate].
Qed.

Lemma sim_read_ext fd n w : ext (files w) (files (snd (sim_read fd n w))).
Proof.
  unfold sim_read. destruct (fds w !! fd) as [d|]; [|apply ext_refl].
  destruct (files w !! fd_path d) as [i|]; [|apply ext_refl].
  destruct (fd_write d || S_ISDIR (i_mode i)); apply ext_refl.
Qed.

Lemma sim_write_ext fd data w :
  ext (files w) (files (snd (sim_write fd data w))).
Proof.
  unfold sim_write. destruct (fds w !! fd) as [d|]; [|apply ext_refl].
  destruct (files w !! fd_path d) as [i|] eqn:E; [|apply ext_refl].
  destruct (fd_write d); [|apply ext_refl]. cbn.
  eapply ext_update; [exact E|]. split; reflexivity.
Qed.

Lemma one_level_ext fs fs' p : ext fs fs' -> one_level fs p -> one_level fs' p.
Proof.
  intros [A B] H i' Hi' Hl.
  destruct (fs !! p) as [i|] eqn:E.
  - destruct (A p i E) as (i2 & Hi2 & K). rewrite Hi' in Hi2.
    injection Hi2 as <-.
    rewrite (same_kind_link _ _ K) in Hl.
    destruct (H i E Hl) as (Hlen & j & Hj & Hjl).
    destruct K as [_ Kt]. rewrite Kt. split; [exact Hlen|].
    destruct (A _ j Hj) as (j' & Hj' & Kj). exists j'.
    split; [exact Hj'|]. rewrite (same_kind_link _ _ Kj). exact Hjl.
  - rewrite (B p i' E Hi') in Hl. discriminate.
Qed.

(** State-level steps on SimFS *)

Lemma ext_safe fs fs' : ext fs fs' -> safe_step fs fs'.
Proof.
  intros E. split; [exact (proj1 E)|].
  intros q. apply one_level_ext. exact E.
Qed.

Lemma safe_step_refl fs : safe_step fs fs.
Proof. apply ext_safe, ext_refl. Qed.

Lemma safe_step_trans fs1 fs2 fs3 :
  safe_step fs1 fs2 -> safe_step fs2 fs3 -> safe_step fs1 fs3.
Proof.
  intros [K1 O1] [K2 O2]. split; [|auto].
  intros p i H. destruct (K1 p i H) as (i2 & H2 & S2).
  destruct (K2 p i2 H2) as (i3 & H3 & S3). exists i3.
  split; [exact H3|eapply same_kind_trans; eassumption].
Qed.

Lemma sext_refl s : sext s s.
Proof. apply ext_refl. Qed.

Lemma sext_trans s1 s2 s3 : sext s1 s2 -> sext s2 s3 -> sext s1 s3.
Proof. apply ext_trans. Qed.

Lemma call_sext {A : Type} (f : simworld -> A * simworld) (ev : A -> event)
    (s s' : state simworld) (a : A) :
  (forall w, ext (files w) (files (snd (f w)))) ->
  call f ev s = Some (a, s') -> sext s s'.
Proof.
  intros Hf. rewrite call_run. intros H. injection H as _ <-.
  unfold sext. cbn. apply Hf.
Qed.

Lemma copy_time_sext file sb (s s' : state simworld) x :
  copy_time file sb s = Some (x, s') -> sext s s'.
Proof.
  unfold copy_time. intros H.
  apply bind_inv in H as (t & s1 & H1 & H).
  apply bind_inv in H as (o & s2 & H2 & H).
  apply bind_inv in H as (c & s3 & H3 & H).
  injection H as _ <-.
  eapply sext_trans; [|eapply sext_trans].
  - eapply call_sext; [|exact H1]. intros w. apply sim_utime_ext.
  - eapply call_sext; [|exact H2]. intros w. apply sim_chown_ext.
  - eapply call_sext; [|exact H3]. intros w. apply sim_chmod_ext.
Qed.

Lemma close_sext fd (s s' : state simworld) u :
  sys_close fd s = Some (u, s') -> sext s s'.
Proof.
  unfold sys_close. intros H. eapply call_sext; [|exact H].
  intros w. apply ext_refl.
Qed.

Lemma copy_loop_sext fuel fin fout (s s' : state simworld) r :
  copy_loop fuel fin fout s = Some (r, s') -> sext s s'.
Proof.
  revert s. induction fuel as [|n IH]; intros s H; [discriminate|].
  cbn [copy_loop] in H. apply bind_inv in H as (rd & s1 & Hrd & H).
  assert (G1 : sext s s1).
  { eapply call_sext; [|exact Hrd]. intros w. apply sim_read_ext. }
  destruct rd as [[|b bs]|].
  - injection H as _ <-. exact G1.
  - apply bind_inv in H as (wr & s2 & Hwr & H).
    assert (G2 : sext s1 s2).
    { eapply call_sext; [|exact Hwr]. intros w. apply sim_write_ext. }
    destruct (wr =? Z.of_nat (length (b :: bs))).
    + apply IH in H. eapply sext_trans; [exact G1|].
      eapply sext_trans; eassumption.
    + injection H as _ <-. eapply sext_trans; eassumption.
  - injection H as _ <-. exact G1.
Qed.

Lemma copy_file_sext fuel source dest sb (s s' : state simworld) r :
  copy_file fuel source dest sb s = Some (r, s') -> sext s s'.
Proof.
  unfold copy_file. intros H.
  apply bind_inv in H as (i & s1 & Hi & H).
  assert (G1 : sext s s1).
  { eapply call_sext; [|exact Hi]. intros w. apply sim_open_rd_ext. }
  destruct i as [fin|].
  - apply bind_inv in H as (o & s2 & Ho & H).
    assert (G2 : sext s1 s2).
    { eapply call_sext; [|exact Ho]. intros w. apply sim_open_wr_ext. }
    destruct o as [fout|].
    + apply bind_inv in H as (b & s3 & Hb & H).
      assert (G3 : sext s2 s3).
      { eapply call_sext; [|exact Hb]. intros w. apply ext_refl. }
      apply bind_inv in H as (res & s4 & Hres & H).
      assert (G4 : sext s3 s4).
      { destruct b.
        - eapply copy_loop_sext; exact Hres.
        - injection Hres as _ <-. apply sext_refl. }
      apply bind_inv in H as (u1 & s5 & H5 & H). apply close_sext in H5.
      apply bind_inv in H as (u2 & s6 & H6 & H). apply close_sext in H6.
      injection H as _ <-.
      repeat (eapply sext_trans; [eassumption|]). apply sext_refl.
    + apply bind_inv in H as (u1 & s5 & H5 & H).
      apply bind_inv in H as (u2 & s6 & H6 & H). discriminate.
  - apply bind_inv in H as (u1 & s5 & H5 & H). discriminate.
Qed.

Lemma fresh_copy_sext cfg fuel source dest sb (s s' : state simworld) r :
  fresh_copy cfg fuel source dest sb s = Some (r, s') -> sext s s'.
Proof.
  unfold fresh_copy. intros H.
  apply bind_inv in H as (c & s1 & Hc & H). apply copy_file_sext in Hc.
  apply bind_inv in H as (res & s2 & Hres & H).
  apply bind_inv in H as (u & s3 & Hu & H). injection H as _ <-.
  assert (G2 : sext s1 s2).
  { destruct c.
    - apply bind_inv in Hres as (x & s2' & Hct & Hres).
      injection Hres as _ <-. eapply copy_time_sext; exact Hct.
    - injection Hres as _ <-. apply sext_refl. }
  assert (G3 : world s3 = world s2).
  { destruct (count_bytes cfg).
    - unfold add_copied in Hu. injection Hu as _ <-. reflexivity.
    - injection Hu as _ <-. reflexivity. }
  unfold sext. rewrite G3. eapply ext_trans; eassumption.
Qed.

(** ** Link chains *)

Lemma substring_whole (s : string) (n : nat) :
  (String.length s <= n)%nat -> substring 0 n s = s.
Proof.
  revert n. induction s as [|c s IH]; intros n H.
  - destruct n; reflexivity.
  - destruct n as [|n]; [cbn in H; lia|].
    cbn. rewrite IH; [reflexivity|]. cbn in H. lia.
Qed.

Lemma sim_symlink_safe (t dest : string) (w : simworld) (j : inode) :
  files w !! t = Some j -> S_ISLNK (i_mode j) = false ->
  safe_step (files w) (files (snd (sim_symlink t dest w))).
Proof.
  intros Ht Hj. unfold sim_symlink.
  destruct (String.length t <? 4096)%nat eqn:Hlen; [|apply safe_step_refl].
  apply Nat.ltb_lt in Hlen.
  unfold create, can_create.
  destruct (bool_decide (files w !! dest = None)) eqn:E; cbn [andb];
    [|apply safe_step_refl].
  apply bool_decide_eq_true in E.
  destruct (is_dir (files w) (sim_dirname dest)); [|apply safe_step_refl].
  cbn [snd files with_files].
  assert (Hne : dest <> t) by congruence.
  split.
  - intros p i Hp. destruct (decide (dest = p)) as [->|Hd]; [congruence|].
    rewrite lookup_insert_ne by exact Hd. exists i.
    split; [exact Hp|apply same_kind_refl].
  - intros q Hq i Hi Hl. destruct (decide (dest = q)) as [->|Hd].
    + rewrite lookup_insert_eq in Hi. injection Hi as <-.
      cbn [i_target]. split; [exact Hlen|].
      exists j. rewrite lookup_insert_ne by exact Hne. auto.
    + rewrite lookup_insert_ne in Hi by exact Hd.
      destruct (Hq i Hi Hl) as (Hlen' & k & Hk & Hkl).
      split; [exact Hlen'|]. exists k.
      rewrite lookup_insert_ne by congruence. auto.
Qed.

(** On SimFS the link made by [symlink_file] for a counterpart that is at
    most one level deep points at a file that is not a link. *)
Lemma symlink_file_safe (p dest : string) (s s' : state simworld) (r : bool) :
  one_level (files (world s)) p ->
  symlink_file p dest s = Some (r, s') ->
  safe_step (files (world s)) (files (world s')).
Proof.
  intros Hone. rewrite symlink_file_run. cbv zeta.
  change (os_lstat p (world s)) with (sim_lstat p (world s)).
  unfold sim_lstat.
  destruct (files (world s) !! p) as [i|] eqn:Ei; cbn [fmap option_fmap option_map].
  2:{ intros H. injection H as _ <-. apply safe_step_refl. }
  change (st_mode (stat_of i)) with (i_mode i).
  destruct (S_ISLNK (i_mode i)) eqn:Hl.
  - destruct (Hone i Ei Hl) as (Hlen & j & Hj & Hjl).
    change (os_readlink p PATH_MAX (world s))
      with (sim_readlink p 4096 (world s)).
    unfold sim_readlink. rewrite Ei, Hl.
    rewrite substring_whole by (change (Z.to_nat 4096) with 4096%nat; lia).
    intros H. injection H as _ <-. cbn [record_call world].
    eapply sim_symlink_safe; eassumption.
  - intros H. injection H as _ <-. cbn [record_call world].
    eapply sim_symlink_safe; [exact Ei|exact Hl].
Qed.

Lemma same_kind_reg i i' :
  same_kind i i' -> S_ISREG (i_mode i') = S_ISREG (i_mode i).
Proof. intros [A _]. unfold S_ISREG. rewrite A. reflexivity. Qed.

(** One run on a regular source file. *)
Lemma process_file_regular_safe (cfg : config) (fuel : nat)
    (source root : string) (prev : option string)
    (st st' : state simworld) (r : bool) (i : inode) :
  files (world st) !! source = Some i ->
  S_ISREG (i_mode i) = true ->
  (forall q, prev = Some q ->
             one_level (files (world st)) (join_path q source)) ->
  process_file cfg fuel source root prev st = Some (r, st') ->
  safe_step (files (world st)) (files (world st')).
Proof.
  intros Hi Hreg Hprev Hrun. destruct fuel as [|n]; [discriminate|].
  assert (Hl : os_lstat source (world st) = Some (stat_of i)).
  { change (os_lstat source (world st)) with (sim_lstat source (world st)).
    unfold sim_lstat. rewrite Hi. reflexivity. }
  rewrite (process_file_entry cfg n source root prev st _ Hl) in Hrun.
  destruct (excluded cfg source).
  { injection Hrun as _ <-. apply safe_step_refl. }
  change (st_mode (stat_of i)) with (i_mode i) in Hrun.
  rewrite (S_ISREG_not_dir _ Hreg), Hreg in Hrun.
  apply process_reg_cases in Hrun as (s2 & Hw2 & [Hc|(p & Hp & Hs)]).
  - apply fresh_copy_sext in Hc. unfold sext in Hc. rewrite Hw2 in Hc.
    apply ext_safe. exact Hc.
  - cbn [record_call world] in Hw2. rewrite <- Hw2.
    eapply symlink_file_safe; [|exact Hs].
    rewrite Hw2. destruct prev as [q|]; [|discriminate].
    injection Hp as <-. apply Hprev. reflexivity.
Qed.

Lemma generations_safe (cfg : config) (fuel : nat) (source : string)
    (roots : list string) :
  forall (prev : option string) (st st' : state simworld) (i : inode),
    files (world st) !! source = Some i ->
    S_ISREG (i_mode i) = true ->
    (forall q, prev = Some q ->
               one_level (files (world st)) (join_path q source)) ->
    (forall root, In root roots ->
                  one_level (files (world st)) (join_path root source)) ->
    generations cfg fuel source prev roots st = Some st' ->
    safe_step (files (world st)) (files (world st')).
Proof.
  induction roots as [|root rest IH]; intros prev st st' i Hi Hreg Hp Hr Hg.
  - injection Hg as <-. apply safe_step_refl.
  - cbn [generations] in Hg.
    destruct (process_file cfg fuel source root prev st) as [[r st1]|] eqn:E;
      [|discriminate].
    pose proof (process_file_regular_safe _ _ _ _ _ _ _ _ _ Hi Hreg Hp E)
      as [K O].
    destruct (K _ _ Hi) as (i1 & Hi1 & S1).
    assert (Hreg1 : S_ISREG (i_mode i1) = true)
      by (rewrite (same_kind_reg _ _ S1); exact Hreg).
    eapply safe_step_trans; [split; [exact K|exact O]|].
    eapply (IH (Some root) st1 st' i1 Hi1 Hreg1); [| |exact Hg].
    + intros q Hq. injection Hq as <-. apply O, Hr. left. reflexivity.
    + intros x Hx. apply O, Hr. right. exact Hx.
Qed.

Lemma one_level_depth (fs : gmap string inode) (p : string) (n : nat) :
  one_level fs p -> (link_depth n fs p <= 1)%nat.
Proof.
  intros H. destruct n as [|n]; [cbn; lia|]. cbn [link_depth].
  destruct (fs !! p) as [i|] eqn:Ei; [|lia].
  destruct (S_ISLNK (i_mode i)) eqn:Hl; [|lia].
  destruct (H i Ei Hl) as (_ & j & Hj & Hjl).
  destruct n as [|n]; [cbn; lia|]. cbn [link_depth]. rewrite Hj, Hjl. lia.
Qed.

Lemma one_level_absent (fs : gmap string inode) (p : string) :
  fs !! p = None -> one_level fs p.
Proof. intros H i Hi. congruence. Qed.

(** C2.  When the counterpart in the previous snapshot is a symbolic
    link, [symlink_file] reads it once and the new link gets the target
    of the counterpart, not the path of the counterpart.  So, for a
    regular source file and any sequence of snapshot roots that hold no
    entry for it yet, after the runs on these roots in turn, each with
    the root before it as previous snapshot, the entry of the file under
    every root is at most one link away from a file: if it is a symbolic
    link, its target exists and is not a symbolic link. *)
Theorem link_chains_stay_one_level (cfg : config) (fuel : nat)
    (source : string) (roots : list string) (st st' : state simworld)
    (i : inode) :
  files (world st) !! source = Some i ->
  S_ISREG (i_mode i) = true ->
  (forall root, In root roots ->
                files (world st) !! join_path root source = None) ->
  generations cfg fuel source None roots st = Some st' ->
  (forall (pd dest : string) (lnk : inode) (s : state simworld),
     files (world s) !! pd = Some lnk ->
     S_ISLNK (i_mode lnk) = true ->
     (String.length (i_target lnk) < 4096)%nat ->
     exists ok s',
       symlink_file pd dest s = Some (ok, s') /\
       trace s' = trace s ++
         [ELstat pd (Some (stat_of lnk));
          EReadlink pd 4096 (Some (i_target lnk));
          ESymlink (i_target lnk) dest ok]) /\
  (forall root, In root roots ->
     (forall n,
        (link_depth n (files (world st')) (join_path root source) <= 1)%nat) /\
     (forall e,
        files (world st') !! join_path root source = Some e ->
        S_ISLNK (i_mode e) = true ->
        exists t, files (world st') !! i_target e = Some t /\
                  S_ISLNK (i_mode t) = false)).
Proof.
  intros Hi Hreg Habs Hg. split.
  - intros pd dest lnk s Hl Hlnk Hlen.
    eexists _, _. split.
    + apply (symlink_file_reads_one_level pd dest s (stat_of lnk)
               (i_target lnk)).
      * change (os_lstat pd (world s)) with (sim_lstat pd (world s)).
        unfold sim_lstat. rewrite Hl. reflexivity.
      * exact Hlnk.
      * change (os_readlink pd PATH_MAX (world s))
          with (sim_readlink pd 4096 (world s)).
        unfold sim_readlink. rewrite Hl, Hlnk.
        rewrite substring_whole
          by (change (Z.to_nat 4096) with 4096%nat; lia).
        reflexivity.
    + reflexivity.
  - intros root Hin.
    assert (Hone : one_level (files (world st')) (join_path root source)).
    { eapply (generations_safe cfg fuel source roots None st st' i);
        try eassumption.
      - discriminate.
      - intros x Hx. apply one_level_absent, Habs, Hx.
      - apply one_level_absent, Habs, Hin. }
    split.
    + intros n. apply one_level_depth. exact Hone.
    + intros e He Hl. destruct (Hone e He Hl) as (_ & t & Ht & Htl). eauto.
Qed.

(** ** Nothing is removed *)

Lemma keeps_refl fs : keeps fs fs.
Proof. intros p i H. exists i. split; [exact H|apply same_kind_refl]. Qed.

Lemma keeps_trans fs1 fs2 fs3 : keeps fs1 fs2 -> keeps fs2 fs3 -> keeps fs1 fs3.
Proof.
  intros K1 K2 p i H. destruct (K1 p i H) as (i2 & H2 & S2).
  destruct (K2 p i2 H2) as (i3 & H3 & S3). exists i3.
  split; [exact H3|eapply same_kind_trans; eassumption].
Qed.

Lemma keeps_insert_new (fs : gmap string inode) p i :
  fs !! p = None -> keeps fs (<[p := i]> fs).
Proof.
  intros Hp q j Hq. destruct (decide (p = q)) as [->|Hne]; [congruence|].
  rewrite lookup_insert_ne by exact Hne. exists j.
  split; [exact Hq|apply same_kind_refl].
Qed.

Lemma create_keeps w p i : keeps (files w) (files (snd (create w p i))).
Proof.
  unfold create, can_create.
  destruct (bool_decide (files w !! p = None)) eqn:E; cbn [andb];
    [|apply keeps_refl].
  apply bool_decide_eq_true in E.
  destruct (is_dir (files w) (sim_dirname p)); cbn;
    [apply keeps_insert_new; exact E|apply keeps_refl].
Qed.

Lemma sim_symlink_keeps t p w : keeps (files w) (files (snd (sim_symlink t p w))).
Proof.
  unfold sim_symlink. destruct (String.length t <? 4096)%nat;
    [apply create_keeps|apply keeps_refl].
Qed.

Lemma sim_mknod_keeps p m r w : keeps (files w) (files (snd (sim_mknod p m r w))).
Proof.
  unfold sim_mknod.
  destruct ((Z.land m S_IFMT =? S_IFDIR) || (Z.land m S_IFMT =? S_IFLNK));
    [apply keeps_refl|].
  destruct (((Z.land m S_IFMT =? S_IFCHR) || (Z.land m S_IFMT =? S_IFBLK)) &&
            negb (euid w =? 0));
    [apply keeps_refl|apply create_keeps].
Qed.

Lemma sim_lchown_keeps p u g w : keeps (files w) (files (snd (sim_lchown p u g w))).
Proof.
  unfold sim_lchown. destruct (files w !! p) as [i|] eqn:E; [|apply keeps_refl].
  destruct (may_chown w i u g); [|apply keeps_refl]. cbn.
  assert (K : same_kind i (set_owner i u g)) by (split; reflexivity).
  exact (proj1 (ext_update _ _ _ _ E K)).
Qed.

Lemma skeeps_refl s : skeeps s s.
Proof. apply keeps_refl. Qed.

Lemma skeeps_trans s1 s2 s3 : skeeps s1 s2 -> skeeps s2 s3 -> skeeps s1 s3.
Proof. apply keeps_trans. Qed.

Lemma sext_skeeps s s' : sext s s' -> skeeps s s'.
Proof. intros [K _]. exact K. Qed.

Lemma call_skeeps {A : Type} (f : simworld -> A * simworld) (ev : A -> event)
    (s s' : state simworld) (a : A) :
  (forall w, keeps (files w) (files (snd (f w)))) ->
  call f ev s = Some (a, s') -> skeeps s s'.
Proof.
  intros Hf. rewrite call_run. intros H. injection H as _ <-.
  unfold skeeps. cbn. apply Hf.
Qed.

Lemma query_skeeps {A : Type} (f : simworld -> A) (ev : A -> event)
    (s s' : state simworld) (a : A) :
  query f ev s = Some (a, s') -> skeeps s s'.
Proof.
  rewrite query_run. intros H. injection H as _ <-. apply keeps_refl.
Qed.

Lemma rmkdir_skeeps fuel path mode (s s' : state simworld) r :
  rmkdir fuel path mode s = Some (r, s') -> skeeps s s'.
Proof.
  revert path s s' r. induction fuel as [|n IH]; intros path s s' r H;
    [discriminate|].
  cbn [rmkdir] in H.
  apply bind_inv in H as (ps & s1 & Hps & H). apply query_skeeps in Hps.
  apply bind_inv in H as (pr & s2 & Hpr & H).
  apply rmkdir_done in H as [_ H].
  assert (G2 : skeeps s1 s2).
  { destruct ps.
    - injection Hpr as _ <-. apply skeeps_refl.
    - eapply IH; exact Hpr. }
  assert (Hmk : forall s3 x s4,
            bind (sys_mkdir path mode)
                 (fun ok : bool => ret (if ok then 0 else -1)) s3 =
            Some (x, s4) -> skeeps s3 s4).
  { intros s3 x s4 Hm. apply bind_inv in Hm as (ok & s5 & Hok & Hm).
    injection Hm as _ <-. eapply call_skeeps; [|exact Hok].
    intros w. apply create_keeps. }
  destruct (pr <? 0).
  - injection H as _ <-. eapply skeeps_trans; eassumption.
  - apply bind_inv in H as (sb & s3 & Hsb & H). apply query_skeeps in Hsb.
    eapply skeeps_trans; [exact Hps|]. eapply skeeps_trans; [exact G2|].
    eapply skeeps_trans; [exact Hsb|].
    destruct sb as [sb|].
    + destruct (S_ISDIR (st_mode sb)).
      * injection H as _ <-. apply skeeps_refl.
      * eapply Hmk; exact H.
    + eapply Hmk; exact H.
Qed.

Lemma symlink_file_skeeps p dest (s s' : state simworld) r :
  symlink_file p dest s = Some (r, s') -> skeeps s s'.
Proof.
  rewrite symlink_file_run. cbv zeta.
  destruct (os_lstat p (world s)) as [sb|].
  - destruct (S_ISLNK (st_mode sb)).
    + destruct (os_readlink p PATH_MAX (world s)) as [t|].
      * intros H. injection H as _ <-. apply sim_symlink_keeps.
      * intros H. injection H as _ <-. apply keeps_refl.
    + intros H. injection H as _ <-. apply sim_symlink_keeps.
  - intros H. injection H as _ <-. apply keeps_refl.
Qed.

Lemma process_special_skeeps source dest sb (s s' : state simworld) r :
  process_special source dest sb s = Some (r, s') -> skeeps s s'.
Proof.
  unfold process_special. intros H.
  destruct (S_ISFIFO (st_mode sb)).
  { eapply call_skeeps; [|exact H]. intros w. apply create_keeps. }
  destruct (S_ISLNK (st_mode sb)).
  - apply bind_inv in H as (t & s1 & Ht & H). apply query_skeeps in Ht.
    destruct t as [buffer|].
    + apply bind_inv in H as (l & s2 & Hl & H).
      assert (G : skeeps s1 s2).
      { eapply call_skeeps; [|exact Hl]. intros w. apply sim_symlink_keeps. }
      eapply skeeps_trans; [exact Ht|]. eapply skeeps_trans; [exact G|].
      destruct l.
      * eapply call_skeeps; [|exact H]. intros w. apply sim_lchown_keeps.
      * injection H as _ <-. apply skeeps_refl.
    + injection H as _ <-. exact Ht.
  - eapply call_skeeps; [|exact H]. intros w. apply sim_mknod_keeps.
Qed.

Lemma process_reg_skeeps cfg fuel source dest pd sb (s s' : state simworld) r :
  process_reg cfg fuel source dest pd sb s = Some (r, s') -> skeeps s s'.
Proof.
  intros H. apply process_reg_cases in H as (s2 & Hw & [Hc|(p & _ & Hs)]).
  - apply fresh_copy_sext, sext_skeeps in Hc. unfold skeeps in *.
    rewrite <- Hw. exact Hc.
  - apply symlink_file_skeeps in Hs. unfold skeeps in *.
    rewrite <- Hw. exact Hs.
Qed.

Lemma walk_skeeps (rec : string -> M simworld bool) source entries :
  (forall child s s' r, rec child s = Some (r, s') -> skeeps s s') ->
  forall result s s' r,
    walk rec source entries result s = Some (r, s') -> skeeps s s'.
Proof.
  intros Hrec. induction entries as [|name rest IH]; intros result s s' r H.
  - injection H as _ <-. apply skeeps_refl.
  - cbn [walk] in H. destruct result.
    + destruct (ignore_dir name); [eapply IH; exact H|].
      apply bind_inv in H as (r1 & s1 & H1 & H).
      eapply skeeps_trans; [eapply Hrec; exact H1|eapply IH; exact H].
    + injection H as _ <-. apply skeeps_refl.
Qed.

Lemma enter_dir_skeeps fuel source dest sb (s s' : state simworld) x :
  enter_dir fuel source dest sb s = Some (x, s') -> skeeps s s'.
Proof.
  unfold enter_dir. intros H.
  apply bind_inv in H as (saved & s1 & H1 & H).
  assert (G1 : skeeps s s1).
  { eapply call_skeeps; [|exact H1]. intros w. apply keeps_refl. }
  apply bind_inv in H as (r & s2 & H2 & H). apply rmkdir_skeeps in H2.
  apply bind_inv in H as (u & s3 & H3 & H).
  assert (G3 : skeeps s2 s3).
  { eapply call_skeeps; [|exact H3]. intros w. apply keeps_refl. }
  eapply skeeps_trans; [exact G1|]. eapply skeeps_trans; [exact H2|].
  eapply skeeps_trans; [exact G3|].
  destruct (r <? 0).
  - injection H as _ <-. apply skeeps_refl.
  - apply bind_inv in H as (d & s4 & H4 & H). apply query_skeeps in H4.
    destruct d; injection H as _ <-; exact H4.
Qed.

Lemma leave_dir_skeeps dest sb saved (s s' : state simworld) r :
  leave_dir dest sb saved s = Some (r, s') -> skeeps s s'.
Proof.
  unfold leave_dir. intros H.
  apply bind_inv in H as (c & s1 & H1 & H).
  assert (G1 : skeeps s s1).
  { eapply call_skeeps; [|exact H1]. intros w.
    exact (proj1 (sim_chmod_ext _ _ w)). }
  eapply skeeps_trans; [exact G1|]. destruct c.
  - apply bind_inv in H as (t & s2 & H2 & H). injection H as _ <-.
    apply copy_time_sext, sext_skeeps in H2. exact H2.
  - injection H as _ <-. apply skeeps_refl.
Qed.

(** On the executable file system no run of [process_file], whether it
    succeeds or fails, removes a name or changes its kind. *)
Lemma process_file_skeeps cfg fuel :
  forall source root prev (s s' : state simworld) r,
    process_file cfg fuel source root prev s = Some (r, s') -> skeeps s s'.
Proof.
  induction fuel as [|n IH]; intros source root prev s s' r H;
    [discriminate|].
  destruct (os_lstat source (world s)) as [sb|] eqn:Hl.
  - rewrite (process_file_entry cfg n source root prev s sb Hl) in H.
    destruct (excluded cfg source).
    { injection H as _ <-. apply keeps_refl. }
    destruct (S_ISDIR (st_mode sb)).
    { rewrite process_dir_split in H.
      destruct (enter_dir n source (join_path root source) sb _)
        as [[[[entries saved]|] s0]|] eqn:He; [| |discriminate].
      - apply enter_dir_skeeps in He.
        destruct (walk _ source entries true s0) as [[res s1]|] eqn:Hw;
          [|discriminate].
        apply (walk_skeeps _ source entries
                 (fun child a b c => IH child root prev a b c)) in Hw.
        cbv zeta in H.
        assert (G : skeeps s s1).
        { eapply skeeps_trans; [|eapply skeeps_trans; [exact He|exact Hw]].
          apply keeps_refl. }
        destruct res.
        + apply leave_dir_skeeps in H.
          eapply skeeps_trans; [exact G|exact H].
        + injection H as _ <-. exact G.
      - injection H as _ <-. apply enter_dir_skeeps in He. exact He. }
    destruct (S_ISREG (st_mode sb)).
    { apply process_reg_skeeps in H. exact H. }
    destruct (is_special (st_mode sb)).
    + apply process_special_skeeps in H. exact H.
    + injection H as _ <-. apply keeps_refl.
  - rewrite (process_file_lstat_fails cfg n source root prev s Hl) in H.
    injection H as _ <-. apply keeps_refl.
Qed.

(** C9.  In a directory that was entered, when the children before
    [name] were processed with success and the processing of [name]
    fails, the loop ends there with failure, and the directory itself
    fails; from the state [s2] that the failing child left, the only
    further call is [closedir]: no later sibling is processed, neither
    [chmod] nor [copy_time] is applied to the directory, and the world is
    the one the failing child left.  The failure has the form of the
    hypothesis on the child, so it propagates in the same way to the
    parent of the directory.  Nothing undoes what was made before: on
    the executable file system every name that exists before a run of
    [process_file] exists after it, with the same kind. *)
Theorem child_failure_aborts_directory {W : Type} {os : OS W}
    (cfg : config) (fuel : nat) (source root : string)
    (prev_root : option string) (st s0 s1 s2 : state W) (sb : stat)
    (before after : list string) (name : string) (saved_umask : Z) :
  let rec := fun child => process_file cfg fuel child root prev_root in
  os_lstat source (world st) = Some sb ->
  S_ISDIR (st_mode sb) = true ->
  excluded cfg source = false ->
  enter_dir fuel source (join_path root source) sb
    (record_call st (world st) (ELstat source (Some sb))) =
    Some (Some (before ++ name :: after, saved_umask), s0) ->
  walk rec source before true s0 = Some (true, s1) ->
  ignore_dir name = false ->
  process_file cfg fuel (join_path source name) root prev_root s1 =
    Some (false, s2) ->
  walk rec source (before ++ name :: after) true s0 = Some (false, s2) /\
  process_file cfg (S fuel) source root prev_root st =
    Some (false, {| world := world s2; total_bytes := total_bytes s2;
                    bytes_copied := bytes_copied s2;
                    trace := trace s2 ++ [EClosedir source] |}) /\
  (forall (cfg' : config) (fuel' : nat) (source' root' : string)
          (prev' : option string) (a b : state simworld) (r : bool),
     process_file cfg' fuel' source' root' prev' a = Some (r, b) ->
     forall p i, files (world a) !! p = Some i ->
       exists i', files (world b) !! p = Some i' /\ same_kind i i').
Proof.
  intros rec Hl Hd Hex Hen Hb Hi Hc.
  destruct (directory_fails_with_child cfg fuel source root prev_root
              st s0 s1 s2 sb before after name saved_umask
              Hl Hd Hex Hen Hb Hi Hc) as [Hw Hp].
  split; [exact Hw|]. split; [exact Hp|].
  intros cfg' fuel' source' root' prev' a b r Hrun.
  exact (process_file_skeeps cfg' fuel' source' root' prev' a b r Hrun).
Qed.

(** ** The program on the small tree *)

(** C3.  The copy of [/a.txt], whose [st_blksize] is 4096: the buffer is
    requested with 4096 bytes, and each [read] asks for 8, the size of a
    pointer. *)
Theorem copy_file_reads_pointer_size_chunks :
  st_blksize <$> os_lstat "/a.txt" demo = Some 4096 /\
  outcome (copy_file 3 "/a.txt" "/backup/T1/a.txt"
             (stat_of (reg_inode 1000 0x1A4 100 ["X"%byte])) (init demo)) =
  Some (true,
        [EOpenRd "/a.txt" (Some 3);
         EOpenWr "/backup/T1/a.txt" (Z.lor S_IFREG 0x1A4) (Some 4);
         EMalloc 4096 true;
         ERead 3 8 (Some ["X"%byte]);
         EWrite 4 ["X"%byte] 1;
         ERead 3 8 (Some []);
         EClose 3; EClose 4], 0, 0).
Proof. split; vm_compute; reflexivity. Qed.

(** C5.  The directory [/ro] has mode 0555 (0x16D).  Its copy is made
    with mode 0755 (0x1ED), and both the [chmod] after the loop and the
    [chmod] of [copy_time] are given 0755 again: the copy keeps the
    owner's write permission, which the source does not have. *)
Theorem read_only_directory_copied_writable :
  let run := process_file default_config 2 "/ro" "/backup/T1" None
               (init demo) in
  outcome run =
  Some (true,
        [ELstat "/ro" (Some (stat_of (dir_inode 1000 0x16D)));
         EUmask 0 0x12;
         EStat "/backup/T1" (Some (stat_of (dir_inode 1000 0x1ED)));
         EStat "/backup/T1/ro" None;
         EMkdir "/backup/T1/ro" (Z.lor S_IFDIR 0x1ED) true;
         EUmask 0x12 0;
         EOpendir "/ro" (Some ["."; ".."]);
         EClosedir "/ro";
         EChmod "/backup/T1/ro" (Z.lor S_IFDIR 0x1ED) true;
         EUtime "/backup/T1/ro" 50 50 true;
         EChown "/backup/T1/ro" 1000 1000 true;
         EChmod "/backup/T1/ro" (Z.lor S_IFDIR 0x1ED) true], 0, 0) /\
  mode_after run "/backup/T1/ro" = Some (Z.lor S_IFDIR 0x1ED) /\
  Z.lor S_IFDIR 0x1ED <> clear_bits (Z.lor S_IFDIR 0x16D) 0x12.
Proof.
  cbv zeta. split; [vm_compute; reflexivity|].
  split; [vm_compute; reflexivity|]. vm_compute. discriminate.
Qed.

(** C1 does not hold as stated: without byte counting, [/a.txt] (one
    byte) is copied afresh and the copied-bytes counter is not the old
    one plus the size; it stays at zero. *)
Lemma fresh_copy_not_counted_without_flag :
  let run := process_file default_config 3 "/a.txt" "/backup/T1" None
               (init demo) in
  st_size <$> os_lstat "/a.txt" demo = Some 1 /\
  outcome run =
  Some (true,
        [ELstat "/a.txt"
           (Some (stat_of (reg_inode 1000 0x1A4 100 ["X"%byte])));
         EOpenRd "/a.txt" (Some 3);
         EOpenWr "/backup/T1/a.txt" (Z.lor S_IFREG 0x1A4) (Some 4);
         EMalloc 4096 true;
         ERead 3 8 (Some ["X"%byte]);
         EWrite 4 ["X"%byte] 1;
         ERead 3 8 (Some []);
         EClose 3; EClose 4;
         EUtime "/backup/T1/a.txt" 100 100 true;
         EChown "/backup/T1/a.txt" 1000 1000 true;
         EChmod "/backup/T1/a.txt" (Z.lor S_IFREG 0x1A4) true], 0, 0) /\
  bytes_copied (final_state run (init demo)) <>
    bytes_copied (init demo) + 1.
Proof.
  cbv zeta. split; [vm_compute; reflexivity|].
  split; [vm_compute; reflexivity|]. vm_compute. discriminate.
Qed.

(** The start at zero on the small tree, with a stack of zeros: the only
    child of [/old] is named for the epoch; its whole name parses, to the
    instant 0, the greatest of all candidates, and the locator returns
    nothing. *)
Lemma epoch_snapshot_not_located :
  os_opendir "/old" demo = Some ["."; ".."; "01-01-70-00-00-00"] /\
  strptime "01-01-70-00-00-00" (date_format default_config) =
    Some (mktm 0 0 0 1 0 70 0, "") /\
  mktime (mktm 0 0 0 1 0 70 0) = 0 /\
  outcome (locate_previous default_config "/old" (init demo)) =
  Some (None,
        [EOpendir "/old" (Some ["."; ".."; "01-01-70-00-00-00"]);
         EClosedir "/old"], 0, 0).
Proof. repeat split; vm_compute; reflexivity. Qed.

(** C6 does not hold of the code.  [locate_previous] declares
    [struct tm t] without a value, [strptime] with the date format
    writes six of its fields and leaves [tm_isdst] as the stack had it,
    and [mktime] reads that field: when it is positive, in a zone
    without daylight saving time, the instant comes out an hour early.
    In [/hour] the whole names of both children parse, to instants 42
    minutes and 5 seconds apart; with zeros on the stack the locator
    returns the later one, and with [tm_isdst] at 1 in the iteration
    that reads the later one, the first to be enumerated, it returns the
    earlier one, which is not the candidate whose parsed instant is
    maximal.  In [/dawn] the only child is a validly named snapshot half
    an hour after the epoch; with zeros on the stack it is returned, and
    with [tm_isdst] at 1 the locator returns nothing. *)
Theorem locate_previous_misses_latest :
  let fmt := date_format default_config in
  let hour := ["."; ".."; "11-02-26-13-42-05"; "11-02-26-13-00-00"] in
  let dawn := ["."; ".."; "01-01-70-00-30-00"] in
  os_opendir "/hour" demo_hour = Some hour /\
  os_opendir "/dawn" demo_hour = Some dawn /\
  (@strptime simworld sim_os "11-02-26-13-00-00" fmt =
     Some (mktm 0 0 13 2 10 126 0, "") /\
   @strptime simworld sim_os "11-02-26-13-42-05" fmt =
     Some (mktm 5 42 13 2 10 126 0, "") /\
   @strptime simworld sim_os "01-01-70-00-30-00" fmt =
     Some (mktm 0 30 0 1 0 70 0, "") /\
   sim_mktime (mktm 0 0 13 2 10 126 0) = 1793624400 /\
   sim_mktime (mktm 5 42 13 2 10 126 0) = 1793626925 /\
   sim_mktime (mktm 0 30 0 1 0 70 0) = 1800) /\
  (outcome (@locate_previous simworld sim_os default_config "/hour"
              (init demo_hour)) =
     Some (Some "/hour/11-02-26-13-42-05",
           [EOpendir "/hour" (Some hour); EClosedir "/hour"], 0, 0) /\
   outcome (@locate_previous simworld sim_os default_config "/dawn"
              (init demo_hour)) =
     Some (Some "/dawn/01-01-70-00-30-00",
           [EOpendir "/dawn" (Some dawn); EClosedir "/dawn"], 0, 0)) /\
  (@strptime simworld (sim_os_on dst_stack) "11-02-26-13-00-00" fmt =
     Some (mktm 0 0 13 2 10 126 0, "") /\
   @strptime simworld (sim_os_on dst_stack) "11-02-26-13-42-05" fmt =
     Some (mktm 5 42 13 2 10 126 1, "") /\
   @strptime simworld (sim_os_on dst_stack) "01-01-70-00-30-00" fmt =
     Some (mktm 0 30 0 1 0 70 1, "") /\
   sim_mktime (mktm 5 42 13 2 10 126 1) = 1793623325 /\
   sim_mktime (mktm 0 30 0 1 0 70 1) = -1800) /\
  outcome (@locate_previous simworld (sim_os_on dst_stack) default_config
             "/hour" (init demo_hour)) =
    Some (Some "/hour/11-02-26-13-00-00",
          [EOpendir "/hour" (Some hour); EClosedir "/hour"], 0, 0) /\
  outcome (@locate_previous simworld (sim_os_on dst_stack) default_config
             "/dawn" (init demo_hour)) =
    Some (None, [EOpendir "/dawn" (Some dawn); EClosedir "/dawn"], 0, 0).
Proof. cbv zeta. repeat split; vm_compute; reflexivity. Qed.

(** C8 does not hold as stated: [/lnk] belongs to the superuser; its
    copy is made, with the same target, but [lchown] is refused to the
    user, and that failure alone makes the entry fail. *)
Lemma symlink_entry_fails_when_lchown_fails :
  let run := process_file default_config 1 "/lnk" "/backup/T1" None
               (init demo) in
  outcome run =
  Some (false,
        [ELstat "/lnk" (Some (stat_of (lnk_inode 0 "a.txt")));
         EReadlink "/lnk" 4096 (Some "a.txt");
         ESymlink "a.txt" "/backup/T1/lnk" true;
         ELchown "/backup/T1/lnk" 0 0 false], 0, 0) /\
  mode_after run "/backup/T1/lnk" = Some (Z.lor S_IFLNK 0x1FF).
Proof. cbv zeta. split; vm_compute; reflexivity. Qed.

(** In [/snaps] the later snapshot is found; the one named for the epoch
    and the directory [notes] are passed over. *)
Example locate_previous_in_snaps :
  outcome (locate_previous default_config "/snaps" (init demo)) =
  Some (Some "/snaps/11-02-26-13-42-05",
        [EOpendir "/snaps"
           (Some ["."; ".."; "11-02-26-13-42-05"; "notes";
                  "01-01-70-00-00-00"]);
         EClosedir "/snaps"], 0, 0).
Proof. vm_compute; reflexivity. Qed.

(** ** Instances of the general statements *)

(** A run is determined by what it returned and the state it ended in. *)
Lemma run_result {A : Type} (r : option (A * state simworld)) (a : A)
    (d : state simworld) :
  fst <$> r = Some a -> r = Some (a, final_state r d).
Proof.
  destruct r as [[a' s]|]; [|discriminate].
  intros H. injection H as <-. reflexivity.
Qed.

Lemma generations_result (r : option (state simworld)) (d : state simworld) :
  match r with Some _ => true | None => false end = true ->
  r = Some (default d r).
Proof. destruct r; [reflexivity|discriminate]. Qed.

Lemma pair_result {A : Type} (p : bool * A) :
  fst p = true -> p = (true, snd p).
Proof. destruct p as [b a]. cbn. intros ->. reflexivity. Qed.

(** C7 on the small tree: with the pattern [/mi*], the directory [/mix]
    is skipped after its [lstat]. *)
Lemma excluded_entry_is_skipped_witness :
  process_file excluding 1 "/mix" "/backup/T1" None (init demo) =
  Some (true,
        {| world := demo; total_bytes := 0; bytes_copied := 0;
           trace := [ELstat "/mix" (Some (stat_of (dir_inode 1000 0x1ED)))] |}).
Proof.
  apply (excluded_entry_is_skipped excluding 0 "/mix" "/backup/T1" None
           (init demo) (stat_of (dir_inode 1000 0x1ED)) "/mi*");
    vm_compute; reflexivity.
Defined.

(** C8 on the small tree: the link [/mylnk] belongs to the user, [lchown]
    succeeds and so does the entry. *)
Lemma symlink_entry_result_is_lchown_witness :
  fst <$> process_file default_config 1 "/mylnk" "/backup/T1" None
            (init demo) = Some true.
Proof.
  pose proof (symlink_entry_result_is_lchown default_config 0 "/mylnk"
                "/backup/T1" None (init demo)
                (stat_of (lnk_inode 1000 "a.txt")) "a.txt"
                (snd (sim_symlink "a.txt" "/backup/T1/mylnk" demo))) as H.
  cbv zeta in H. etransitivity; [apply (f_equal (fmap fst)), H|].
  - vm_compute; reflexivity.
  - vm_compute; reflexivity.
  - vm_compute; reflexivity.
  - vm_compute; reflexivity.
  - apply pair_result. vm_compute; reflexivity.
  - vm_compute; reflexivity.
Defined.

(** C1 on the small tree, with byte counting.  The first run has no
    previous snapshot: the one-byte file [/a.txt] is copied and both
    counters get its size.  The second run has the first root as
    previous snapshot: the destination is a link to the first copy, the
    total gets the size again and the copied bytes stay. *)
Lemma regular_file_copy_or_link_witness :
  let sb := stat_of (reg_inode 1000 0x1A4 100 ["X"%byte]) in
  let run1 := process_file counting 3 "/a.txt" "/backup/T1" None
                (init demo) in
  let s1 := final_state run1 (init demo) in
  let run2 := process_file counting 3 "/a.txt" "/backup/T2"
                (Some "/backup/T1") s1 in
  let s2 := final_state run2 s1 in
  (fst <$> run1 = Some true /\
   total_bytes s1 = 1 /\ bytes_copied s1 = 1 /\
   i_data <$> files (world s1) !! "/backup/T1/a.txt" = Some ["X"%byte]) /\
  (run2 =
   Some (true,
         record_call (link_looked
                        (reg_start counting s1 "/a.txt"
                           (Some "/backup/T1/a.txt") sb)
                        "/backup/T1/a.txt")
           (snd (sim_symlink "/backup/T1/a.txt" "/backup/T2/a.txt"
                   (world s1)))
           (ESymlink "/backup/T1/a.txt" "/backup/T2/a.txt" true)) /\
   total_bytes s2 = 2 /\ bytes_copied s2 = 1 /\
   i_target <$> files (world s2) !! "/backup/T2/a.txt" =
     Some "/backup/T1/a.txt").
Proof.
  intros sb run1 s1 run2 s2. split.
  - pose proof (regular_file_copy_or_link counting 2 "/a.txt" "/backup/T1"
                  None (init demo) sb) as H.
    cbv zeta in H. destruct H as [Hcopy _].
    + vm_compute; reflexivity.
    + vm_compute; reflexivity.
    + vm_compute; reflexivity.
    + split; [|repeat split; vm_compute; reflexivity].
      unfold run1. rewrite Hcopy by (vm_compute; reflexivity).
      vm_compute; reflexivity.
  - pose proof (regular_file_copy_or_link counting 2 "/a.txt" "/backup/T2"
                  (Some "/backup/T1") s1 sb) as H.
    cbv zeta in H. destruct H as [_ Hlink].
    + vm_compute; reflexivity.
    + vm_compute; reflexivity.
    + vm_compute; reflexivity.
    + destruct Hlink as (p & ps & Hp & _ & _ & Hrun);
        [vm_compute; reflexivity|].
      injection Hp as <-.
      split; [|repeat split; vm_compute; reflexivity].
      unfold run2. rewrite Hrun.
      change (join_path "/backup/T1" "/a.txt") with "/backup/T1/a.txt".
      change (join_path "/backup/T2" "/a.txt") with "/backup/T2/a.txt".
      assert (Ht : link_target "/backup/T1/a.txt" (world s1) =
                   Some "/backup/T1/a.txt") by (vm_compute; reflexivity).
      rewrite Ht. cbv zeta.
      assert (Hm : fst (os_symlink "/backup/T1/a.txt" "/backup/T2/a.txt"
                          (world s1)) = true) by (vm_compute; reflexivity).
      rewrite Hm. reflexivity.
Defined.

(** C9 on the small tree: in [/mix] the copy of [a] fails at [chown];
    the directory fails, the copy of [a] stays and [b] is never copied. *)
Lemma child_failure_aborts_directory_witness :
  let run := process_file default_config 4 "/mix" "/backup/T1" None
               (init demo) in
  fst <$> run = Some false /\
  mode_after run "/backup/T1/mix/a" = Some (Z.lor S_IFREG 0x1A4) /\
  mode_after run "/backup/T1/mix/b" = None.
Proof.
  cbv zeta.
  set (sb := stat_of (dir_inode 1000 0x1ED)).
  set (sl := record_call (init demo) demo (ELstat "/mix" (Some sb))).
  set (s0 := final_state (enter_dir 3 "/mix" "/backup/T1/mix" sb sl) sl).
  set (s1 := final_state
               (walk (fun child =>
                        process_file default_config 3 child "/backup/T1" None)
                     "/mix" ["."; ".."] true s0) s0).
  set (s2 := final_state
               (process_file default_config 3 "/mix/a" "/backup/T1" None s1)
               s1).
  pose proof (child_failure_aborts_directory default_config 3 "/mix"
                "/backup/T1" None (init demo) s0 s1 s2 sb
                ["."; ".."] ["b"] "a" 0x12) as H.
  cbv zeta in H. destruct H as (Hwalk & Hdir & Hkeep).
  - vm_compute; reflexivity.
  - vm_compute; reflexivity.
  - vm_compute; reflexivity.
  - apply run_result. vm_compute; reflexivity.
  - apply run_result. vm_compute; reflexivity.
  - vm_compute; reflexivity.
  - apply run_result. vm_compute; reflexivity.
  - split; [etransitivity; [exact (f_equal (fmap fst) Hdir)|reflexivity]|].
    split.
    + etransitivity;
        [exact (f_equal (fun r => mode_after r "/backup/T1/mix/a") Hdir)|].
      vm_compute; reflexivity.
    + etransitivity;
        [exact (f_equal (fun r => mode_after r "/backup/T1/mix/b") Hdir)|].
      vm_compute; reflexivity.
Defined.

(** C10 on the small tree: the only child of [/old] is named for the
    epoch and nothing is returned. *)
Lemma locate_previous_only_after_epoch_witness :
  exists st',
    locate_previous default_config "/old" (init demo) = Some (None, st').
Proof.
  destruct (locate_previous_only_after_epoch default_config "/old" (init demo)
              ["."; ".."; "01-01-70-00-00-00"])
    as (r & st' & E & Hsome & Hnone); [vm_compute; reflexivity|].
  exists st'. rewrite E. f_equal. f_equal. apply Hnone.
  intros name t [<-|[<-|[<-|[]]]] Ht.
  - assert (X : instant_of default_config "." = None)
      by (vm_compute; reflexivity).
    rewrite X in Ht. discriminate.
  - assert (X : instant_of default_config ".." = None)
      by (vm_compute; reflexivity).
    rewrite X in Ht. discriminate.
  - assert (X : instant_of default_config "01-01-70-00-00-00" = Some 0)
      by (vm_compute; reflexivity).
    rewrite X in Ht. injection Ht as <-. lia.
Defined.

(** C2 on the small tree: three generations of [/a.txt]; the second and
    the third are links to the copy of the first. *)
Lemma link_chains_stay_one_level_witness :
  let st' := default (init demo)
               (generations default_config 4 "/a.txt" None
                  ["/backup/T1"; "/backup/T2"; "/backup/T3"] (init demo)) in
  i_target <$> files (world st') !! "/backup/T2/a.txt" =
    Some "/backup/T1/a.txt" /\
  i_target <$> files (world st') !! "/backup/T3/a.txt" =
    Some "/backup/T1/a.txt" /\
  forall n,
    (link_depth n (files (world st')) "/backup/T3/a.txt" <= 1)%nat.
Proof.
  intros st'.
  split; [vm_compute; reflexivity|]. split; [vm_compute; reflexivity|].
  pose proof (link_chains_stay_one_level default_config 4 "/a.txt"
                ["/backup/T1"; "/backup/T2"; "/backup/T3"] (init demo) st'
                (reg_inode 1000 0x1A4 100 ["X"%byte])) as H.
  destruct H as [_ H].
  - vm_compute; reflexivity.
  - vm_compute; reflexivity.
  - intros root [<-|[<-|[<-|[]]]]; vm_compute; reflexivity.
  - apply generations_result. vm_compute; reflexivity.
  - destruct (H "/backup/T3") as [Hd _]; [cbn; auto|]. exact Hd.
Defined.

(** * Further properties of the code *)

(** ** join_path *)

Lemma append_cons (c : ascii) (a b : string) :
  String c a +:+ b = String c (a +:+ b).
Proof. reflexivity. Qed.

Lemma prefix_append (a b : string) : String.prefix a (a +:+ b) = true.
Proof.
  induction a as [|c a IH].
  - destruct b; reflexivity.
  - rewrite append_cons. cbn [String.prefix].
    destruct (ascii_dec c c) as [_|Hne]; [exact IH|congruence].
Qed.

Lemma append_assoc (a b c : string) : (a +:+ b) +:+ c = a +:+ (b +:+ c).
Proof.
  induction a as [|x a IH]; [reflexivity|].
  rewrite !append_cons, IH. reflexivity.
Qed.

(** X1.  The first argument of [join_path] is a prefix of its result:
    the destination of a source is spelled under the root it is joined
    to. *)
Theorem join_path_extends_path (path filename : string) :
  String.prefix path (join_path path filename) = true.
Proof.
  unfold join_path. destruct (ends_with_slash path).
  - apply prefix_append.
  - rewrite append_assoc. apply prefix_append.
Qed.

Lemma skip_slashes_other (c : ascii) (s : string) :
  c <> "/"%char -> skip_slashes (String c s) = String c s.
Proof.
  intros Hne. destruct c as [[] [] [] [] [] [] [] []];
    try reflexivity. congruence.
Qed.

Lemma skip_slashes_idem (s : string) :
  skip_slashes (skip_slashes s) = skip_slashes s.
Proof.
  induction s as [|c s IH]; [reflexivity|].
  destruct (ascii_dec c "/") as [->|Hne].
  - exact IH.
  - rewrite !(skip_slashes_other c s Hne). reflexivity.
Qed.

(** X2.  Slashes at the start of the second argument do not count: an
    absolute source and the same source without its leading slashes have
    the same destination, and what follows the first argument in the
    result never starts with a slash. *)
Theorem join_path_drops_leading_slashes (path filename : string) :
  join_path path (String "/" filename) = join_path path filename /\
  join_path path (skip_slashes filename) = join_path path filename /\
  exists rest,
    join_path path filename =
      (if ends_with_slash path then path else path +:+ "/") +:+ rest /\
    String.prefix "/" rest = false.
Proof.
  split; [reflexivity|]. split.
  - unfold join_path. rewrite skip_slashes_idem. reflexivity.
  - exists (skip_slashes filename). split; [reflexivity|].
    induction filename as [|c f IH]; [reflexivity|].
    destruct (ascii_dec c "/") as [->|Hne].
    + exact IH.
    + rewrite (skip_slashes_other c f Hne). cbn [String.prefix].
      destruct (ascii_dec "/" c) as [<-|_]; [congruence|].
      reflexivity.
Qed.

Section MoreProperties.

Context {W : Type} {os : OS W}.
Variable cfg : config.

(** ** The loop over the entries of a directory *)

(** X3.  The names "." and ".." are never handed to the recursive call:
    the loop over the stream of a directory is the loop over the stream
    without them. *)
Theorem walk_skips_dot_entries (rec : string -> M W bool) (source : string)
    (entries : list string) (result : bool) (s : state W) :
  walk rec source entries result s =
  walk rec source (List.filter (fun n => negb (ignore_dir n)) entries)
       result s.
Proof.
  revert result s. induction entries as [|name rest IH]; intros result s;
    [reflexivity|].
  destruct result; [|rewrite !walk_stopped; reflexivity].
  cbn [List.filter]. destruct (ignore_dir name) eqn:Hi; cbn [negb].
  - cbn [walk]. rewrite Hi. apply IH.
  - cbn [walk]. rewrite Hi. unfold bind.
    destruct (rec (join_path source name) s) as [[r s1]|]; [apply IH|].
    reflexivity.
Qed.

(** ** The copying loop *)

(** X4.  The copying loop fails only on a short write: when it returns
    [false] the last call is a [write] that returned another count than
    the bytes it was given, and when it returns [true] the last call is a
    [read] that met the end of the file or failed.  A [read] error ends
    the copy as a success. *)
Theorem copy_loop_fails_only_on_short_write (fuel : nat) (fin fout : Z)
    (s s' : state W) (r : bool) :
  copy_loop fuel fin fout s = Some (r, s') ->
  exists front last,
    trace s' = trace s ++ front ++ [last] /\
    Forall (loop_event fin fout) front /\
    (if r
     then last = ERead fin sizeof_ptr None \/
          last = ERead fin sizeof_ptr (Some [])
     else exists data n,
            last = EWrite fout data n /\ n <> Z.of_nat (length data)).
Proof.
  revert s. induction fuel as [|n IH]; intros s H; [discriminate|].
  cbn [copy_loop] in H. apply bind_inv in H as (rd & s1 & Hrd & H).
  apply grows_call in Hrd as (_ & _ & Hr1).
  destruct rd as [[|b bs]|].
  - injection H as <- <-. exists [], (ERead fin sizeof_ptr (Some [])).
    split; [exact Hr1|]. split; [constructor|]. right. reflexivity.
  - apply bind_inv in H as (wr & s2 & Hwr & H).
    apply grows_call in Hwr as (_ & _ & Hr2).
    destruct (wr =? Z.of_nat (length (b :: bs))) eqn:Hw.
    + apply IH in H as (front & last & Hr3 & F & Hlast).
      exists (ERead fin sizeof_ptr (Some (b :: bs)) ::
              EWrite fout (b :: bs) wr :: front), last.
      split; [|split; [|exact Hlast]].
      * rewrite Hr3, Hr2, Hr1, <- !app_assoc. reflexivity.
      * constructor; [cbn; auto|]. constructor; [cbn; auto|exact F].
    + injection H as <- <-.
      exists [ERead fin sizeof_ptr (Some (b :: bs))],
             (EWrite fout (b :: bs) wr).
      split; [|split].
      * rewrite Hr2, Hr1, <- !app_assoc. reflexivity.
      * constructor; [cbn; auto|constructor].
      * exists (b :: bs), wr. split; [reflexivity|].
        apply Z.eqb_neq. exact Hw.
  - injection H as <- <-. exists [], (ERead fin sizeof_ptr None).
    split; [exact Hr1|]. split; [constructor|]. left. reflexivity.
Qed.

(** X5.  [copy_file] has a defined result only when both files were
    opened: after a failed [open] the code at [done] reads [out] or frees
    [buffer], and neither was assigned.  When it returns, its calls are
    the two [open]s, the [malloc] of [st_blksize] bytes, the reads and
    writes of the loop (none when [malloc] failed, and the result is
    [false] then) and the [close] of both descriptors, the input
    first. *)
Theorem copy_file_call_shapes (fuel : nat) (source dest : string)
    (sb : stat) (s s' : state W) (r : bool) :
  (fst (os_open_rd source (world s)) = None ->
   copy_file fuel source dest sb s = None) /\
  (fst (os_open_wr dest (st_mode sb) (snd (os_open_rd source (world s))))
     = None ->
   copy_file fuel source dest sb s = None) /\
  (copy_file fuel source dest sb s = Some (r, s') ->
   exists fin fout ok loop,
     trace s' = trace s ++
       [EOpenRd source (Some fin);
        EOpenWr dest (st_mode sb) (Some fout);
        EMalloc (st_blksize sb) ok] ++ loop ++
       [EClose fin; EClose fout] /\
     Forall (loop_event fin fout) loop /\
     (ok = false -> loop = [] /\ r = false)).
Proof.
  unfold copy_file, sys_open_rd, sys_open_wr.
  erewrite !bind_run by apply call_run.
  cbn [world record_call].
  destruct (os_open_rd source (world s)) as [[fin|] w1] eqn:E1; cbn [fst snd].
  - erewrite !bind_run by apply call_run. cbn [world record_call].
    destruct (os_open_wr dest (st_mode sb) w1) as [[fout|] w2] eqn:E2;
      cbn [fst snd].
    + split; [discriminate|]. split; [discriminate|]. intros H.
      apply bind_inv in H as (b & s3 & Hb & H).
      apply grows_call in Hb as (_ & _ & Hr3).
      apply bind_inv in H as (res & s4 & Hres & H).
      apply bind_inv in H as (u1 & s5 & H5 & H).
      apply grows_close in H5 as (_ & _ & Hr5).
      apply bind_inv in H as (u2 & s6 & H6 & H).
      apply grows_close in H6 as (_ & _ & Hr6).
      injection H as <- <-.
      cbn [trace record_call] in Hr3.
      destruct b.
      * apply copy_loop_grows in Hres as (loop & (_ & _ & Hr4) & F).
        exists fin, fout, true, loop.
        split; [|split; [exact F|discriminate]].
        rewrite Hr6, Hr5, Hr4, Hr3, <- !app_assoc. reflexivity.
      * injection Hres as <- <-.
        exists fin, fout, false, [].
        split; [|split; [constructor|auto]].
        rewrite Hr6, Hr5, Hr3, <- !app_assoc. reflexivity.
    + split; [discriminate|]. split; [|discriminate].
      intros _. unfold sys_close. erewrite !bind_run by apply call_run.
      reflexivity.
  - split; [|split; [|discriminate]]; intros _; unfold sys_close;
      erewrite !bind_run by apply call_run; reflexivity.
Qed.


(** ** The byte counters *)

Lemma counted_refl (s : state W) : counted cfg s s.
Proof.
  exists 0, 0. rewrite !Z.add_0_r. repeat split; lia.
Qed.

Lemma counted_trans (s1 s2 s3 : state W) :
  counted cfg s1 s2 -> counted cfg s2 s3 -> counted cfg s1 s3.
Proof.
  intros (t1 & c1 & Ht1 & Hc1 & Hz1 & Hn1) (t2 & c2 & Ht2 & Hc2 & Hz2 & Hn2).
  exists (t1 + t2), (c1 + c2).
  split; [lia|]. split; [lia|]. split.
  - intros Hf. destruct (Hz1 Hf), (Hz2 Hf). lia.
  - intros Hs. specialize (Hn1 Hs). specialize (Hn2 Hs). lia.
Qed.

Lemma counted_kept (s s' : state W) :
  total_bytes s' = total_bytes s -> bytes_copied s' = bytes_copied s ->
  counted cfg s s'.
Proof.
  intros Ht Hb. exists 0, 0. rewrite Ht, Hb, !Z.add_0_r.
  repeat split; lia.
Qed.

Lemma counted_grows (s s' : state W) (tr : list event) :
  grows s s' tr -> counted cfg s s'.
Proof. intros (Ht & Hb & _). apply counted_kept; assumption. Qed.

Lemma rmkdir_counted (fuel : nat) :
  forall path mode (s s' : state W) r,
    rmkdir fuel path mode s = Some (r, s') -> counted cfg s s'.
Proof.
  induction fuel as [|n IH]; intros path mode s s' r H; [discriminate|].
  cbn [rmkdir] in H.
  apply bind_inv in H as (ps & s1 & Hps & H). apply grows_query in Hps.
  apply bind_inv in H as (pr & s2 & Hpr & H).
  apply rmkdir_done in H as [_ H].
  assert (G2 : counted cfg s1 s2).
  { destruct ps.
    - injection Hpr as _ <-. apply counted_refl.
    - eapply IH; exact Hpr. }
  assert (Hmk : forall s3 x s4,
            bind (sys_mkdir path mode)
                 (fun ok : bool => ret (if ok then 0 else -1)) s3 =
            Some (x, s4) -> counted cfg s3 s4).
  { intros s3 x s4 Hm. apply bind_inv in Hm as (ok & s5 & Hok & Hm).
    injection Hm as _ <-. apply grows_call in Hok.
    eapply counted_grows; exact Hok. }
  eapply counted_trans; [eapply counted_grows; exact Hps|].
  eapply counted_trans; [exact G2|].
  destruct (pr <? 0).
  - injection H as _ <-. apply counted_refl.
  - apply bind_inv in H as (sb & s3 & Hsb & H). apply grows_query in Hsb.
    eapply counted_trans; [eapply counted_grows; exact Hsb|].
    destruct sb as [sb|].
    + destruct (S_ISDIR (st_mode sb)).
      * injection H as _ <-. apply counted_refl.
      * eapply Hmk; exact H.
    + eapply Hmk; exact H.
Qed.

Lemma process_special_counted (source dest : string) (sb : stat)
    (s s' : state W) (r : bool) :
  process_special source dest sb s = Some (r, s') -> counted cfg s s'.
Proof.
  unfold process_special. intros H.
  destruct (S_ISFIFO (st_mode sb)).
  { apply grows_call in H. eapply counted_grows; exact H. }
  destruct (S_ISLNK (st_mode sb)).
  - apply bind_inv in H as (t & s1 & Ht & H). apply grows_query in Ht.
    eapply counted_trans; [eapply counted_grows; exact Ht|].
    destruct t as [buffer|].
    + apply bind_inv in H as (l & s2 & Hl & H). apply grows_call in Hl.
      eapply counted_trans; [eapply counted_grows; exact Hl|].
      destruct l.
      * apply grows_call in H. eapply counted_grows; exact H.
      * injection H as _ <-. apply counted_refl.
    + injection H as _ <-. apply counted_refl.
  - apply grows_call in H. eapply counted_grows; exact H.
Qed.

Lemma process_reg_counted (fuel : nat) (source dest : string)
    (pd : option string) (sb : stat) (s s' : state W) (r : bool) :
  0 <= st_size sb \/ ~ sizes_nonneg ->
  process_reg cfg fuel source dest pd sb s = Some (r, s') ->
  counted cfg s s'.
Proof.
  intros Hsz H. apply process_reg_spec in H. cbv zeta in H.
  destruct H as (Ht & tr & _ & _ & Hcopy & Hlink).
  destruct (needs_copy cfg pd sb (world s)) eqn:Hn.
  - destruct (Hcopy eq_refl) as (Hb & _).
    exists (if count_bytes cfg then st_size sb else 0),
           (if count_bytes cfg then st_size sb else 0).
    split; [exact Ht|]. split; [exact Hb|]. split.
    + intros ->. auto.
    + intros Hs. destruct Hsz as [Hsz|Hsz]; [|contradiction].
      destruct (count_bytes cfg); lia.
  - destruct (Hlink eq_refl) as (Hb & _).
    exists (if count_bytes cfg then st_size sb else 0), 0.
    split; [exact Ht|]. split; [lia|]. split.
    + intros ->. auto.
    + intros Hs. destruct Hsz as [Hsz|Hsz]; [|contradiction].
      destruct (count_bytes cfg); lia.
Qed.

Lemma walk_counted (rec : string -> M W bool) (source : string)
    (entries : list string) :
  (forall child s s' r, rec child s = Some (r, s') -> counted cfg s s') ->
  forall result s s' r,
    walk rec source entries result s = Some (r, s') -> counted cfg s s'.
Proof.
  intros Hrec. induction entries as [|name rest IH]; intros result s s' r H.
  - injection H as _ <-. apply counted_refl.
  - cbn [walk] in H. destruct result.
    + destruct (ignore_dir name); [eapply IH; exact H|].
      apply bind_inv in H as (r1 & s1 & H1 & H).
      eapply counted_trans; [eapply Hrec; exact H1|eapply IH; exact H].
    + injection H as _ <-. apply counted_refl.
Qed.

Lemma enter_dir_counted (fuel : nat) (source dest : string) (sb : stat)
    (s s' : state W) x :
  enter_dir fuel source dest sb s = Some (x, s') -> counted cfg s s'.
Proof.
  unfold enter_dir. intros H.
  apply bind_inv in H as (saved & s1 & H1 & H). apply grows_call in H1.
  apply bind_inv in H as (r & s2 & H2 & H). apply rmkdir_counted in H2.
  apply bind_inv in H as (u & s3 & H3 & H). apply grows_call in H3.
  eapply counted_trans; [eapply counted_grows; exact H1|].
  eapply counted_trans; [exact H2|].
  eapply counted_trans; [eapply counted_grows; exact H3|].
  destruct (r <? 0).
  - injection H as _ <-. apply counted_refl.
  - apply bind_inv in H as (d & s4 & H4 & H). apply grows_query in H4.
    destruct d; injection H as _ <-; eapply counted_grows; exact H4.
Qed.

Lemma leave_dir_counted (dest : string) (sb : stat) (saved : Z)
    (s s' : state W) (r : bool) :
  leave_dir dest sb saved s = Some (r, s') -> counted cfg s s'.
Proof.
  unfold leave_dir. intros H.
  apply bind_inv in H as (c & s1 & H1 & H). apply grows_call in H1.
  eapply counted_trans; [eapply counted_grows; exact H1|]. destruct c.
  - apply bind_inv in H as ([t sb'] & s2 & H2 & H). injection H as _ <-.
    apply copy_time_grows in H2 as (? & ? & ? & _ & G & _).
    eapply counted_grows; exact G.
  - injection H as _ <-. apply counted_refl.
Qed.

Lemma process_file_counted (fuel : nat) :
  forall source root prev (s s' : state W) r,
    process_file cfg fuel source root prev s = Some (r, s') ->
    counted cfg s s'.
Proof.
  induction fuel as [|n IH]; intros source root prev s s' r H;
    [discriminate|].
  destruct (os_lstat source (world s)) as [sb|] eqn:Hl.
  - rewrite (process_file_entry cfg n source root prev s sb Hl) in H.
    assert (G0 : counted cfg s
                   (record_call s (world s) (ELstat source (Some sb))))
      by (apply counted_kept; reflexivity).
    eapply counted_trans; [exact G0|].
    destruct (excluded cfg source).
    { injection H as _ <-. apply counted_refl. }
    destruct (S_ISDIR (st_mode sb)).
    { rewrite process_dir_split in H.
      destruct (enter_dir n source (join_path root source) sb _)
        as [[[[entries saved]|] s0]|] eqn:He; [| |discriminate].
      - apply enter_dir_counted in He.
        destruct (walk _ source entries true s0) as [[res s1]|] eqn:Hw;
          [|discriminate].
        apply (walk_counted _ source entries
                 (fun child a b c => IH child root prev a b c)) in Hw.
        cbv zeta in H.
        eapply counted_trans; [exact He|].
        eapply counted_trans; [exact Hw|].
        eapply counted_trans;
          [apply (counted_kept s1 (record_call s1 (world s1)
                                     (EClosedir source))); reflexivity|].
        destruct res.
        + eapply leave_dir_counted; exact H.
        + injection H as _ <-. apply counted_refl.
      - injection H as _ <-. apply enter_dir_counted in He. exact He. }
    destruct (S_ISREG (st_mode sb)).
    { eapply process_reg_counted; [|exact H].
      destruct (Z_le_dec 0 (st_size sb)) as [Hs|Hs]; [left; exact Hs|].
      right. intros Hall. apply Hs. eapply Hall. exact Hl. }
    destruct (is_special (st_mode sb)).
    + eapply process_special_counted; exact H.
    + injection H as _ <-. apply counted_refl.
  - rewrite (process_file_lstat_fails cfg n source root prev s Hl) in H.
    injection H as _ <-. apply counted_kept; reflexivity.
Qed.

(** X6.  Without byte counting no run of [process_file], on a file or on
    a whole tree, changes either counter. *)
Theorem counters_stay_without_counting (fuel : nat) (source root : string)
    (prev : option string) (s s' : state W) (r : bool) :
  count_bytes cfg = false ->
  process_file cfg fuel source root prev s = Some (r, s') ->
  total_bytes s' = total_bytes s /\ bytes_copied s' = bytes_copied s.
Proof.
  intros Hf H. apply process_file_counted in H
    as (t & c & Ht & Hc & Hz & _).
  destruct (Hz Hf) as [-> ->]. lia.
Qed.

(** X7.  When no file has a negative size, a run of [process_file] on a
    file or on a whole tree adds to the copied bytes at most what it adds
    to the total, and it takes nothing away from either counter. *)
Theorem copied_bytes_within_total (fuel : nat) (source root : string)
    (prev : option string) (s s' : state W) (r : bool) :
  sizes_nonneg ->
  process_file cfg fuel source root prev s = Some (r, s') ->
  0 <= bytes_copied s' - bytes_copied s <= total_bytes s' - total_bytes s.
Proof.
  intros Hs H. apply process_file_counted in H
    as (t & c & Ht & Hc & _ & Hn).
  specialize (Hn Hs). lia.
Qed.

End MoreProperties.

(** ** Special files *)

Section SpecialFiles.

Context {W : Type} {os : OS W}.
Variable cfg : config.

Lemma type_bits_differ (m a b : Z) :
  a <> b -> (Z.land m S_IFMT =? a) = true -> (Z.land m S_IFMT =? b) = false.
Proof.
  intros Hab Ha. apply Z.eqb_eq in Ha. apply Z.eqb_neq. congruence.
Qed.

(** X8.  A fifo is made again with one [mkfifo], a device or a socket
    with one [mknod] that gets the source's device number; each gets the
    source's mode, the result of the entry is the outcome of that call,
    and no ownership, time or mode is restored afterwards. *)
Theorem special_file_is_one_call (fuel : nat) (source root : string)
    (prev : option string) (st : state W) (sb : stat) :
  os_lstat source (world st) = Some sb ->
  excluded cfg source = false ->
  S_ISBLK (st_mode sb) || S_ISCHR (st_mode sb) || S_ISSOCK (st_mode sb)
    || S_ISFIFO (st_mode sb) = true ->
  let dest := join_path root source in
  let st1 := record_call st (world st) (ELstat source (Some sb)) in
  let made :=
    if S_ISFIFO (st_mode sb) then os_mkfifo dest (st_mode sb) (world st)
    else os_mknod dest (st_mode sb) (st_rdev sb) (world st) in
  process_file cfg (S fuel) source root prev st =
  Some (fst made,
        record_call st1 (snd made)
          (if S_ISFIFO (st_mode sb) then EMkfifo dest (st_mode sb) (fst made)
           else EMknod dest (st_mode sb) (st_rdev sb) (fst made))).
Proof.
  intros Hl Hx Hk. cbv zeta.
  rewrite (process_file_entry cfg fuel source root prev st sb Hl).
  cbv zeta. rewrite Hx.
  assert (Hty : S_ISDIR (st_mode sb) = false /\ S_ISREG (st_mode sb) = false
                /\ S_ISLNK (st_mode sb) = false).
  { unfold S_ISBLK, S_ISCHR, S_ISSOCK, S_ISFIFO, S_ISDIR, S_ISREG, S_ISLNK
      in *.
    apply orb_true_iff in Hk as [Hk|Hk];
      [apply orb_true_iff in Hk as [Hk|Hk];
       [apply orb_true_iff in Hk as [Hk|Hk]|]|];
      (repeat split; (eapply type_bits_differ; [|exact Hk]; discriminate)). }
  destruct Hty as (-> & -> & Hlnk).
  assert (Hs : is_special (st_mode sb) = true).
  { unfold is_special. rewrite Hk. reflexivity. }
  rewrite Hs. unfold process_special. rewrite Hlnk.
  destruct (S_ISFIFO (st_mode sb)).
  - unfold sys_mkfifo. rewrite call_run. reflexivity.
  - unfold sys_mknod. rewrite call_run. reflexivity.
Qed.

End SpecialFiles.

(** ** main *)

Section MainProperties.

Context {W : Type} {os : OS W}.
Variable cfg : config.

Lemma locate_previous_looks (root : string) (s s' : state W)
    (r : option string) :
  locate_previous cfg root s = Some (r, s') ->
  world s' = world s /\
  exists tr, grows s s' tr /\ Forall lookup_event tr.
Proof.
  rewrite locate_previous_run.
  destruct (os_opendir root (world s)) as [entries|]; intros H;
    injection H as _ <-; (split; [reflexivity|]).
  - exists [EOpendir root (Some entries); EClosedir root].
    split; [unfold grows; cbn; auto|]. repeat constructor.
  - exists [EOpendir root None].
    split; [unfold grows, record_call; cbn; auto|]. repeat constructor.
Qed.

(** X9.  When something already exists at the path of the new snapshot,
    [main] returns 1 after it has only read the backup root and looked
    at that path: nothing is created, copied or changed. *)
Theorem main_refuses_existing_snapshot (fuel : nat) (stamp : string)
    (args : list string) (st : state W) (sb : stat) :
  (2 <= length args)%nat ->
  os_stat (join_path (List.last args "") stamp) (world st) = Some sb ->
  exists st' tr,
    main cfg fuel stamp args st = Some (1, st') /\
    world st' = world st /\
    grows st st' tr /\
    Forall lookup_event tr.
Proof.
  intros Hn Hs. unfold main.
  destruct (length args <? 2)%nat eqn:Hlt;
    [apply Nat.ltb_lt in Hlt; lia|].
  destruct (locate_previous cfg (List.last args "") st) as [[prev s1]|] eqn:Hp.
  - destruct (locate_previous_looks _ _ _ _ Hp) as (Hw & tr & G & F).
    erewrite bind_run by exact Hp.
    unfold sys_stat. erewrite bind_run by apply query_run.
    rewrite Hw, Hs.
    eexists _, (tr ++ [EStat _ (Some sb)]).
    split; [reflexivity|]. split; [reflexivity|]. split.
    + eapply grows_trans; [exact G|].
      unfold grows, record_call; cbn; auto.
    + apply Forall_app. split; [exact F|]. repeat constructor.
  - rewrite locate_previous_run in Hp.
    destruct (os_opendir _ _); discriminate.
Qed.

Lemma each_source_app (fuel : nat) (l1 l2 : list string) (dest : string)
    (prev : option string) (s : state W) :
  each_source cfg fuel (l1 ++ l2) dest prev s =
  match each_source cfg fuel l1 dest prev s with
  | Some (r, s1) =>
    if r =? 0 then each_source cfg fuel l2 dest prev s1 else Some (r, s1)
  | None => None
  end.
Proof.
  revert s. induction l1 as [|a l1 IH]; intros s; [reflexivity|].
  change ((a :: l1) ++ l2) with (a :: (l1 ++ l2)).
  cbn [each_source]. unfold bind.
  destruct (process_file cfg fuel a dest prev s) as [[[] s1]|];
    [apply IH|reflexivity|reflexivity].
Qed.

(** X10.  The loop of [main] over the sources stops at the first source
    that fails: the result is 1, the state is the one that source left,
    and the sources after it are never looked at. *)
Theorem each_source_stops_at_first_failure (fuel : nat)
    (before after : list string) (failing dest : string)
    (prev : option string) (s s1 s2 : state W) :
  each_source cfg fuel before dest prev s = Some (0, s1) ->
  process_file cfg fuel failing dest prev s1 = Some (false, s2) ->
  each_source cfg fuel (before ++ failing :: after) dest prev s =
  Some (1, s2).
Proof.
  intros Hb Hf. rewrite each_source_app, Hb. cbn [Z.eqb each_source].
  unfold bind. rewrite Hf. reflexivity.
Qed.

End MainProperties.

(** ** rmkdir on the executable file system *)

Lemma same_process_refl w : same_process w w.
Proof. repeat split. Qed.

Lemma same_process_trans w1 w2 w3 :
  same_process w1 w2 -> same_process w2 w3 -> same_process w1 w3.
Proof.
  intros (A1 & B1 & C1 & D1) (A2 & B2 & C2 & D2).
  repeat split; congruence.
Qed.

Lemma new_inode_same w w' t perm rdev target :
  same_process w w' ->
  new_inode w' t perm rdev target = new_inode w t perm rdev target.
Proof.
  intros (A & B & C & D). unfold new_inode. rewrite A, B, C, D. reflexivity.
Qed.

Lemma resolve_here (fs : gmap string inode) (p : string) (i : inode) (n : nat) :
  fs !! p = Some i -> S_ISLNK (i_mode i) = false -> resolve n fs p = Some p.
Proof. intros Hp Hl. destruct n; cbn; rewrite Hp, Hl; reflexivity. Qed.

Lemma lookup_follow_here (fs : gmap string inode) (p : string) (i : inode) :
  fs !! p = Some i -> S_ISLNK (i_mode i) = false ->
  lookup_follow fs p = Some (p, i).
Proof.
  intros Hp Hl. unfold lookup_follow.
  rewrite (resolve_here fs p i _ Hp Hl), Hp. reflexivity.
Qed.

Lemma lookup_follow_absent (fs : gmap string inode) (p : string) :
  fs !! p = None -> lookup_follow fs p = None.
Proof.
  intros Hp. unfold lookup_follow, SYMLOOP_MAX. cbn [resolve].
  rewrite Hp. reflexivity.
Qed.

Lemma new_dir_is_dir w perm :
  S_ISDIR (i_mode (new_inode w S_IFDIR perm 0 "")) = true /\
  S_ISLNK (i_mode (new_inode w S_IFDIR perm 0 "")) = false.
Proof.
  split.
  - unfold S_ISDIR, new_inode. cbn [i_mode].
    rewrite new_type_bits by reflexivity. reflexivity.
  - apply new_inode_not_link; [reflexivity|discriminate].
Qed.

Lemma is_dir_new (fs : gmap string inode) (p : string) w perm :
  is_dir (<[p := new_inode w S_IFDIR perm 0 ""]> fs) p = true.
Proof.
  unfold is_dir.
  erewrite lookup_follow_here;
    [|apply lookup_insert_eq|apply new_dir_is_dir].
  apply new_dir_is_dir.
Qed.

Lemma sim_stat_is_dir (p : string) (w : simworld) (sb : stat) :
  sim_stat p w = Some sb -> S_ISDIR (st_mode sb) = is_dir (files w) p.
Proof.
  unfold sim_stat, is_dir.
  destruct (lookup_follow (files w) p) as [[q i]|]; [|discriminate].
  intros H. injection H as <-. reflexivity.
Qed.

Lemma is_dir_stat (p : string) (w : simworld) :
  is_dir (files w) p = true -> exists sb, sim_stat p w = Some sb.
Proof.
  unfold sim_stat, is_dir.
  destruct (lookup_follow (files w) p) as [[q i]|]; [|discriminate].
  intros _. eexists. reflexivity.
Qed.

(** What [mkdir] does to the world. *)
Lemma sim_mkdir_spec (p : string) (mode : Z) (w : simworld) :
  let out := sim_mkdir p mode w in
  same_process w (snd out) /\
  (fst out = true ->
   files w !! p = None /\
   files (snd out) =
     <[p := new_inode w S_IFDIR (Z.land mode 0x3FF) 0 ""]> (files w)) /\
  (fst out = false -> snd out = w).
Proof.
  unfold sim_mkdir, create, can_create. cbv zeta.
  destruct (bool_decide (files w !! p = None)) eqn:E; cbn [andb].
  - apply bool_decide_eq_true in E.
    destruct (is_dir (files w) (sim_dirname p)); cbn.
    + repeat split; auto; discriminate.
    + repeat split; auto; discriminate.
  - cbn. repeat split; auto; discriminate.
Qed.

Lemma rmkdir_sim (fuel : nat) :
  forall path mode (s s' : state simworld) r,
    rmkdir fuel path mode s = Some (r, s') ->
    same_process (world s) (world s') /\
    (forall p i, files (world s) !! p = Some i ->
                 files (world s') !! p = Some i) /\
    (forall p i', files (world s) !! p = None ->
                  files (world s') !! p = Some i' ->
                  i' = new_inode (world s) S_IFDIR (Z.land mode 0x3FF) 0 "") /\
    (r = 0 \/ r = -1) /\
    (r = 0 -> is_dir (files (world s')) path = true).
Proof.
  induction fuel as [|n IH]; intros path mode s s' r H; [discriminate|].
  cbn [rmkdir] in H.
  unfold sys_stat at 1 in H. erewrite bind_run in H by apply query_run.
  set (s0 := record_call s (world s) _) in H.
  apply bind_inv in H as (pr & s2 & Hpr & H).
  apply rmkdir_done in H as [_ H].
  assert (G2 : same_process (world s) (world s2) /\
               (forall p i, files (world s) !! p = Some i ->
                            files (world s2) !! p = Some i) /\
               (forall p i', files (world s) !! p = None ->
                             files (world s2) !! p = Some i' ->
                             i' = new_inode (world s) S_IFDIR (Z.land mode 0x3FF) 0 "") /\
               (pr = 0 \/ pr = -1)).
  { destruct (os_stat (dirname path) (world s)).
    - injection Hpr as <- <-. cbn.
      split; [apply same_process_refl|]. split; [auto|].
      split; [congruence|auto].
    - apply IH in Hpr as (A & B & C & D & _). cbn in A, B, C.
      repeat split; try apply A; auto. }
  destruct G2 as (A & B & C & D).
  assert (Hmk : forall e x s4,
            bind (sys_mkdir path mode)
                 (fun ok : bool => ret (if ok then 0 else -1))
                 (record_call s2 (world s2) e) =
            Some (x, s4) ->
            same_process (world s) (world s4) /\
            (forall p i, files (world s) !! p = Some i ->
                         files (world s4) !! p = Some i) /\
            (forall p i', files (world s) !! p = None ->
                          files (world s4) !! p = Some i' ->
                          i' = new_inode (world s) S_IFDIR (Z.land mode 0x3FF) 0 "") /\
            (x = 0 \/ x = -1) /\
            (x = 0 -> is_dir (files (world s4)) path = true)).
  { intros e x s4 Hm. unfold sys_mkdir in Hm.
    erewrite bind_run in Hm by apply call_run.
    injection Hm as <- <-. cbn [world record_call].
    destruct (sim_mkdir_spec path mode (world s2)) as (P & Q & R).
    change (os_mkdir path mode (world s2)) with (sim_mkdir path mode (world s2)).
    destruct (fst (sim_mkdir path mode (world s2))) eqn:Hok.
    - destruct (Q eq_refl) as (Hnone & Hfiles).
      split; [eapply same_process_trans; eassumption|].
      rewrite Hfiles. split; [|split; [|split; [auto|]]].
      + intros p i Hp. apply B in Hp.
        rewrite lookup_insert_ne; [exact Hp|]. congruence.
      + intros p i' Hp Hi. destruct (decide (path = p)) as [->|Hne].
        * rewrite lookup_insert_eq in Hi. injection Hi as <-.
          apply new_inode_same. exact A.
        * rewrite lookup_insert_ne in Hi by exact Hne. eapply C; eassumption.
      + intros _. apply is_dir_new.
    - rewrite (R eq_refl).
      split; [exact A|]. split; [exact B|]. split; [exact C|].
      split; [auto|]. discriminate. }
  destruct (pr <? 0) eqn:Hneg.
  - injection H as <- <-. repeat split; try apply A; auto. discriminate.
  - unfold sys_stat in H. erewrite bind_run in H by apply query_run.
    destruct (os_stat path (world s2)) as [sb|] eqn:Hsb.
    + destruct (S_ISDIR (st_mode sb)) eqn:Hd.
      * injection H as <- <-. cbn [world record_call].
        repeat split; try apply A; auto. intros _.
        rewrite <- (sim_stat_is_dir _ _ _ Hsb). exact Hd.
      * apply Hmk in H. exact H.
    + apply Hmk in H. exact H.
Qed.

(** X11.  Whatever [rmkdir] returns, 0 or -1, no entry that exists is
    removed or changed in anything but its times, and every name that
    is new afterwards is a directory that belongs to the process; after
    a result of 0 the path is a directory. *)
Theorem rmkdir_only_adds_directories (fuel : nat) (path : string) (mode : Z)
    (s s' : state simworld) (r : Z) :
  rmkdir fuel path mode s = Some (r, s') ->
  (r = 0 \/ r = -1) /\
  (r = 0 -> is_dir (files (world s')) path = true) /\
  (forall p i, files (world s) !! p = Some i ->
     exists i', files (world s') !! p = Some i' /\ same_but_times i i') /\
  (forall p i', files (world s) !! p = None ->
                files (world s') !! p = Some i' ->
                S_ISDIR (i_mode i') = true /\ i_uid i' = euid (world s)).
Proof.
  intros H. apply rmkdir_sim in H as (_ & B & C & D & E).
  split; [exact D|]. split; [exact E|]. split.
  - intros p i Hp. exists i. split; [apply B; exact Hp|]. repeat split.
  - intros p i' Hp Hi. rewrite (C p i' Hp Hi).
    split; [apply new_dir_is_dir|reflexivity].
Qed.

Lemma is_dir_absent (fs : gmap string inode) (p : string) :
  fs !! p = None -> is_dir fs p = false.
Proof.
  intros Hp. unfold is_dir. rewrite lookup_follow_absent by exact Hp.
  reflexivity.
Qed.

Lemma sim_stat_absent (p : string) (w : simworld) :
  files w !! p = None -> sim_stat p w = None.
Proof.
  intros Hp. unfold sim_stat. rewrite lookup_follow_absent by exact Hp.
  reflexivity.
Qed.

Lemma same_process_files w w1 f :
  same_process w w1 -> same_process w (with_files w1 f).
Proof. intros H. exact H. Qed.

(** [rmkdir] returns only for a path for which [dirname] gave back its
    argument: [free(parent)] is the last thing it does. *)
Lemma rmkdir_not_static {W : Type} {os : OS W} (fuel : nat) (path : string)
    (mode : Z) (s s' : state W) (r : Z) :
  rmkdir fuel path mode s = Some (r, s') -> dirname_static path = false.
Proof.
  destruct fuel as [|n]; [discriminate|]. cbn [rmkdir]. intros H.
  apply bind_inv in H as (ps & s1 & _ & H).
  apply bind_inv in H as (pr & s2 & _ & H).
  apply rmkdir_done in H as [Hst _]. exact Hst.
Qed.

Lemma resolve_keeps (fs fs' : gmap string inode) (n : nat) :
  keeps fs fs' ->
  forall p q, resolve n fs p = Some q -> resolve n fs' p = Some q.
Proof.
  intros K. induction n as [|n IH]; intros p q; cbn [resolve];
    (destruct (fs !! p) as [i|] eqn:E; [|discriminate];
     destruct (K p i E) as (i' & -> & Hk);
     rewrite (same_kind_link _ _ Hk);
     destruct (S_ISLNK (i_mode i)); [|auto]).
  - discriminate.
  - rewrite (proj2 Hk). apply IH.
Qed.

Lemma is_dir_keeps (fs fs' : gmap string inode) (p : string) :
  keeps fs fs' -> is_dir fs p = true -> is_dir fs' p = true.
Proof.
  intros K. unfold is_dir, lookup_follow.
  destruct (resolve SYMLOOP_MAX fs p) as [q|] eqn:E; [|discriminate].
  rewrite (resolve_keeps fs fs' _ K p q E).
  destruct (fs !! q) as [i|] eqn:Eq; [|discriminate].
  destruct (K q i Eq) as (i' & -> & Hk).
  unfold S_ISDIR. rewrite (proj1 Hk). auto.
Qed.

(** When the recursive call was made and the whole returned 0, the
    recursive call returned 0, and what it made is kept. *)
Lemma rmkdir_parent (n : nat) (path : string) (mode : Z)
    (s s' : state simworld) (r : Z) :
  rmkdir (S n) path mode s = Some (r, s') ->
  files (world s) !! sim_dirname path = None ->
  exists pr s2,
    rmkdir n (sim_dirname path) mode
      (record_call s (world s) (EStat (sim_dirname path) None)) =
      Some (pr, s2) /\
    (r = 0 -> pr = 0) /\ skeeps s2 s'.
Proof.
  intros H Hpar. cbn [rmkdir] in H.
  unfold sys_stat at 1 in H. erewrite bind_run in H by apply query_run.
  change (os_stat (dirname path) (world s))
    with (sim_stat (sim_dirname path) (world s)) in H.
  rewrite (sim_stat_absent _ _ Hpar) in H.
  apply bind_inv in H as (pr & s2 & Hpr & H).
  apply rmkdir_done in H as [_ H].
  exists pr, s2. split; [exact Hpr|].
  pose proof (rmkdir_sim _ _ _ _ _ _ Hpr) as (_ & _ & _ & Hres & _).
  destruct (pr <? 0) eqn:Hneg.
  - injection H as <- <-. split; [discriminate|apply skeeps_refl].
  - split; [intros _; destruct Hres as [->| ->]; [reflexivity|discriminate]|].
    apply bind_inv in H as (sb & s3 & Hsb & H). apply query_skeeps in Hsb.
    eapply skeeps_trans; [exact Hsb|].
    assert (Hmk : forall x s4,
              bind (sys_mkdir path mode)
                   (fun ok : bool => ret (if ok then 0 else -1)) s3 =
              Some (x, s4) -> skeeps s3 s4).
    { intros x s4 Hm. apply bind_inv in Hm as (ok & s5 & Hok & Hm).
      injection Hm as _ <-. eapply call_skeeps; [|exact Hok].
      intros w. apply create_keeps. }
    destruct sb as [sb|].
    + destruct (S_ISDIR (st_mode sb)).
      * injection H as _ <-. apply skeeps_refl.
      * eapply Hmk; exact H.
    + eapply Hmk; exact H.
Qed.

Lemma rmkdir_ancestors (n : nat) :
  forall fuel path mode (s s' : state simworld) r,
    rmkdir fuel path mode s = Some (r, s') ->
    (forall q, In q (ancestors n path) -> files (world s) !! q = None) ->
    (forall q, In q (ancestors n path) -> sim_dirname_static q = false) /\
    (r = 0 ->
     forall q, In q (ancestors n path) ->
               is_dir (files (world s')) q = true).
Proof.
  induction n as [|m IH]; intros fuel path mode s s' r H Habs.
  - split; [intros q []|intros _ q []].
  - pose proof (rmkdir_not_static _ _ _ _ _ _ H) as Hst.
    pose proof (rmkdir_sim _ _ _ _ _ _ H) as (_ & _ & _ & _ & Hdir).
    destruct m as [|m].
    + split.
      * intros q [<-|[]]. exact Hst.
      * intros Hr q [<-|[]]. apply Hdir. exact Hr.
    + destruct fuel as [|fuel]; [discriminate|].
      assert (Hpar : files (world s) !! sim_dirname path = None).
      { apply Habs. right. left. reflexivity. }
      destruct (rmkdir_parent _ _ _ _ _ _ H Hpar)
        as (pr & s2 & Hpr & Hzero & K).
      destruct (IH _ _ _ _ _ _ Hpr) as [Hs Hd].
      { intros q Hq. apply Habs. right. exact Hq. }
      split.
      * intros q [<-|Hq]; [exact Hst|apply Hs; exact Hq].
      * intros Hr q [<-|Hq]; [apply Hdir; exact Hr|].
        eapply is_dir_keeps; [exact K|]. apply Hd; [|exact Hq].
        apply Hzero. exact Hr.
Qed.

(** X12.  [rmkdir] returns only when [dirname] gave back its argument
    for the path and for every missing ancestor it went through: it
    frees what [dirname] returned, and for a path without a slash that
    is the static string ".".  When it returns 0 for a path that did not
    exist, with [n - 1] nearest ancestors that did not exist either,
    each of these [n] names is a directory afterwards. *)
Theorem rmkdir_makes_missing_ancestors (n fuel : nat) (path : string)
    (mode : Z) (s s' : state simworld) (r : Z) :
  rmkdir fuel path mode s = Some (r, s') ->
  (forall q, In q (ancestors n path) -> files (world s) !! q = None) ->
  sim_dirname_static path = false /\
  (forall q, In q (ancestors n path) -> sim_dirname_static q = false) /\
  (r = 0 ->
   forall q, In q (ancestors n path) ->
             is_dir (files (world s')) q = true).
Proof.
  intros H Habs. split; [exact (rmkdir_not_static _ _ _ _ _ _ H)|].
  exact (rmkdir_ancestors n _ _ _ _ _ _ H Habs).
Qed.

(** For a path without a slash no amount of fuel gives a result. *)
Lemma rmkdir_static_undefined {W : Type} {os : OS W} (fuel : nat)
    (path : string) (mode : Z) (s : state W) :
  dirname_static path = true -> rmkdir fuel path mode s = None.
Proof.
  intros Hst. destruct (rmkdir fuel path mode s) as [[r s']|] eqn:E;
    [|reflexivity].
  apply rmkdir_not_static in E. congruence.
Qed.
(** ** copy_file on the executable file system *)

Lemma sim_read_at (fd : Z) (q : string) (off : nat) (i : inode)
    (w : simworld) (n : Z) :
  fds w !! fd = Some (mkfd q off false) -> files w !! q = Some i ->
  S_ISDIR (i_mode i) = false ->
  sim_read fd n w =
  (Some (take (Z.to_nat n) (drop off (i_data i))),
   with_fds w
     (<[fd := mkfd q (off + length (take (Z.to_nat n) (drop off (i_data i))))
                   false]> (fds w))
     (next_fd w)).
Proof.
  intros Hfd Hq Hnd. unfold sim_read. rewrite Hfd.
  cbn [fd_path fd_write fd_offset]. rewrite Hq, Hnd. reflexivity.
Qed.

Lemma sim_write_at (fd : Z) (p : string) (off : nat) (i : inode)
    (w : simworld) (data : list byte) :
  fds w !! fd = Some (mkfd p off true) -> files w !! p = Some i ->
  sim_write fd data w =
  (Z.of_nat (length data),
   with_fds
     (update w p
        (set_data i (take off (i_data i) ++ data ++
                     drop (off + length data) (i_data i)) (clock w)))
     (<[fd := mkfd p (off + length data) true]> (fds w))
     (next_fd w)).
Proof.
  intros Hfd Hp. unfold sim_write. rewrite Hfd.
  cbn [fd_path fd_write fd_offset]. rewrite Hp. reflexivity.
Qed.

Lemma take_of_take_length {A : Type} (k : nat) (l : list A) :
  take (length (take k l)) l = take k l.
Proof.
  revert l. induction k as [|k IH]; intros [|a l]; cbn; [reflexivity..|].
  f_equal. apply IH.
Qed.

Lemma copy_loop_copies (fs0 : gmap string inode) (q dest : string)
    (i ni : inode) (fin fout : Z) (c : Z) (fuel : nat) :
  fs0 !! q = Some i -> S_ISDIR (i_mode i) = false ->
  q <> dest -> fin <> fout ->
  forall (s : state simworld) (off : nat),
    files (world s) = <[dest := set_data ni (take off (i_data i)) c]> fs0 ->
    fds (world s) !! fin = Some (mkfd q off false) ->
    fds (world s) !! fout = Some (mkfd dest off true) ->
    clock (world s) = c ->
    (off <= length (i_data i))%nat ->
    (length (i_data i) - off + 8 <= 8 * fuel)%nat ->
    exists s',
      copy_loop fuel fin fout s = Some (true, s') /\
      files (world s') = <[dest := set_data ni (i_data i) c]> fs0 /\
      same_process (world s) (world s').
Proof.
  intros Hq Hnd Hne Hfd.
  induction fuel as [|fuel IH]; intros s off Hfiles Hin Hout Hc Hoff Hfuel;
    [lia|].
  assert (Hsrc : files (world s) !! q = Some i).
  { rewrite Hfiles, lookup_insert_ne by congruence. exact Hq. }
  cbn [copy_loop]. unfold sys_read. erewrite bind_run by apply call_run.
  change (os_read fin sizeof_ptr (world s)) with (sim_read fin 8 (world s)).
  rewrite (sim_read_at fin q off i (world s) 8 Hin Hsrc Hnd). cbn [fst snd].
  change (Z.to_nat 8) with 8%nat.
  destruct (take 8 (drop off (i_data i))) as [|b bs] eqn:Hchunk.
  - eexists. split; [reflexivity|]. cbn [world record_call files with_fds].
    split; [|repeat split].
    rewrite Hfiles. do 3 f_equal.
    assert (Hd : drop off (i_data i) = []).
    { destruct (drop off (i_data i)); [reflexivity|discriminate]. }
    apply (f_equal (@length byte)) in Hd. rewrite length_drop in Hd.
    cbn in Hd. apply take_ge. lia.
  - set (chunk := b :: bs) in *.
    set (w1 := with_fds (world s) _ _).
    unfold sys_write. erewrite bind_run by apply call_run.
    cbn [world record_call].
    change (os_write fout chunk w1) with (sim_write fout chunk w1).
    assert (Hout1 : fds w1 !! fout = Some (mkfd dest off true)).
    { unfold w1. cbn [fds with_fds]. rewrite lookup_insert_ne by exact Hfd.
      exact Hout. }
    assert (Hdest1 : files w1 !! dest =
                     Some (set_data ni (take off (i_data i)) c)).
    { unfold w1. cbn [files with_fds]. rewrite Hfiles.
      apply lookup_insert_eq. }
    rewrite (sim_write_at fout dest off _ w1 chunk Hout1 Hdest1).
    cbn [fst snd]. rewrite Z.eqb_refl.
    assert (Hlen : length chunk = Nat.min 8 (length (i_data i) - off)).
    { rewrite <- Hchunk, length_take, length_drop. reflexivity. }
    assert (Hpos : (0 < length chunk)%nat) by (cbn; lia).
    match goal with
    | |- exists s', copy_loop _ _ _ ?st = _ /\ _ =>
      destruct (IH st (off + length chunk)%nat)
        as (s' & Hrun & Hfs & Hsame)
    end.
    7: { exists s'. split; [exact Hrun|]. split; [exact Hfs|].
         destruct Hsame as (A & B & C & D). cbn in A, B, C, D.
         repeat split; assumption. }
    + cbn [world record_call files with_fds update with_files].
      unfold w1. cbn [files with_fds clock]. rewrite Hfiles, Hc.
      rewrite insert_insert_eq. f_equal.
      cbn [set_data i_data i_mode i_uid i_gid i_rdev i_atime i_target].
      unfold set_data. cbn [i_data i_mode i_uid i_gid i_rdev i_atime i_target].
      f_equal.
      rewrite take_take, Nat.min_id.
      rewrite (drop_ge (take off (i_data i)))
        by (rewrite length_take; lia).
      rewrite app_nil_r, <- Hchunk.
      rewrite <- (take_of_take_length 8 (drop off (i_data i))).
      rewrite take_take_drop. rewrite take_of_take_length. reflexivity.
    + cbn [world record_call fds with_fds update with_files].
      rewrite lookup_insert_ne by congruence.
      unfold w1. cbn [fds with_fds]. rewrite lookup_insert_eq.
      reflexivity.
    + cbn [world record_call fds with_fds update with_files].
      rewrite lookup_insert_eq. reflexivity.
    + cbn. exact Hc.
    + lia.
    + lia.
Qed.

Lemma copy_file_sim (fuel : nat) (source dest q : string) (sb : stat)
    (i : inode) (s : state simworld) :
  lookup_follow (files (world s)) source = Some (q, i) ->
  S_ISDIR (i_mode i) = false ->
  files (world s) !! dest = None ->
  is_dir (files (world s)) (sim_dirname dest) = true ->
  (length (i_data i) + 8 <= 8 * fuel)%nat ->
  exists s',
    copy_file fuel source dest sb s = Some (true, s') /\
    files (world s') =
      <[dest := set_data (new_inode (world s) S_IFREG (st_mode sb) 0 "")
                         (i_data i) (clock (world s))]> (files (world s)) /\
    same_process (world s) (world s').
Proof.
  intros Hsrc Hnd Hdest Hdir Hfuel.
  assert (Hq : files (world s) !! q = Some i)
    by (eapply lookup_follow_Some; exact Hsrc).
  assert (Hne : q <> dest) by congruence.
  unfold copy_file. unfold sys_open_rd. erewrite bind_run by apply call_run.
  change (os_open_rd source (world s)) with (sim_open_rd source (world s)).
  unfold sim_open_rd. rewrite Hsrc. unfold open_at. cbn [fst snd].
  unfold sys_open_wr. erewrite bind_run by apply call_run.
  cbn [world record_call].
  set (w1 := with_fds (world s) _ _).
  change (os_open_wr dest (st_mode sb) w1) with
    (sim_open_wr dest (st_mode sb) w1).
  unfold sim_open_wr.
  assert (Hd1 : files w1 !! dest = None) by exact Hdest.
  rewrite (lookup_follow_absent _ _ Hd1). unfold can_create.
  rewrite bool_decide_eq_true_2 by exact Hd1.
  change (files w1) with (files (world s)). rewrite Hdir.
  cbn [andb]. unfold open_at. cbn [fst snd].
  unfold sys_malloc. erewrite bind_run by apply call_run.
  cbn [world record_call os_malloc sim_os sim_os_on fst snd].
  match goal with
  | |- exists s', bind (copy_loop _ ?fi ?fo) _ ?st = _ /\ _ =>
    assert (Hfd : fi <> fo) by (unfold w1; cbn; lia);
    destruct (copy_loop_copies (files (world s)) q dest i
                (new_inode (world s) S_IFREG (st_mode sb) 0 "")
                fi fo (clock (world s)) fuel Hq Hnd Hne Hfd st 0%nat)
      as (s' & Hrun & Hfs & Hsame)
  end.
  - reflexivity.
  - cbn. rewrite lookup_insert_ne by lia. apply lookup_insert_eq.
  - cbn. apply lookup_insert_eq.
  - reflexivity.
  - lia.
  - lia.
  - erewrite bind_run by exact Hrun.
    unfold sys_close. erewrite bind_run by apply call_run.
    erewrite bind_run by apply call_run.
    eexists. split; [reflexivity|]. cbn. split; [exact Hfs|].
    destruct Hsame as (A & B & C & D). cbn in A, B, C, D.
    repeat split; assumption.
Qed.

(** More fuel changes nothing in a run that returned. *)
Lemma copy_loop_more {W : Type} {os : OS W} (fuel k : nat) (fin fout : Z) :
  forall (s : state W) x,
    copy_loop fuel fin fout s = Some x ->
    copy_loop (fuel + k) fin fout s = Some x.
Proof.
  induction fuel as [|n IH]; intros s x H; [discriminate|].
  cbn [Nat.add copy_loop] in *. unfold bind in *.
  destruct (sys_read fin sizeof_ptr s) as [[[[|b bs]|] s1]|];
    try exact H.
  destruct (sys_write fout (b :: bs) s1) as [[wr s2]|]; [|exact H].
  destruct (wr =? Z.of_nat (length (b :: bs))); [|exact H].
  apply IH. exact H.
Qed.

Lemma copy_file_more {W : Type} {os : OS W} (fuel k : nat)
    (source dest : string) (sb : stat) (s : state W) x :
  copy_file fuel source dest sb s = Some x ->
  copy_file (fuel + k) source dest sb s = Some x.
Proof.
  unfold copy_file, bind.
  destruct (sys_open_rd source s) as [[[fin|] s1]|]; try (intros H; exact H).
  destruct (sys_open_wr dest (st_mode sb) s1) as [[[fout|] s2]|];
    try (intros H; exact H).
  destruct (sys_malloc (st_blksize sb) s2) as [[[] s3]|];
    try (intros H; exact H).
  destruct (copy_loop fuel fin fout s3) as [y|] eqn:E; [|discriminate].
  rewrite (copy_loop_more fuel k fin fout s3 y E). intros H. exact H.
Qed.

(** [copy_file] returns only when the destination could be opened. *)
Lemma copy_file_opened (fuel : nat) (source dest : string) (sb : stat)
    (s s' : state simworld) (r : bool) :
  copy_file fuel source dest sb s = Some (r, s') ->
  files (world s) !! dest = None ->
  is_dir (files (world s)) (sim_dirname dest) = true.
Proof.
  intros H Hdest.
  destruct (is_dir (files (world s)) (sim_dirname dest)) eqn:Hdir;
    [reflexivity|exfalso].
  unfold copy_file, sys_open_rd, sys_open_wr in H.
  erewrite bind_run in H by apply call_run.
  assert (Hw : files (snd (os_open_rd source (world s))) = files (world s)).
  { change (os_open_rd source (world s))
      with (sim_open_rd source (world s)).
    unfold sim_open_rd.
    destruct (lookup_follow (files (world s)) source) as [[q i]|];
      reflexivity. }
  destruct (fst (os_open_rd source (world s))) as [fin|].
  - erewrite bind_run in H by apply call_run.
    cbn [world record_call] in H.
    change (os_open_wr dest (st_mode sb) (snd (os_open_rd source (world s))))
      with (sim_open_wr dest (st_mode sb)
              (snd (os_open_rd source (world s)))) in H.
    unfold sim_open_wr, can_create in H. rewrite Hw in H.
    rewrite (lookup_follow_absent _ _ Hdest), Hdir, andb_false_r in H.
    cbn [fst snd] in H.
    unfold sys_close in H. erewrite !bind_run in H by apply call_run.
    discriminate.
  - unfold sys_close in H. erewrite !bind_run in H by apply call_run.
    discriminate.
Qed.

(** X13.  When [copy_file] returns [true] for a source that leads to a
    file that is not a directory and a destination at which nothing
    existed, the destination is a regular file with exactly the bytes of
    the source, and no other entry is removed or changed in anything but
    its times. *)
Theorem copy_file_copies_contents (fuel : nat) (source dest q : string)
    (sb : stat) (i : inode) (s s' : state simworld) :
  copy_file fuel source dest sb s = Some (true, s') ->
  lookup_follow (files (world s)) source = Some (q, i) ->
  S_ISDIR (i_mode i) = false ->
  files (world s) !! dest = None ->
  exists di,
    files (world s') !! dest = Some di /\
    S_ISREG (i_mode di) = true /\
    i_data di = i_data i /\
    forall p j, p <> dest -> files (world s) !! p = Some j ->
      exists j', files (world s') !! p = Some j' /\ same_but_times j j'.
Proof.
  intros Hrun Hsrc Hnd Hdest.
  pose proof (copy_file_opened _ _ _ _ _ _ _ Hrun Hdest) as Hdir.
  apply (copy_file_more fuel (length (i_data i) + 1)) in Hrun.
  destruct (copy_file_sim (fuel + (length (i_data i) + 1)) source dest q sb i
              s Hsrc Hnd Hdest Hdir ltac:(lia)) as (s2 & Hrun2 & Hfs & _).
  rewrite Hrun2 in Hrun. injection Hrun as <-.
  eexists. rewrite Hfs. split; [apply lookup_insert_eq|].
  split.
  { unfold S_ISREG, new_inode, set_data. cbn [i_mode].
    rewrite new_type_bits by reflexivity. reflexivity. }
  split; [reflexivity|].
  intros p j Hp Hj. exists j.
  split; [rewrite lookup_insert_ne by congruence; exact Hj|].
  repeat split.
Qed.
(** ** copy_time on the executable file system *)

Lemma copy_time_inv {W : Type} {os : OS W} (file : string) (sb sb' : stat)
    (st st' : state W) (b : bool) :
  copy_time file sb st = Some ((b, sb'), st') ->
  let r1 := os_utime file (st_atime sb) (st_mtime sb) (world st) in
  let r2 := os_chown file (st_uid sb) (st_gid sb) (snd r1) in
  let sb1 := if fst r2 then sb
             else set_st_mode sb
                    (clear_bits (st_mode sb) (Z.lor S_ISUID S_ISGID)) in
  let r3 := os_chmod file (st_mode sb1) (snd r2) in
  fst r1 && fst r2 && fst r3 = b /\ sb1 = sb' /\ world st' = snd r3.
Proof.
  rewrite copy_time_run. cbv zeta. intros H. injection H as <- <- <-.
  auto.
Qed.

Lemma resolve_update (fs : gmap string inode) (q : string) (i i' : inode)
    (n : nat) :
  fs !! q = Some i -> same_kind i i' ->
  forall p, resolve n (<[q := i']> fs) p = resolve n fs p.
Proof.
  intros Hq K. induction n as [|n IH]; intros p; cbn [resolve];
    (destruct (decide (q = p)) as [<-|Hne];
     [rewrite lookup_insert_eq, Hq, (same_kind_link _ _ K);
      try rewrite (proj2 K); try rewrite IH; reflexivity
     |rewrite lookup_insert_ne by exact Hne;
      destruct (fs !! p) as [j|]; [|reflexivity];
      destruct (S_ISLNK (i_mode j)); try rewrite IH; reflexivity]).
Qed.

Lemma follow_update (fs : gmap string inode) (file q : string) (i i' : inode) :
  lookup_follow fs file = Some (q, i) -> same_kind i i' ->
  lookup_follow (<[q := i']> fs) file = Some (q, i').
Proof.
  intros H K. pose proof (lookup_follow_Some _ _ _ _ H) as Hq.
  unfold lookup_follow in *.
  rewrite (resolve_update fs q i i' _ Hq K).
  destruct (resolve SYMLOOP_MAX fs file) as [q'|]; [|discriminate].
  destruct (fs !! q') as [i0|]; [|discriminate].
  injection H as -> ->. rewrite lookup_insert_eq. reflexivity.
Qed.

Lemma perm_bits_of_chmod (t x : Z) :
  Z.land (Z.lor (Z.land t S_IFMT) (Z.land x ALLPERMS)) ALLPERMS =
  Z.land x ALLPERMS.
Proof.
  rewrite Z.land_lor_distr_l, <- !Z.land_assoc, Z.land_diag.
  change (Z.land S_IFMT ALLPERMS) with 0.
  rewrite Z.land_0_r, Z.lor_0_l. reflexivity.
Qed.

(** X14.  After a [copy_time] that succeeded, [stat] of the file reports
    the access and modification times, the owner, the group and the
    permission bits of the source, and the structure is returned as it
    was given. *)
Theorem copy_time_restores_metadata (file : string) (sb sb' : stat)
    (s s' : state simworld) :
  copy_time file sb s = Some ((true, sb'), s') ->
  sb' = sb /\
  exists st',
    sim_stat file (world s') = Some st' /\
    st_atime st' = st_atime sb /\ st_mtime st' = st_mtime sb /\
    st_uid st' = st_uid sb /\ st_gid st' = st_gid sb /\
    Z.land (st_mode st') ALLPERMS = Z.land (st_mode sb) ALLPERMS.
Proof.
  intros H. apply copy_time_inv in H. cbv zeta in H.
  destruct H as (Hres & Hsb & Hst).
  apply andb_true_iff in Hres as [Hres H3].
  apply andb_true_iff in Hres as [H1 H2].
  rewrite H2 in *. split; [auto|]. rewrite Hst. clear Hst.
  change (os_utime file (st_atime sb) (st_mtime sb) (world s))
    with (sim_utime file (st_atime sb) (st_mtime sb) (world s)) in *.
  unfold sim_utime in *.
  destruct (lookup_follow (files (world s)) file) as [[q i]|] eqn:E0;
    [|discriminate].
  destruct (owner_or_root (world s) i); [|discriminate].
  cbn [fst snd] in *.
  set (i1 := set_times i (st_atime sb) (st_mtime sb)) in *.
  set (w1 := update (world s) q i1) in *.
  assert (E1 : lookup_follow (files w1) file = Some (q, i1)).
  { unfold w1. cbn [files update with_files].
    apply (follow_update _ _ _ i); [exact E0|split; reflexivity]. }
  change (os_chown file (st_uid sb) (st_gid sb) w1)
    with (sim_chown file (st_uid sb) (st_gid sb) w1) in *.
  unfold sim_chown in *. rewrite E1 in *.
  destruct (may_chown w1 i1 (st_uid sb) (st_gid sb)); [|discriminate].
  cbn [fst snd] in *.
  set (i2 := set_owner i1 (st_uid sb) (st_gid sb)) in *.
  set (w2 := update w1 q i2) in *.
  assert (E2 : lookup_follow (files w2) file = Some (q, i2)).
  { unfold w2. cbn [files update with_files].
    apply (follow_update _ _ _ i1); [exact E1|split; reflexivity]. }
  change (os_chmod file (st_mode sb) w2)
    with (sim_chmod file (st_mode sb) w2) in *.
  unfold sim_chmod in *. rewrite E2 in *.
  destruct (owner_or_root w2 i2); [|discriminate].
  cbn [fst snd] in *.
  set (i3 := set_mode i2 _).
  assert (E3 : lookup_follow (files (update w2 q i3)) file = Some (q, i3)).
  { cbn [files update with_files].
    apply (follow_update _ _ _ i2); [exact E2|].
    split; [apply perm_type_bits|reflexivity]. }
  unfold sim_stat. rewrite E3. cbn [fmap option_fmap option_map snd].
  eexists. split; [reflexivity|].
  cbn. repeat split. apply perm_bits_of_chmod.
Qed.

(** ** A second run after a first one *)

Lemma sim_utime_regular (p : string) (a m : Z) (w : simworld) (d : inode) :
  files w !! p = Some d -> S_ISLNK (i_mode d) = false ->
  i_uid d = euid w ->
  exists d',
    files (snd (sim_utime p a m w)) = <[p := d']> (files w) /\
    i_mtime d' = m /\ same_kind d d' /\ i_data d' = i_data d /\
    i_uid d' = euid (snd (sim_utime p a m w)).
Proof.
  intros Hp Hl Hu. unfold sim_utime.
  rewrite (lookup_follow_here _ _ _ Hp Hl). unfold owner_or_root.
  rewrite Hu, Z.eqb_refl, orb_true_r. cbn.
  exists (set_times d a m). repeat split. exact Hu.
Qed.

Lemma sim_chown_regular (p : string) (u g : Z) (w : simworld) (d : inode) :
  files w !! p = Some d -> S_ISLNK (i_mode d) = false ->
  exists d',
    files (snd (sim_chown p u g w)) = <[p := d']> (files w) /\
    i_mtime d' = i_mtime d /\ same_kind d d' /\ i_data d' = i_data d.
Proof.
  intros Hp Hl. unfold sim_chown.
  rewrite (lookup_follow_here _ _ _ Hp Hl).
  destruct (may_chown w d u g); cbn.
  - exists (set_owner d u g). repeat split.
  - exists d. rewrite insert_id by exact Hp. repeat split.
Qed.

Lemma sim_chmod_regular (p : string) (md : Z) (w : simworld) (d : inode) :
  files w !! p = Some d -> S_ISLNK (i_mode d) = false ->
  exists d',
    files (snd (sim_chmod p md w)) = <[p := d']> (files w) /\
    i_mtime d' = i_mtime d /\ same_kind d d' /\ i_data d' = i_data d.
Proof.
  intros Hp Hl. unfold sim_chmod.
  rewrite (lookup_follow_here _ _ _ Hp Hl).
  destruct (owner_or_root w d); cbn.
  - eexists. split; [reflexivity|]. cbn.
    repeat split. apply perm_type_bits.
  - exists d. rewrite insert_id by exact Hp. repeat split.
Qed.

(** The three calls of [copy_time] on a file that is not a link and
    belongs to the process: whatever [chown] and [chmod] return, the
    modification time is the one given to [utime]. *)
Lemma copy_time_regular (p : string) (sb sb' : stat) (s s' : state simworld)
    (d : inode) (r : bool) :
  files (world s) !! p = Some d -> S_ISLNK (i_mode d) = false ->
  i_uid d = euid (world s) ->
  copy_time p sb s = Some ((r, sb'), s') ->
  exists d',
    files (world s') = <[p := d']> (files (world s)) /\
    i_mtime d' = st_mtime sb /\ same_kind d d' /\ i_data d' = i_data d.
Proof.
  intros Hp Hl Hu H. apply copy_time_inv in H. cbv zeta in H.
  destruct H as (_ & _ & ->).
  change (os_utime p (st_atime sb) (st_mtime sb) (world s))
    with (sim_utime p (st_atime sb) (st_mtime sb) (world s)).
  destruct (sim_utime_regular p (st_atime sb) (st_mtime sb) (world s) d
              Hp Hl Hu) as (d1 & F1 & M1 & K1 & D1 & _).
  set (w1 := snd (sim_utime p (st_atime sb) (st_mtime sb) (world s))) in *.
  assert (Hp1 : files w1 !! p = Some d1)
    by (rewrite F1; apply lookup_insert_eq).
  assert (Hl1 : S_ISLNK (i_mode d1) = false)
    by (rewrite (same_kind_link _ _ K1); exact Hl).
  change (os_chown p (st_uid sb) (st_gid sb) w1)
    with (sim_chown p (st_uid sb) (st_gid sb) w1).
  destruct (sim_chown_regular p (st_uid sb) (st_gid sb) w1 d1 Hp1 Hl1)
    as (d2 & F2 & M2 & K2 & D2).
  set (w2 := snd (sim_chown p (st_uid sb) (st_gid sb) w1)) in *.
  assert (Hp2 : files w2 !! p = Some d2)
    by (rewrite F2; apply lookup_insert_eq).
  assert (Hl2 : S_ISLNK (i_mode d2) = false)
    by (rewrite (same_kind_link _ _ K2); exact Hl1).
  match goal with
  | |- context [os_chmod p ?md w2] =>
    change (os_chmod p md w2) with (sim_chmod p md w2);
    destruct (sim_chmod_regular p md w2 d2 Hp2 Hl2)
      as (d3 & F3 & M3 & K3 & D3)
  end.
  exists d3. rewrite F3, F2, F1, !insert_insert_eq.
  split; [reflexivity|]. split; [congruence|].
  split; [|congruence].
  eapply same_kind_trans; [exact K1|].
  eapply same_kind_trans; [exact K2|exact K3].
Qed.

Lemma S_ISREG_not_dir_lnk (m : Z) :
  S_ISREG m = true -> S_ISDIR m = false /\ S_ISLNK m = false.
Proof.
  unfold S_ISREG, S_ISDIR, S_ISLNK. intros H. apply Z.eqb_eq in H.
  rewrite H. split; reflexivity.
Qed.

Lemma first_run_state (cfg : config) (fuel : nat) (source root : string)
    (s : state simworld) (i : inode) :
  files (world s) !! source = Some i ->
  S_ISREG (i_mode i) = true ->
  excluded cfg source = false ->
  files (world s) !! join_path root source = None ->
  is_dir (files (world s)) (sim_dirname (join_path root source)) = true ->
  (length (i_data i) + 8 <= 8 * fuel)%nat ->
  exists r s' d,
    process_file cfg (S fuel) source root None s = Some (r, s') /\
    files (world s') = <[join_path root source := d]> (files (world s)) /\
    i_mtime d = i_mtime i /\ S_ISLNK (i_mode d) = false /\
    i_data d = i_data i.
Proof.
  intros Hsrc Hreg Hx Hdest Hdir Hfuel.
  destruct (S_ISREG_not_dir_lnk _ Hreg) as [Hnd Hnl].
  assert (Hl : os_lstat source (world s) = Some (stat_of i)).
  { cbn. unfold sim_lstat. rewrite Hsrc. reflexivity. }
  rewrite (process_file_entry cfg fuel source root None s _ Hl). cbv zeta.
  rewrite Hx. cbn [st_mode stat_of]. rewrite Hnd, Hreg.
  set (dest := join_path root source) in *.
  set (sb := stat_of i).
  unfold process_reg. cbn [prev_dest_of].
  set (s0 := record_call s (world s) (ELstat source (Some sb))).
  assert (Hadd : exists s1,
            (if count_bytes cfg then add_total (st_size sb) else ret tt) s0 =
            Some (tt, s1) /\ world s1 = world s).
  { destruct (count_bytes cfg); eexists; (split; [reflexivity|reflexivity]). }
  destruct Hadd as (s1 & Hadd & Hw1).
  erewrite bind_run by exact Hadd.
  unfold fresh_copy.
  destruct (copy_file_sim fuel source dest source sb i s1)
    as (s2 & Hcopy & Hfs2 & Hsame2).
  { rewrite Hw1. apply lookup_follow_here; assumption. }
  { exact Hnd. }
  { rewrite Hw1. exact Hdest. }
  { rewrite Hw1. exact Hdir. }
  { exact Hfuel. }
  rewrite Hw1 in Hfs2, Hsame2.
  erewrite bind_run by exact Hcopy.
  set (d0 := set_data (new_inode (world s) S_IFREG (st_mode sb) 0 "")
                      (i_data i) (clock (world s))) in *.
  assert (Hd0 : files (world s2) !! dest = Some d0)
    by (rewrite Hfs2; apply lookup_insert_eq).
  assert (Hl0 : S_ISLNK (i_mode d0) = false).
  { apply (new_inode_not_link (world s) S_IFREG (st_mode sb) 0 "");
      [reflexivity|discriminate]. }
  assert (Hu0 : i_uid d0 = euid (world s2)).
  { destruct Hsame2 as (_ & -> & _). reflexivity. }
  destruct (copy_time dest sb s2) as [[[rt sbt] s3]|] eqn:Hct.
  2: { rewrite copy_time_run in Hct. discriminate. }
  destruct (copy_time_regular dest sb sbt s2 s3 d0 rt Hd0 Hl0 Hu0 Hct)
    as (d & Hfs3 & Hm & Hk & Hdata).
  erewrite bind_run by (erewrite bind_run by exact Hct; reflexivity).
  cbn [fst].
  assert (Hend : exists s4,
            (if count_bytes cfg then add_copied (st_size sb) else ret tt) s3 =
            Some (tt, s4) /\ world s4 = world s3).
  { destruct (count_bytes cfg); eexists;
      (split; [reflexivity|reflexivity]). }
  destruct Hend as (s4 & Hend & Hw4).
  exists rt, s4, d. split.
  - erewrite bind_run by exact Hend. reflexivity.
  - rewrite Hw4, Hfs3, Hfs2, insert_insert_eq.
    split; [reflexivity|]. split; [exact Hm|].
    split; [rewrite (same_kind_link _ _ Hk); exact Hl0|].
    rewrite Hdata. reflexivity.
Qed.

Lemma linked_run (cfg : config) (fuel : nat) (source root prev : string)
    (s : state simworld) (i d : inode) :
  files (world s) !! source = Some i ->
  S_ISREG (i_mode i) = true ->
  excluded cfg source = false ->
  force_copy cfg = false ->
  files (world s) !! join_path prev source = Some d ->
  S_ISLNK (i_mode d) = false ->
  i_mtime d = i_mtime i ->
  let old := join_path prev source in
  let new := join_path root source in
  let made := sim_symlink old new (world s) in
  process_file cfg (S fuel) source root (Some prev) s =
  Some (fst made,
        {| world := snd made;
           total_bytes :=
             total_bytes s + (if count_bytes cfg then st_size (stat_of i)
                              else 0);
           bytes_copied := bytes_copied s;
           trace := trace s ++
             [ELstat source (Some (stat_of i));
              EStat old (Some (stat_of d));
              ELstat old (Some (stat_of d));
              ESymlink old new (fst made)] |}).
Proof.
  intros Hsrc Hreg Hx Hforce Hold Hl Hm. cbv zeta.
  destruct (S_ISREG_not_dir_lnk _ Hreg) as [Hnd _].
  assert (Hls : os_lstat source (world s) = Some (stat_of i)).
  { cbn. unfold sim_lstat. rewrite Hsrc. reflexivity. }
  rewrite (process_file_entry cfg fuel source root (Some prev) s _ Hls).
  cbv zeta. rewrite Hx. cbn [st_mode stat_of]. rewrite Hnd, Hreg.
  unfold process_reg. cbn [prev_dest_of]. rewrite Hforce.
  set (s0 := record_call s (world s) (ELstat source (Some (stat_of i)))).
  set (s1 := {| world := world s;
                total_bytes :=
                  total_bytes s + (if count_bytes cfg
                                   then st_size (stat_of i) else 0);
                bytes_copied := bytes_copied s;
                trace := trace s0 |}).
  assert (Hadd : (if count_bytes cfg then add_total (st_size (stat_of i))
                  else ret tt) s0 = Some (tt, s1)).
  { unfold s1, s0. destruct (count_bytes cfg).
    - reflexivity.
    - unfold ret, record_call. cbn. rewrite Z.add_0_r. reflexivity. }
  erewrite bind_run by exact Hadd.
  unfold sys_stat. erewrite bind_run by apply query_run.
  cbn [world s1].
  change (os_stat (join_path prev source) (world s))
    with (sim_stat (join_path prev source) (world s)).
  unfold sim_stat. rewrite (lookup_follow_here _ _ _ Hold Hl).
  cbn [fmap option_fmap option_map snd st_mtime stat_of].
  rewrite Hm, Z.eqb_refl. cbn [negb].
  rewrite symlink_file_run. cbv zeta. cbn [world record_call].
  change (os_lstat (join_path prev source) (world s))
    with (sim_lstat (join_path prev source) (world s)).
  unfold sim_lstat. rewrite Hold.
  cbn [fmap option_fmap option_map st_mode stat_of]. rewrite Hl.
  unfold record_call, s1, s0, record_call.
  cbn [world total_bytes bytes_copied trace].
  rewrite <- !app_assoc. reflexivity.
Qed.

(** X15.  A regular file that a first run copied into a snapshot is not
    copied again by the next run when it did not change: the first run
    leaves at the destination a file with the bytes of the source, and a
    run that has the first root as previous snapshot only looks at the
    source and at that copy and makes one symbolic link to the copy; it
    opens no file and adds nothing to the copied bytes. *)
Theorem unchanged_file_is_linked_next_time (cfg : config) (fuel fuel2 : nat)
    (source root1 root2 : string) (s : state simworld) (i : inode) :
  files (world s) !! source = Some i ->
  S_ISREG (i_mode i) = true ->
  excluded cfg source = false ->
  force_copy cfg = false ->
  files (world s) !! join_path root1 source = None ->
  is_dir (files (world s)) (sim_dirname (join_path root1 source)) = true ->
  (length (i_data i) + 8 <= 8 * fuel)%nat ->
  exists r1 s1 d,
    process_file cfg (S fuel) source root1 None s = Some (r1, s1) /\
    files (world s1) !! join_path root1 source = Some d /\
    i_data d = i_data i /\
    exists ok s2,
      process_file cfg (S fuel2) source root2 (Some root1) s1 =
        Some (ok, s2) /\
      trace s2 = trace s1 ++
        [ELstat source (Some (stat_of i));
         EStat (join_path root1 source) (Some (stat_of d));
         ELstat (join_path root1 source) (Some (stat_of d));
         ESymlink (join_path root1 source) (join_path root2 source) ok] /\
      bytes_copied s2 = bytes_copied s1.
Proof.
  intros Hsrc Hreg Hx Hforce Hdest Hdir Hfuel.
  destruct (first_run_state cfg fuel source root1 s i Hsrc Hreg Hx Hdest
              Hdir Hfuel) as (r1 & s1 & d & Hrun & Hfs & Hm & Hl & Hdata).
  exists r1, s1, d. split; [exact Hrun|].
  assert (Hd : files (world s1) !! join_path root1 source = Some d)
    by (rewrite Hfs; apply lookup_insert_eq).
  assert (Hs1 : files (world s1) !! source = Some i).
  { rewrite Hfs, lookup_insert_ne by congruence. exact Hsrc. }
  split; [exact Hd|]. split; [exact Hdata|].
  pose proof (linked_run cfg fuel2 source root2 root1 s1 i d Hs1 Hreg Hx
                Hforce Hd Hl Hm) as H2.
  cbv zeta in H2. eexists _, _. split; [exact H2|].
  split; reflexivity.
Qed.

(** ** main on the executable file system *)

Lemma each_source_skeeps (cfg : config) (fuel : nat) (sources : list string)
    (dest : string) (prev : option string) :
  forall (s s' : state simworld) r,
    each_source cfg fuel sources dest prev s = Some (r, s') -> skeeps s s'.
Proof.
  induction sources as [|a l IH]; intros s s' r H.
  - injection H as _ <-. apply skeeps_refl.
  - cbn [each_source] in H. apply bind_inv in H as (ok & s1 & H1 & H).
    apply process_file_skeeps in H1.
    destruct ok.
    + eapply skeeps_trans; [exact H1|eapply IH; exact H].
    + injection H as _ <-. exact H1.
Qed.

(** A loop over the sources that ended with 0 processed each of them
    with success, one after the other. *)
Lemma each_source_split (cfg : config) (fuel : nat) (l1 l2 : list string)
    (source dest : string) (prev : option string) (s s' : state simworld) :
  each_source cfg fuel (l1 ++ source :: l2) dest prev s = Some (0, s') ->
  exists sa sb,
    each_source cfg fuel l1 dest prev s = Some (0, sa) /\
    process_file cfg fuel source dest prev sa = Some (true, sb) /\
    each_source cfg fuel l2 dest prev sb = Some (0, s').
Proof.
  rewrite each_source_app.
  destruct (each_source cfg fuel l1 dest prev s) as [[r s1]|];
    [|discriminate].
  destruct (r =? 0) eqn:Hr.
  - apply Z.eqb_eq in Hr. subst r. cbn [each_source]. intros H.
    apply bind_inv in H as (ok & sb & Hp & H).
    destruct ok; [|discriminate]. exists s1, sb. auto.
  - intros H. injection H as -> _. discriminate.
Qed.

(** X16.  When [main] returns 0, [rmkdir] made the path of the new
    snapshot without an error, the loop over the sources ran from the
    state [rmkdir] left to the final state, and in it every source was
    processed with success, each from the state the one before it left,
    against the snapshot that [locate_previous] found; at the end the
    path of the new snapshot is a directory, and every name that existed
    before the run still exists with the same kind (and, for a link, the
    same target). *)
Theorem main_success_leaves_snapshot (cfg : config) (fuel : nat)
    (stamp : string) (args : list string) (st st' : state simworld) :
  main cfg fuel stamp args st = Some (0, st') ->
  let root := List.last args "" in
  let dest := join_path root stamp in
  is_dir (files (world st')) dest = true /\
  keeps (files (world st)) (files (world st')) /\
  exists previous s0 s3,
    locate_previous cfg root st = Some (previous, s0) /\
    rmkdir fuel dest 0x1ED (record_call s0 (world s0) (EStat dest None)) =
      Some (0, s3) /\
    each_source cfg fuel (removelast args) dest previous s3 =
      Some (0, st') /\
    forall l1 source l2,
      removelast args = l1 ++ source :: l2 ->
      exists sa sb,
        each_source cfg fuel l1 dest previous s3 = Some (0, sa) /\
        process_file cfg fuel source dest previous sa = Some (true, sb) /\
        each_source cfg fuel l2 dest previous sb = Some (0, st').
Proof.
  unfold main. intros H. cbv zeta.
  destruct (length args <? 2)%nat; [discriminate|].
  apply bind_inv in H as (previous & s1 & Hp & H).
  assert (Hw1 : world s1 = world st).
  { pose proof Hp as Hp'. rewrite locate_previous_run in Hp'.
    destruct (os_opendir _ _); injection Hp' as _ <-; reflexivity. }
  unfold sys_stat in H. erewrite bind_run in H by apply query_run.
  destruct (os_stat _ (world s1)); [discriminate|].
  apply bind_inv in H as (made & s3 & Hm & H).
  destruct (made <? 0) eqn:Hneg; [discriminate|].
  pose proof (rmkdir_skeeps _ _ _ _ _ _ Hm) as K3.
  pose proof (rmkdir_sim _ _ _ _ _ _ Hm) as (_ & _ & _ & Hres & Hdir).
  destruct Hres as [Hres|Hres]; [|rewrite Hres in Hneg; discriminate].
  subst made. specialize (Hdir eq_refl).
  pose proof (each_source_skeeps _ _ _ _ _ _ _ _ H) as K4.
  split; [|split].
  - eapply is_dir_keeps; [exact K4|exact Hdir].
  - unfold skeeps in K3, K4. cbn [world record_call] in K3.
    rewrite Hw1 in K3. eapply keeps_trans; eassumption.
  - exists previous, s1, s3. split; [exact Hp|]. split; [exact Hm|].
    split; [exact H|].
    intros l1 source l2 E. rewrite E in H.
    apply each_source_split. exact H.
Qed.
(** ** The mask of the process *)

Ltac frame_process :=
  repeat match goal with
         | |- context [match ?x with _ => _ end] => destruct x
         end;
  repeat split.

Lemma create_same w p i : same_process w (snd (create w p i)).
Proof. unfold create. frame_process. Qed.

Lemma sim_symlink_same t p w : same_process w (snd (sim_symlink t p w)).
Proof. unfold sim_symlink, create. frame_process. Qed.

Lemma sim_mknod_same p m r w : same_process w (snd (sim_mknod p m r w)).
Proof. unfold sim_mknod, create. frame_process. Qed.

Lemma sim_utime_same p a m w : same_process w (snd (sim_utime p a m w)).
Proof. unfold sim_utime. frame_process. Qed.

Lemma sim_chown_same p u g w : same_process w (snd (sim_chown p u g w)).
Proof. unfold sim_chown. frame_process. Qed.

Lemma sim_lchown_same p u g w : same_process w (snd (sim_lchown p u g w)).
Proof. unfold sim_lchown. frame_process. Qed.

Lemma sim_chmod_same p m w : same_process w (snd (sim_chmod p m w)).
Proof. unfold sim_chmod. frame_process. Qed.

Lemma sim_open_rd_same p w : same_process w (snd (sim_open_rd p w)).
Proof. unfold sim_open_rd, open_at. frame_process. Qed.

Lemma sim_open_wr_same p m w : same_process w (snd (sim_open_wr p m w)).
Proof. unfold sim_open_wr, open_at. frame_process. Qed.

Lemma sim_read_same fd n w : same_process w (snd (sim_read fd n w)).
Proof. unfold sim_read. frame_process. Qed.

Lemma sim_write_same fd d w : same_process w (snd (sim_write fd d w)).
Proof. unfold sim_write. frame_process. Qed.

Lemma call_same {A : Type} (f : simworld -> A * simworld) (ev : A -> event)
    (s s' : state simworld) (a : A) :
  (forall w, same_process w (snd (f w))) ->
  call f ev s = Some (a, s') -> same_process (world s) (world s').
Proof.
  intros Hf. rewrite call_run. intros H. injection H as _ <-. apply Hf.
Qed.

Lemma query_same {A : Type} (f : simworld -> A) (ev : A -> event)
    (s s' : state simworld) (a : A) :
  query f ev s = Some (a, s') -> same_process (world s) (world s').
Proof.
  rewrite query_run. intros H. injection H as _ <-. apply same_process_refl.
Qed.

Lemma close_same fd (s s' : state simworld) u :
  sys_close fd s = Some (u, s') -> same_process (world s) (world s').
Proof.
  unfold sys_close. intros H. eapply call_same; [|exact H].
  intros w. repeat split.
Qed.

Lemma copy_time_same file sb (s s' : state simworld) x :
  copy_time file sb s = Some (x, s') -> same_process (world s) (world s').
Proof.
  destruct x as [b sb']. intros H. apply copy_time_inv in H.
  cbv zeta in H. destruct H as (_ & _ & ->).
  eapply same_process_trans; [apply sim_utime_same|].
  eapply same_process_trans; [apply sim_chown_same|apply sim_chmod_same].
Qed.

Lemma copy_loop_same fuel fin fout (s s' : state simworld) r :
  copy_loop fuel fin fout s = Some (r, s') ->
  same_process (world s) (world s').
Proof.
  revert s. induction fuel as [|n IH]; intros s H; [discriminate|].
  cbn [copy_loop] in H. apply bind_inv in H as (rd & s1 & Hrd & H).
  assert (G1 : same_process (world s) (world s1)).
  { eapply call_same; [|exact Hrd]. intros w. apply sim_read_same. }
  destruct rd as [[|b bs]|].
  - injection H as _ <-. exact G1.
  - apply bind_inv in H as (wr & s2 & Hwr & H).
    assert (G2 : same_process (world s1) (world s2)).
    { eapply call_same; [|exact Hwr]. intros w. apply sim_write_same. }
    destruct (wr =? Z.of_nat (length (b :: bs))).
    + apply IH in H. eapply same_process_trans; [exact G1|].
      eapply same_process_trans; eassumption.
    + injection H as _ <-. eapply same_process_trans; eassumption.
  - injection H as _ <-. exact G1.
Qed.

Lemma copy_file_same fuel source dest sb (s s' : state simworld) r :
  copy_file fuel source dest sb s = Some (r, s') ->
  same_process (world s) (world s').
Proof.
  unfold copy_file. intros H.
  apply bind_inv in H as (i & s1 & Hi & H).
  assert (G1 : same_process (world s) (world s1)).
  { eapply call_same; [|exact Hi]. intros w. apply sim_open_rd_same. }
  destruct i as [fin|].
  - apply bind_inv in H as (o & s2 & Ho & H).
    assert (G2 : same_process (world s1) (world s2)).
    { eapply call_same; [|exact Ho]. intros w. apply sim_open_wr_same. }
    destruct o as [fout|].
    + apply bind_inv in H as (b & s3 & Hb & H).
      assert (G3 : same_process (world s2) (world s3)).
      { eapply call_same; [|exact Hb]. intros w. apply same_process_refl. }
      apply bind_inv in H as (res & s4 & Hres & H).
      assert (G4 : same_process (world s3) (world s4)).
      { destruct b.
        - eapply copy_loop_same; exact Hres.
        - injection Hres as _ <-. apply same_process_refl. }
      apply bind_inv in H as (u1 & s5 & H5 & H). apply close_same in H5.
      apply bind_inv in H as (u2 & s6 & H6 & H). apply close_same in H6.
      injection H as _ <-.
      repeat (eapply same_process_trans; [eassumption|]).
      apply same_process_refl.
    + apply bind_inv in H as (u1 & s5 & H5 & H).
      apply bind_inv in H as (u2 & s6 & H6 & H). discriminate.
  - apply bind_inv in H as (u1 & s5 & H5 & H). discriminate.
Qed.

Lemma fresh_copy_same cfg fuel source dest sb (s s' : state simworld) r :
  fresh_copy cfg fuel source dest sb s = Some (r, s') ->
  same_process (world s) (world s').
Proof.
  unfold fresh_copy. intros H.
  apply bind_inv in H as (c & s1 & Hc & H). apply copy_file_same in Hc.
  apply bind_inv in H as (res & s2 & Hres & H).
  apply bind_inv in H as (u & s3 & Hu & H). injection H as _ <-.
  assert (G2 : same_process (world s1) (world s2)).
  { destruct c.
    - apply bind_inv in Hres as (x & s2' & Hct & Hres).
      injection Hres as _ <-. eapply copy_time_same; exact Hct.
    - injection Hres as _ <-. apply same_process_refl. }
  assert (G3 : world s3 = world s2).
  { destruct (count_bytes cfg).
    - unfold add_copied in Hu. injection Hu as _ <-. reflexivity.
    - injection Hu as _ <-. reflexivity. }
  rewrite G3. eapply same_process_trans; eassumption.
Qed.

Lemma symlink_file_same p dest (s s' : state simworld) r :
  symlink_file p dest s = Some (r, s') -> same_process (world s) (world s').
Proof.
  rewrite symlink_file_run. cbv zeta.
  destruct (os_lstat p (world s)) as [sb|].
  - destruct (S_ISLNK (st_mode sb)).
    + destruct (os_readlink p PATH_MAX (world s)) as [t|].
      * intros H. injection H as _ <-. apply sim_symlink_same.
      * intros H. injection H as _ <-. apply same_process_refl.
    + intros H. injection H as _ <-. apply sim_symlink_same.
  - intros H. injection H as _ <-. apply same_process_refl.
Qed.

Lemma process_special_same source dest sb (s s' : state simworld) r :
  process_special source dest sb s = Some (r, s') ->
  same_process (world s) (world s').
Proof.
  unfold process_special. intros H.
  destruct (S_ISFIFO (st_mode sb)).
  { eapply call_same; [|exact H]. intros w. apply create_same. }
  destruct (S_ISLNK (st_mode sb)).
  - apply bind_inv in H as (t & s1 & Ht & H). apply query_same in Ht.
    destruct t as [buffer|].
    + apply bind_inv in H as (l & s2 & Hl & H).
      assert (G : same_process (world s1) (world s2)).
      { eapply call_same; [|exact Hl]. intros w. apply sim_symlink_same. }
      eapply same_process_trans; [exact Ht|].
      eapply same_process_trans; [exact G|].
      destruct l.
      * eapply call_same; [|exact H]. intros w. apply sim_lchown_same.
      * injection H as _ <-. apply same_process_refl.
    + injection H as _ <-. exact Ht.
  - eapply call_same; [|exact H]. intros w. apply sim_mknod_same.
Qed.

Lemma process_reg_same cfg fuel source dest pd sb (s s' : state simworld) r :
  process_reg cfg fuel source dest pd sb s = Some (r, s') ->
  same_process (world s) (world s').
Proof.
  intros H. apply process_reg_cases in H as (s2 & Hw & [Hc|(p & _ & Hs)]).
  - apply fresh_copy_same in Hc. rewrite <- Hw. exact Hc.
  - apply symlink_file_same in Hs. rewrite <- Hw. exact Hs.
Qed.

Lemma walk_same (rec : string -> M simworld bool) source entries :
  (forall child s s' r,
     Z.land (mask (world s)) 0x1FF = mask (world s) ->
     rec child s = Some (r, s') -> same_process (world s) (world s')) ->
  forall result s s' r,
    Z.land (mask (world s)) 0x1FF = mask (world s) ->
    walk rec source entries result s = Some (r, s') ->
    same_process (world s) (world s').
Proof.
  intros Hrec. induction entries as [|name rest IH]; intros result s s' r Hm H.
  - injection H as _ <-. apply same_process_refl.
  - cbn [walk] in H. destruct result.
    + destruct (ignore_dir name); [eapply IH; eassumption|].
      apply bind_inv in H as (r1 & s1 & H1 & H).
      pose proof (Hrec _ _ _ _ Hm H1) as G1.
      eapply same_process_trans; [exact G1|].
      eapply IH; [|exact H]. destruct G1 as (-> & _). exact Hm.
    + injection H as _ <-. apply same_process_refl.
Qed.

(** The mask is cleared while [rmkdir] runs and is then what it was. *)
Lemma enter_dir_same fuel source dest sb (s s' : state simworld) x :
  Z.land (mask (world s)) 0x1FF = mask (world s) ->
  enter_dir fuel source dest sb s = Some (x, s') ->
  same_process (world s) (world s').
Proof.
  unfold enter_dir. intros Hm H.
  unfold sys_umask at 1 in H. erewrite bind_run in H by apply call_run.
  change (os_umask 0 (world s)) with (sim_umask 0 (world s)) in H.
  unfold sim_umask in H. cbn [fst snd] in H.
  apply bind_inv in H as (r & s2 & H2 & H).
  apply rmkdir_sim in H2 as ((A & B & C & D) & _).
  cbn [world record_call mask euid egid clock with_mask] in A, B, C, D.
  unfold sys_umask in H. erewrite bind_run in H by apply call_run.
  change (os_umask (mask (world s)) (world s2))
    with (sim_umask (mask (world s)) (world s2)) in H.
  unfold sim_umask in H. cbn [fst snd] in H.
  assert (G : same_process (world s)
                (with_mask (world s2) (Z.land (mask (world s)) 0x1FF))).
  { repeat split; cbn; assumption. }
  destruct (r <? 0).
  - injection H as _ <-. exact G.
  - apply bind_inv in H as (d & s4 & H4 & H). apply query_same in H4.
    cbn [world record_call] in H4.
    destruct d; injection H as _ <-;
      (eapply same_process_trans; [exact G|exact H4]).
Qed.

Lemma leave_dir_same dest sb saved (s s' : state simworld) r :
  leave_dir dest sb saved s = Some (r, s') ->
  same_process (world s) (world s').
Proof.
  unfold leave_dir. intros H.
  apply bind_inv in H as (c & s1 & H1 & H).
  assert (G1 : same_process (world s) (world s1)).
  { eapply call_same; [|exact H1]. intros w. apply sim_chmod_same. }
  eapply same_process_trans; [exact G1|]. destruct c.
  - apply bind_inv in H as (t & s2 & H2 & H). injection H as _ <-.
    apply copy_time_same in H2. exact H2.
  - injection H as _ <-. apply same_process_refl.
Qed.

Lemma process_file_same cfg fuel :
  forall source root prev (s s' : state simworld) r,
    Z.land (mask (world s)) 0x1FF = mask (world s) ->
    process_file cfg fuel source root prev s = Some (r, s') ->
    same_process (world s) (world s').
Proof.
  induction fuel as [|n IH]; intros source root prev s s' r Hm H;
    [discriminate|].
  destruct (os_lstat source (world s)) as [sb|] eqn:Hl.
  - rewrite (process_file_entry cfg n source root prev s sb Hl) in H.
    destruct (excluded cfg source).
    { injection H as _ <-. apply same_process_refl. }
    destruct (S_ISDIR (st_mode sb)).
    { rewrite process_dir_split in H.
      destruct (enter_dir n source (join_path root source) sb _)
        as [[[[entries saved]|] s0]|] eqn:He; [| |discriminate].
      - apply enter_dir_same in He; [|exact Hm].
        cbn [world record_call] in He.
        assert (Hm0 : Z.land (mask (world s0)) 0x1FF = mask (world s0)).
        { destruct He as (-> & _). exact Hm. }
        destruct (walk _ source entries true s0) as [[res s1]|] eqn:Hw;
          [|discriminate].
        apply (walk_same _ source entries
                 (fun child a b c => IH child root prev a b c)) in Hw;
          [|exact Hm0].
        cbv zeta in H.
        assert (G : same_process (world s) (world s1))
          by (eapply same_process_trans; eassumption).
        destruct res.
        + apply leave_dir_same in H.
          eapply same_process_trans; [exact G|exact H].
        + injection H as _ <-. exact G.
      - injection H as _ <-. apply enter_dir_same in He; [exact He|exact Hm]. }
    destruct (S_ISREG (st_mode sb)).
    { apply process_reg_same in H. exact H. }
    destruct (is_special (st_mode sb)).
    + apply process_special_same in H. exact H.
    + injection H as _ <-. apply same_process_refl.
  - rewrite (process_file_lstat_fails cfg n source root prev s Hl) in H.
    injection H as _ <-. apply same_process_refl.
Qed.

(** X17.  A run of [process_file], on a file or on a whole tree and
    whether it succeeds or fails, leaves the mask of the process as it
    found it: each clearing of the mask around [rmkdir] is undone before
    anything else is made. *)
Theorem process_file_restores_umask (cfg : config) (fuel : nat)
    (source root : string) (prev : option string) (s s' : state simworld)
    (r : bool) :
  Z.land (mask (world s)) 0x1FF = mask (world s) ->
  process_file cfg fuel source root prev s = Some (r, s') ->
  mask (world s') = mask (world s).
Proof.
  intros Hm H. apply process_file_same in H; [|exact Hm].
  destruct H as (A & _). exact A.
Qed.

(** ** The further properties on the small tree *)

Lemma sim_sizes_nonneg : sizes_nonneg (W := simworld).
Proof.
  intros p w sb H. cbn in H. unfold sim_lstat in H.
  destruct (files w !! p) as [i|]; [|discriminate].
  injection H as <-. cbn [st_size stat_of].
  destruct (S_ISLNK (i_mode i)); lia.
Qed.

(** X4 on the small tree: the loop that copies [/a.txt] ends with a read
    of nothing. *)
Lemma copy_loop_fails_only_on_short_write_witness :
  let s0 := final_state
              (bind (sys_open_rd "/a.txt")
                    (fun _ => sys_open_wr "/backup/T1/a.txt" 0x1A4)
                    (init demo)) (init demo) in
  let run := copy_loop 2 3 4 s0 in
  exists front last,
    trace (final_state run s0) = trace s0 ++ front ++ [last] /\
    (last = ERead 3 8 None \/ last = ERead 3 8 (Some [])).
Proof.
  intros s0 run.
  destruct (copy_loop_fails_only_on_short_write 2 3 4 s0
              (final_state run s0) true)
    as (front & last & Ht & _ & Hl).
  - apply run_result. vm_compute; reflexivity.
  - exists front, last. split; [exact Ht|exact Hl].
Defined.

(** X5 on the small tree: the calls of the copy of [/a.txt]; a source
    that is not there and a destination in a directory that is not
    there leave the copy without a defined result. *)
Lemma copy_file_call_shapes_witness :
  let sb := stat_of (reg_inode 1000 0x1A4 100 ["X"%byte]) in
  let run := copy_file 2 "/a.txt" "/backup/T1/a.txt" sb (init demo) in
  copy_file 2 "/gone" "/backup/T1/a.txt" sb (init demo) = None /\
  copy_file 2 "/a.txt" "/nowhere/a.txt" sb (init demo) = None /\
  exists fin fout ok loop,
    trace (final_state run (init demo)) =
      [] ++ [EOpenRd "/a.txt" (Some fin);
             EOpenWr "/backup/T1/a.txt" (Z.lor S_IFREG 0x1A4) (Some fout);
             EMalloc 4096 ok]
         ++ loop ++ [EClose fin; EClose fout] /\
    Forall (loop_event fin fout) loop.
Proof.
  intros sb run. split; [|split].
  - destruct (copy_file_call_shapes 2 "/gone" "/backup/T1/a.txt" sb
                (init demo) (init demo) true) as (H & _).
    apply H. vm_compute; reflexivity.
  - destruct (copy_file_call_shapes 2 "/a.txt" "/nowhere/a.txt" sb
                (init demo) (init demo) true) as (_ & H & _).
    apply H. vm_compute; reflexivity.
  - destruct (copy_file_call_shapes 2 "/a.txt" "/backup/T1/a.txt" sb
                (init demo) (final_state run (init demo)) true)
      as (_ & _ & H).
    destruct H as (fin & fout & ok & loop & Ht & Hl & _).
    + apply run_result. vm_compute; reflexivity.
    + exists fin, fout, ok, loop. split; [exact Ht|exact Hl].
Defined.

(** X6 on the small tree: without byte counting the run on [/mix], which
    copies a file, leaves the counters at zero. *)
Lemma counters_stay_without_counting_witness :
  let run := process_file default_config 4 "/mix" "/backup/T1" None
               (init demo) in
  total_bytes (final_state run (init demo)) = 0 /\
  bytes_copied (final_state run (init demo)) = 0.
Proof.
  intros run.
  apply (counters_stay_without_counting default_config 4 "/mix" "/backup/T1"
           None (init demo) (final_state run (init demo)) false).
  - reflexivity.
  - apply run_result. vm_compute; reflexivity.
Defined.

(** X7 on the small tree: three generations of [/a.txt] with byte
    counting; the last one links. *)
Lemma copied_bytes_within_total_witness :
  let s0 := final_state
              (process_file counting 3 "/a.txt" "/backup/T1" None (init demo))
              (init demo) in
  let run := process_file counting 3 "/a.txt" "/backup/T2"
               (Some "/backup/T1") s0 in
  0 <= bytes_copied (final_state run s0) - bytes_copied s0
    <= total_bytes (final_state run s0) - total_bytes s0.
Proof.
  intros s0 run.
  apply (copied_bytes_within_total counting 3 "/a.txt" "/backup/T2"
           (Some "/backup/T1") s0 (final_state run s0) true).
  - apply sim_sizes_nonneg.
  - apply run_result. vm_compute; reflexivity.
Defined.

(** X8 on the small tree with a fifo: one [mkfifo] with the mode of the
    source. *)
Lemma special_file_is_one_call_witness :
  outcome (process_file default_config 1 "/pipe" "/backup/T1" None
             (init demo_fifo)) =
  Some (true,
        [ELstat "/pipe" (Some (stat_of (fifo_inode 1000 0x1A4)));
         EMkfifo "/backup/T1/pipe" (Z.lor S_IFIFO 0x1A4) true], 0, 0).
Proof.
  pose proof (special_file_is_one_call default_config 0 "/pipe" "/backup/T1"
                None (init demo_fifo) (stat_of (fifo_inode 1000 0x1A4))) as H.
  cbv zeta in H. rewrite H.
  - vm_compute; reflexivity.
  - vm_compute; reflexivity.
  - vm_compute; reflexivity.
  - vm_compute; reflexivity.
Defined.

(** X9 on the small tree: [/backup/T1] exists, and [main] with the stamp
    [T1] returns 1 and leaves the world as it is. *)
Lemma main_refuses_existing_snapshot_witness :
  exists st',
    main default_config 4 "T1" ["/a.txt"; "/backup"] (init demo) =
      Some (1, st') /\
    world st' = demo.
Proof.
  destruct (main_refuses_existing_snapshot default_config 4 "T1"
              ["/a.txt"; "/backup"] (init demo)
              (stat_of (dir_inode 1000 0x1ED)))
    as (st' & tr & Hrun & Hw & _).
  - cbn. lia.
  - vm_compute; reflexivity.
  - exists st'. split; [exact Hrun|exact Hw].
Defined.

(** X10 on the small tree: [/a.txt] is copied, [/mix] fails at the
    [chown] of its first file, and [/ro] is never looked at. *)
Lemma each_source_stops_at_first_failure_witness :
  let s1 := final_state
              (each_source default_config 4 ["/a.txt"] "/backup/T1" None
                 (init demo)) (init demo) in
  let s2 := final_state
              (process_file default_config 4 "/mix" "/backup/T1" None s1)
              s1 in
  each_source default_config 4 ["/a.txt"; "/mix"; "/ro"] "/backup/T1" None
    (init demo) = Some (1, s2).
Proof.
  intros s1 s2.
  apply (each_source_stops_at_first_failure default_config 4 ["/a.txt"]
           ["/ro"] "/mix" "/backup/T1" None (init demo) s1 s2).
  - apply run_result. vm_compute; reflexivity.
  - apply run_result. vm_compute; reflexivity.
Defined.

(** X11 on the small tree: [rmkdir] of [/backup/T1/x/y] returns 0, the
    path is a directory, [/a.txt] is as it was but perhaps for its
    times, and [/backup/T1/x], which was not there, can only be a
    directory of the user. *)
Lemma rmkdir_only_adds_directories_witness :
  let run := rmkdir 3 "/backup/T1/x/y" 0x1ED (init demo) in
  let after := files (world (final_state run (init demo))) in
  is_dir after "/backup/T1/x/y" = true /\
  (exists i', after !! "/a.txt" = Some i' /\
              same_but_times (reg_inode 1000 0x1A4 100 ["X"%byte]) i') /\
  (forall i', after !! "/backup/T1/x" = Some i' ->
              S_ISDIR (i_mode i') = true /\ i_uid i' = 1000).
Proof.
  intros run after.
  destruct (rmkdir_only_adds_directories 3 "/backup/T1/x/y" 0x1ED (init demo)
              (final_state run (init demo)) 0)
    as (_ & Hdir & Hold & Hnew).
  - apply run_result. vm_compute; reflexivity.
  - split; [apply Hdir; reflexivity|]. split.
    + apply Hold. vm_compute; reflexivity.
    + intros i' Hi. apply (Hnew "/backup/T1/x" i'); [|exact Hi].
      vm_compute; reflexivity.
Defined.

(** X12 on the small tree: neither [/backup/T1/x/y] nor [/backup/T1/x]
    is there; [rmkdir] returns 0 and both are directories. *)
Lemma rmkdir_makes_missing_ancestors_witness :
  let run := rmkdir 2 "/backup/T1/x/y" 0x1ED (init demo) in
  let after := files (world (final_state run (init demo))) in
  is_dir after "/backup/T1/x/y" = true /\
  is_dir after "/backup/T1/x" = true /\
  sim_dirname_static "/backup/T1/x" = false.
Proof.
  intros run after.
  destruct (rmkdir_makes_missing_ancestors 2 2 "/backup/T1/x/y" 0x1ED
              (init demo) (final_state run (init demo)) 0)
    as (_ & Hst & Hdir).
  - apply run_result. vm_compute; reflexivity.
  - intros q [<-|[<-|[]]]; vm_compute; reflexivity.
  - split; [|split].
    + apply Hdir; [reflexivity|]. left. reflexivity.
    + apply Hdir; [reflexivity|]. right. left. vm_compute; reflexivity.
    + apply Hst. right. left. vm_compute; reflexivity.
Defined.

(** X13 on the small tree: the copy of [/a.txt] has its one byte, and
    [/mix/b] is as it was but perhaps for its times. *)
Lemma copy_file_copies_contents_witness :
  let sb := stat_of (reg_inode 1000 0x1A4 100 ["X"%byte]) in
  let run := copy_file 2 "/a.txt" "/backup/T1/a.txt" sb (init demo) in
  let after := files (world (final_state run (init demo))) in
  exists di,
    after !! "/backup/T1/a.txt" = Some di /\
    S_ISREG (i_mode di) = true /\
    i_data di = ["X"%byte] /\
    exists j', after !! "/mix/b" = Some j' /\
               same_but_times (reg_inode 1000 0x1A4 100 ["Y"%byte]) j'.
Proof.
  intros sb run after.
  destruct (copy_file_copies_contents 2 "/a.txt" "/backup/T1/a.txt" "/a.txt"
              sb (reg_inode 1000 0x1A4 100 ["X"%byte]) (init demo)
              (final_state run (init demo)))
    as (di & Hd & Hreg & Hdata & Hrest).
  - apply run_result. vm_compute; reflexivity.
  - vm_compute; reflexivity.
  - vm_compute; reflexivity.
  - vm_compute; reflexivity.
  - exists di. split; [exact Hd|]. split; [exact Hreg|].
    split; [exact Hdata|].
    apply Hrest; [discriminate|vm_compute; reflexivity].
Defined.

(** X14 on the small tree: [copy_time] gives [/mix/b] the times of
    [/a.txt]. *)
Lemma copy_time_restores_metadata_witness :
  let sb := stat_of (reg_inode 1000 0x1A4 100 ["X"%byte]) in
  let run := copy_time "/mix/b" sb (init demo) in
  exists st',
    sim_stat "/mix/b" (world (final_state run (init demo))) = Some st' /\
    st_mtime st' = 100.
Proof.
  intros sb run.
  destruct (copy_time_restores_metadata "/mix/b" sb sb (init demo)
              (final_state run (init demo)))
    as (_ & st' & Hst & _ & Hm & _).
  - apply run_result. vm_compute; reflexivity.
  - exists st'. split; [exact Hst|exact Hm].
Defined.

(** X15 on the small tree: [/a.txt] is copied to [/backup/T1] and linked
    from [/backup/T2]. *)
Lemma unchanged_file_is_linked_next_time_witness :
  exists r1 s1 ok s2,
    process_file default_config 3 "/a.txt" "/backup/T1" None (init demo) =
      Some (r1, s1) /\
    process_file default_config 1 "/a.txt" "/backup/T2" (Some "/backup/T1")
      s1 = Some (ok, s2) /\
    bytes_copied s2 = bytes_copied s1.
Proof.
  destruct (unchanged_file_is_linked_next_time default_config 2 0 "/a.txt"
              "/backup/T1" "/backup/T2" (init demo)
              (reg_inode 1000 0x1A4 100 ["X"%byte]))
    as (r1 & s1 & d & Hrun & _ & _ & ok & s2 & Hrun2 & _ & Hb).
  - vm_compute; reflexivity.
  - vm_compute; reflexivity.
  - vm_compute; reflexivity.
  - vm_compute; reflexivity.
  - vm_compute; reflexivity.
  - vm_compute; reflexivity.
  - cbn. lia.
  - exists r1, s1, ok, s2. split; [exact Hrun|]. split; [exact Hrun2|exact Hb].
Defined.

(** X16 on the small tree: [main] with the stamp [T9] returns 0,
    [/backup/T9] is a directory, and the run of [process_file] on
    [/a.txt], from the state that [rmkdir] left to the state in which
    [main] ended, returned true. *)
Lemma main_success_leaves_snapshot_witness :
  let run := main default_config 4 "T9" ["/a.txt"; "/backup"] (init demo) in
  is_dir (files (world (final_state run (init demo)))) "/backup/T9" = true /\
  exists previous s0 s3 sa sb,
    locate_previous default_config "/backup" (init demo) =
      Some (previous, s0) /\
    rmkdir 4 "/backup/T9" 0x1ED
      (record_call s0 (world s0) (EStat "/backup/T9" None)) = Some (0, s3) /\
    each_source default_config 4 [] "/backup/T9" previous s3 =
      Some (0, sa) /\
    process_file default_config 4 "/a.txt" "/backup/T9" previous sa =
      Some (true, sb) /\
    each_source default_config 4 [] "/backup/T9" previous sb =
      Some (0, final_state run (init demo)).
Proof.
  intros run.
  destruct (main_success_leaves_snapshot default_config 4 "T9"
              ["/a.txt"; "/backup"] (init demo) (final_state run (init demo)))
    as (Hdir & _ & previous & s0 & s3 & Hloc & Hmk & _ & Hsplit).
  - apply run_result. vm_compute; reflexivity.
  - split; [exact Hdir|].
    destruct (Hsplit [] "/a.txt" [] eq_refl) as (sa & sb & H1 & H2 & H3).
    exists previous, s0, s3, sa, sb.
    split; [exact Hloc|]. split; [exact Hmk|]. split; [exact H1|].
    split; [exact H2|exact H3].
Defined.

(** X17 on the small tree: the run on [/mix] fails and the mask is
    still 022. *)
Lemma process_file_restores_umask_witness :
  let run := process_file default_config 4 "/mix" "/backup/T1" None
               (init demo) in
  mask (world (final_state run (init demo))) = 0x12.
Proof.
  intros run.
  apply (process_file_restores_umask default_config 4 "/mix" "/backup/T1"
           None (init demo) (final_state run (init demo)) false).
  - reflexivity.
  - apply run_result. vm_compute; reflexivity.
Defined.
